(** * Variably Go SDK: cache, transport and evaluator

    A shallow embedding of the client-side evaluation cache
    ([cache.go]), the error taxonomy ([errors.go]), the retrying HTTP
    transport ([client.go]), the evaluator ([evaluator.go]) and the typed
    accessors ([variably.go]), together with the properties the
    specification states about them; and of the configuration
    ([config.go]), the metrics collector ([metrics.go]), the gate and
    event paths, the life of a client and the mock client ([mock.go]),
    with properties read off the code.

    Conventions.
    - Go's [int], [int64] and [time.Duration] are [Z]; where the source can
      overflow, the wrap-around is written out with [wrap64].
    - A [time.Time] is the instant it denotes, in nanoseconds, as a [Z];
      [time.Now()] is an explicit argument ([now]) of the cache operations
      and a clock oracle of the evaluator.
    - Go maps are [gmap]s, [container/list] is a [list] whose head is the
      front of the list.
    - Code runs one operation at a time: the mutexes are not modelled. *)

From Stdlib Require Import ZArith QArith Qround Lia.
From Stdlib Require Import Floats.SpecFloat.
From Stdlib Require Import Ascii String.
From stdpp Require Import gmap strings list fin_maps sorting pretty.

Local Open Scope string_scope.
Local Open Scope Z_scope.

(** ** Machine integers and time *)

Module GoInt.

Definition min_int64 : Z := - 2 ^ 63.
Definition max_int64 : Z := 2 ^ 63 - 1.

(** Two's-complement wrap-around of 64-bit signed arithmetic. *)
Definition wrap64 (z : Z) : Z := (z + 2 ^ 63) mod 2 ^ 64 - 2 ^ 63.

Definition in_int64 (z : Z) : bool :=
  bool_decide (min_int64 ≤ z ≤ max_int64).

(** [float64(n)] for an integer [n]: rounding to nearest even. *)
Definition float64_of_int (n : Z) : spec_float :=
  binary_normalize 53 1024 n 0 false.

(** [int(f)] for a float64 [f]: truncation toward zero.  Out of range
    (and for NaN and the infinities) Go leaves the result to the
    implementation; the value below is the one amd64 produces. *)
Definition int_of_float64 (f : spec_float) : Z :=
  match f with
  | S754_zero _ => 0
  | S754_finite s m e =>
      let mag := if bool_decide (0 ≤ e) then Z.pos m * 2 ^ e
                 else Z.pos m / 2 ^ (- e) in
      let v := if s then - mag else mag in
      if in_int64 v then v else min_int64
  | _ => min_int64
  end.

End GoInt.

Module GoTime.

Definition nanosecond : Z := 1.
Definition millisecond : Z := 1000000.
Definition second : Z := 1000000000.
Definition minute : Z := 60 * second.

(** The zero [time.Time] (January 1, year 1, 00:00 UTC), as an offset from
    the Unix epoch. *)
Definition zeroTime : Z := - 62135596800 * second.

Definition IsZero (t : Z) : bool := bool_decide (t = zeroTime).
Definition After (t u : Z) : bool := bool_decide (u < t).
Definition Before (t u : Z) : bool := bool_decide (t < u).
Definition Add (t d : Z) : Z := t + d.
(** [time.Until(t)] read at the instant [now]. *)
Definition Until (now t : Z) : Z := t - now.

End GoTime.

(** ** errors.go *)

Module errors.

Record SDKError := mkSDKError {
  Code : string;
  Message : string;
  Type_ : string;
  Cause : option string
}.

(** A Go [error] value that is not nil.  The dynamic type is the
    constructor; [Cause] keeps the text of the wrapped error. *)
Inductive error :=
| NetworkError (e : SDKError) (StatusCode : Z) (URL : string)
| AuthenticationError (e : SDKError)
| ValidationError (e : SDKError) (Field : string)
| RateLimitError (e : SDKError) (RetryAfter : Z)
| TimeoutError (e : SDKError) (Duration : string)
| CacheError (e : SDKError) (Operation : string)
| ConfigError (e : SDKError) (Field : string)
| errorString (s : string).   (* errors.New, fmt.Errorf, ctx.Err() *)

Definition NewNetworkError (message : string) (statusCode : Z)
    (url : string) (cause : option string) : error :=
  NetworkError (mkSDKError "NETWORK_ERROR" message "NetworkError" cause)
               statusCode url.

Definition NewAuthenticationError (message : string)
    (cause : option string) : error :=
  AuthenticationError
    (mkSDKError "AUTHENTICATION_ERROR" message "AuthenticationError" cause).

Definition NewValidationError (message field : string)
    (cause : option string) : error :=
  ValidationError
    (mkSDKError "VALIDATION_ERROR" message "ValidationError" cause) field.

Definition NewRateLimitError (message : string) (retryAfter : Z)
    (cause : option string) : error :=
  RateLimitError
    (mkSDKError "RATE_LIMIT_ERROR" message "RateLimitError" cause) retryAfter.

Definition NewTimeoutError (message duration : string)
    (cause : option string) : error :=
  TimeoutError
    (mkSDKError "TIMEOUT_ERROR" message "TimeoutError" cause) duration.

Definition NewCacheError (message operation : string)
    (cause : option string) : error :=
  CacheError (mkSDKError "CACHE_ERROR" message "CacheError" cause) operation.

Definition NewConfigError (message field : string)
    (cause : option string) : error :=
  ConfigError (mkSDKError "CONFIG_ERROR" message "ConfigError" cause) field.

Definition StatusTooManyRequests : Z := 429.
Definition StatusRequestTimeout : Z := 408.
Definition StatusUnauthorized : Z := 401.
Definition StatusBadRequest : Z := 400.

Definition IsRetryable (err : error) : bool :=
  match err with
  | NetworkError _ StatusCode _ =>
      bool_decide (500 ≤ StatusCode)
      || bool_decide (StatusCode = StatusTooManyRequests)
      || bool_decide (StatusCode = StatusRequestTimeout)
  | TimeoutError _ _ => true
  | RateLimitError _ _ => true
  | _ => false
  end.



(** The error kinds of the classification table. *)
Inductive ErrorKind :=
| KNetwork | KAuthentication | KValidation | KRateLimit | KTimeout
| KCache | KConfig | KPlain.

Definition kind (err : error) : ErrorKind :=
  match err with
  | NetworkError _ _ _ => KNetwork
  | AuthenticationError _ => KAuthentication
  | ValidationError _ _ => KValidation
  | RateLimitError _ _ => KRateLimit
  | TimeoutError _ _ => KTimeout
  | CacheError _ _ => KCache
  | ConfigError _ _ => KConfig
  | errorString _ => KPlain
  end.

End errors.

(** ** types.go: values, results, user context *)

Module types.
Import errors.

(** The dynamic values an [interface{}] holds in this program. [VJSON]
    stands for a decoded JSON array or object, named by its text. *)
Inductive GoValue :=
| VNil
| VBool (b : bool)
| VString (s : string)
| VInt (n : Z)
| VInt64 (n : Z)
| VFloat64 (f : spec_float)
| VJSON (doc : string).

Record FlagResult := mkFlagResult {
  Key : string;
  Value : GoValue;
  Reason : string;
  RuleID : string;
  Variation : string;
  Error : option error;
  EvaluatedAt : Z;
  CacheHit : bool
}.

(** [FlagResult{}] *)
Definition zeroFlagResult : FlagResult :=
  mkFlagResult EmptyString VNil EmptyString EmptyString EmptyString None
    GoTime.zeroTime false.

Record UserContext := mkUserContext {
  UserID : string;
  Timestamp : Z
}.

(** The outcome of a cache [Get] on a cache of type [S]: the pair the
    caller receives, the cache after the call, and the key of the
    [go c.Delete(key)] goroutine the call started, if any. *)
Record GetResult (S : Type) := mkGetResult {
  got : FlagResult;
  found : bool;
  after : S;
  spawned : option string
}.
Arguments mkGetResult {S} _ _ _ _.
Arguments got {S} _.
Arguments found {S} _.
Arguments after {S} _.
Arguments spawned {S} _.

End types.

(** ** Go map iteration

    [for k, v := range m] visits the entries of [m] in an order the
    language leaves unspecified.  The order is an oracle [ord] on the list
    of keys; it is a faithful iteration when it permutes its argument
    ([fair_order]). *)

Module GoMap.

Definition KeyOrder : Type := list string → list string.

Definition range {A} (ord : KeyOrder) (m : gmap string A) : list (string * A) :=
  omap (λ k, (λ v, (k, v)) <$> m !! k) (ord (map_to_list m).*1).

Definition fair_order (ord : KeyOrder) : Prop := ∀ l, ord l ≡ₚ l.

End GoMap.

(** ** cache.go *)

Module cache.
Import types.

Record cacheItem := mkCacheItem {
  key : string;
  value : FlagResult;
  expiration : Z
}.

(** [items] is the Go map; [lruList] is the [container/list], front first.
    A list element is the [*cacheItem] of a key, so the list is kept as
    the list of keys; the [element] field of an item is the position of its
    key in [lruList]. *)
Record MemoryCache := mkMemoryCache {
  maxSize : Z;
  items : gmap string cacheItem;
  lruList : list string;
  defaultTTL : Z
}.

Definition NewMemoryCache (maxSize defaultTTL : Z) : MemoryCache :=
  mkMemoryCache maxSize ∅ [] defaultTTL.

(** [container/list]: [Remove], [MoveToFront] and [PushFront] of the
    element of key [k]. *)
Definition Remove (k : string) (l : list string) : list string :=
  filter (λ x, x ≠ k) l.
Definition MoveToFront (k : string) (l : list string) : list string :=
  k :: Remove k l.
Definition PushFront (k : string) (l : list string) : list string :=
  k :: l.

Definition Get (c : MemoryCache) (k : string) (now : Z)
    : GetResult MemoryCache :=
  match items c !! k with
  | None => mkGetResult zeroFlagResult false c None
  | Some item =>
      if GoTime.After now (expiration item)
      then mkGetResult zeroFlagResult false c (Some k)
      else mkGetResult (value item) true
             (mkMemoryCache (maxSize c) (items c)
                (MoveToFront k (lruList c)) (defaultTTL c))
             None
  end.

(** The loop of [evictIfNeeded].  [back] is the LRU list read from its back
    end.  Each round that finds [Back()] non-nil removes that element and
    deletes its key, so the recursion follows [back].  A round that finds
    the list empty changes nothing and the loop condition stays true: the
    loop never exits, which is the result [None]. *)
Fixpoint evictLoop (maxSize : Z) (back : list string)
    (items : gmap string cacheItem)
    : option (list string * gmap string cacheItem) :=
  if bool_decide (maxSize < Z.of_nat (size items)) then
    match back with
    | [] => None
    | oldest :: back' => evictLoop maxSize back' (delete oldest items)
    end
  else Some (back, items).

Definition evictIfNeeded (c : MemoryCache) : option MemoryCache :=
  match evictLoop (maxSize c) (reverse (lruList c)) (items c) with
  | None => None
  | Some (back, its) =>
      Some (mkMemoryCache (maxSize c) its (reverse back) (defaultTTL c))
  end.

(** [Set]; [None] when the call never returns. *)
Definition Set_ (c : MemoryCache) (k : string) (result : FlagResult)
    (ttl : Z) (now : Z) : option MemoryCache :=
  let ttl := if bool_decide (ttl = 0) then defaultTTL c else ttl in
  let expiration := GoTime.Add now ttl in
  match items c !! k with
  | Some existingItem =>
      Some (mkMemoryCache (maxSize c)
              (<[k := mkCacheItem (key existingItem) result expiration]> (items c))
              (MoveToFront k (lruList c)) (defaultTTL c))
  | None =>
      let item := mkCacheItem k result expiration in
      evictIfNeeded
        (mkMemoryCache (maxSize c) (<[k := item]> (items c))
           (PushFront k (lruList c)) (defaultTTL c))
  end.

Definition Delete (c : MemoryCache) (k : string) : MemoryCache :=
  match items c !! k with
  | Some _ =>
      mkMemoryCache (maxSize c) (delete k (items c)) (Remove k (lruList c))
        (defaultTTL c)
  | None => c
  end.

Definition Clear (c : MemoryCache) : MemoryCache :=
  mkMemoryCache (maxSize c) ∅ [] (defaultTTL c).

Definition Size (c : MemoryCache) : Z := Z.of_nat (size (items c)).

Definition Keys (ord : GoMap.KeyOrder) (c : MemoryCache) : list string :=
  (GoMap.range ord (items c)).*1.

Definition CleanupExpired (ord : GoMap.KeyOrder) (c : MemoryCache) (now : Z)
    : MemoryCache :=
  let expiredKeys :=
    (filter (λ kv, GoTime.After now (expiration kv.2) = true)
            (GoMap.range ord (items c))).*1 in
  foldl Delete c expiredKeys.

End cache.

(** ** encoding/json, as far as the snapshot file needs it

    Modelled from the documentation of [encoding/json] and from the struct
    tags of the source: the result of writing a value with [json.Marshal]
    and reading it back with [json.Unmarshal], [None] when [Marshal]
    fails.  A number comes back as a [float64]; NaN and the infinities are
    refused; [FlagResult.Error] carries the tag [json:"-"] and is not
    written; a [time.Time] is refused outside the years 0 to 9999 (read
    in UTC).  Strings are taken to be valid UTF-8. *)

Module json.
Import types.

Definition is_finite (f : spec_float) : bool :=
  match f with
  | S754_zero _ | S754_finite _ _ _ => true
  | _ => false
  end.

Definition roundTripValue (v : GoValue) : option GoValue :=
  match v with
  | VNil => Some VNil
  | VBool b => Some (VBool b)
  | VString s => Some (VString s)
  | VInt n | VInt64 n => Some (VFloat64 (GoInt.float64_of_int n))
  | VFloat64 f => if is_finite f then Some (VFloat64 f) else None
  | VJSON doc => Some (VJSON doc)
  end.

Definition year0 : Z := - 62167219200 * GoTime.second.
Definition year10000 : Z := 253402300800 * GoTime.second.

Definition roundTripTime (t : Z) : option Z :=
  if bool_decide (year0 ≤ t < year10000) then Some t else None.

Definition roundTripFlagResult (r : FlagResult) : option FlagResult :=
  match roundTripValue (Value r), roundTripTime (EvaluatedAt r) with
  | Some v, Some t =>
      Some (mkFlagResult (Key r) v (Reason r) (RuleID r) (Variation r)
              None t (CacheHit r))
  | _, _ => None
  end.

End json.

(** ** cache.go: the persistent cache *)

Module persistent.
Import types cache.

Record PersistentCache := mkPersistentCache {
  memoryCache : MemoryCache;
  filePath : string
}.

Record persistentCacheItem := mkPersistentCacheItem {
  item_Value : FlagResult;
  item_Expiration : Z
}.

Record persistentCacheData := mkPersistentCacheData {
  Items : gmap string persistentCacheItem
}.

(** A file is kept as what [json.Unmarshal] makes of its bytes: a snapshot,
    or nothing it can parse. *)
Inductive FileContent :=
| NotJSON
| SnapshotJSON (data : persistentCacheData).

Definition jsonUnmarshal (data : FileContent) : option persistentCacheData :=
  match data with
  | NotJSON => None
  | SnapshotJSON cacheData => Some cacheData
  end.

Definition roundTripItem (it : persistentCacheItem)
    : option persistentCacheItem :=
  match json.roundTripFlagResult (item_Value it),
        json.roundTripTime (item_Expiration it) with
  | Some r, Some t => Some (mkPersistentCacheItem r t)
  | _, _ => None
  end.

Definition jsonMarshal (cacheData : persistentCacheData) : option FileContent :=
  if bool_decide (map_Forall (λ _ it, is_Some (roundTripItem it))
                             (Items cacheData))
  then Some (SnapshotJSON
               (mkPersistentCacheData (omap roundTripItem (Items cacheData))))
  else None.

(** The disk: the files, and what goes wrong at the coming writes (one
    entry per [saveToFile] that reaches the disk; no entry: nothing). *)
Inductive DiskFault := WriteFileFails | RenameFails.

Record Disk := mkDisk {
  files : gmap string FileContent;
  faults : list (option DiskFault)
}.

(** "Get all current items from memory cache": the data [saveToFile]
    marshals. *)
Definition snapshot (c : PersistentCache) : persistentCacheData :=
  mkPersistentCacheData
    ((λ item, mkPersistentCacheItem (value item) (expiration item))
       <$> items (memoryCache c)).

Definition saveToFile (c : PersistentCache) (d : Disk) : Disk :=
  let cacheData := snapshot c in
  match jsonMarshal cacheData with
  | None => d
  | Some data =>
      let tempFile := filePath c +:+ ".tmp" in
      match head (faults d) with
      | Some (Some WriteFileFails) => mkDisk (files d) (tail (faults d))
      | Some (Some RenameFails) =>
          mkDisk (<[tempFile := data]> (files d)) (tail (faults d))
      | _ =>
          mkDisk (<[filePath c := data]>
                    (delete tempFile (<[tempFile := data]> (files d))))
                 (tail (faults d))
      end
  end.

(** The coming write meets no fault. *)
Definition writable (d : Disk) : Prop :=
  match head (faults d) with
  | Some (Some _) => False
  | _ => True
  end.

(** The instants [loadFromFile] reads off the clock: once before the loop,
    and for each key it keeps, once in [time.Until] and once in the [Set]
    that follows. *)
Record LoadClock := mkLoadClock {
  load_now : Z;
  until_now : string → Z;
  set_now : string → Z
}.

Fixpoint loadItems (clk : LoadClock)
    (entries : list (string * persistentCacheItem)) (mc : MemoryCache)
    : option MemoryCache :=
  match entries with
  | [] => Some mc
  | (key, item) :: rest =>
      if GoTime.Before (load_now clk) (item_Expiration item) then
        let ttl := GoTime.Until (until_now clk key) (item_Expiration item) in
        match Set_ mc key (item_Value item) ttl (set_now clk key) with
        | None => None
        | Some mc' => loadItems clk rest mc'
        end
      else loadItems clk rest mc
  end.

Definition loadFromFile (ord : GoMap.KeyOrder) (clk : LoadClock) (d : Disk)
    (c : PersistentCache) : option PersistentCache :=
  match files d !! filePath c with
  | None => Some c
  | Some data =>
      match jsonUnmarshal data with
      | None => Some c
      | Some cacheData =>
          match loadItems clk (GoMap.range ord (Items cacheData))
                  (memoryCache c) with
          | None => None
          | Some mc => Some (mkPersistentCache mc (filePath c))
          end
      end
  end.

Definition NewPersistentCache (maxSize defaultTTL : Z) (filePath : string)
    (ord : GoMap.KeyOrder) (clk : LoadClock) (d : Disk)
    : option PersistentCache :=
  loadFromFile ord clk d
    (mkPersistentCache (NewMemoryCache maxSize defaultTTL) filePath).

Definition Get (c : PersistentCache) (k : string) (now : Z)
    : GetResult PersistentCache :=
  let r := cache.Get (memoryCache c) k now in
  mkGetResult (got r) (found r) (mkPersistentCache (after r) (filePath c))
    (spawned r).

Definition Set_ (c : PersistentCache) (k : string) (result : FlagResult)
    (ttl now : Z) (d : Disk) : option (PersistentCache * Disk) :=
  match cache.Set_ (memoryCache c) k result ttl now with
  | None => None
  | Some mc =>
      let c' := mkPersistentCache mc (filePath c) in
      Some (c', saveToFile c' d)
  end.

Definition Delete (c : PersistentCache) (k : string) (d : Disk)
    : PersistentCache * Disk :=
  let c' := mkPersistentCache (cache.Delete (memoryCache c) k) (filePath c) in
  (c', saveToFile c' d).

Definition Clear (c : PersistentCache) (d : Disk) : PersistentCache * Disk :=
  let c' := mkPersistentCache (cache.Clear (memoryCache c)) (filePath c) in
  (c', saveToFile c' d).

Definition Size (c : PersistentCache) : Z := cache.Size (memoryCache c).

(** [c'] and [d'] are the cache and the disk after one mutating call on
    the persistent cache [c] over the disk [d]. *)
Definition written (c : PersistentCache) (d : Disk) (c' : PersistentCache)
    (d' : Disk) : Prop :=
  (∃ k result ttl now, Set_ c k result ttl now d = Some (c', d')) ∨
  (∃ k, Delete c k d = (c', d')) ∨
  Clear c d = (c', d').

Definition Keys (ord : GoMap.KeyOrder) (c : PersistentCache) : list string :=
  cache.Keys ord (memoryCache c).

End persistent.

(** ** cache.go: the cache manager *)

Module manager.
Import types cache persistent.

Record CacheConfig := mkCacheConfig {
  TTL : Z;
  MaxSize : Z;
  EnablePersistence : bool;
  PersistencePath : string;
  EvictionPolicy : string
}.

(** The [Cache] interface has the two implementations of this file; the
    source itself tells them apart by a type switch in [StartCleanup]. *)
Inductive Cache :=
| OfMemoryCache (c : MemoryCache)
| OfPersistentCache (c : PersistentCache).

Record CacheManager := mkCacheManager {
  cache : Cache;
  config : CacheConfig
}.

Definition NewCacheManager (config : CacheConfig) (ord : GoMap.KeyOrder)
    (clk : LoadClock) (d : Disk) : option CacheManager :=
  if EnablePersistence config
     && negb (String.eqb (PersistencePath config) EmptyString)
  then
    match NewPersistentCache (MaxSize config) (TTL config)
            (PersistencePath config) ord clk d with
    | None => None
    | Some c => Some (mkCacheManager (OfPersistentCache c) config)
    end
  else
    Some (mkCacheManager
            (OfMemoryCache (NewMemoryCache (MaxSize config) (TTL config)))
            config).

(** The memory cache under either implementation. *)
Definition memoryOf (cm : CacheManager) : MemoryCache :=
  match cache cm with
  | OfMemoryCache c => c
  | OfPersistentCache c => memoryCache c
  end.

Definition Get (cm : CacheManager) (k : string) (now : Z)
    : GetResult CacheManager :=
  match cache cm with
  | OfMemoryCache c =>
      let r := cache.Get c k now in
      mkGetResult (got r) (found r)
        (mkCacheManager (OfMemoryCache (after r)) (config cm)) (spawned r)
  | OfPersistentCache c =>
      let r := persistent.Get c k now in
      mkGetResult (got r) (found r)
        (mkCacheManager (OfPersistentCache (after r)) (config cm)) (spawned r)
  end.

Definition Set_ (cm : CacheManager) (k : string) (result : FlagResult)
    (ttl now : Z) (d : Disk) : option (CacheManager * Disk) :=
  let ttl := if bool_decide (ttl = 0) then TTL (config cm) else ttl in
  match cache cm with
  | OfMemoryCache c =>
      match cache.Set_ c k result ttl now with
      | None => None
      | Some c' => Some (mkCacheManager (OfMemoryCache c') (config cm), d)
      end
  | OfPersistentCache c =>
      match persistent.Set_ c k result ttl now d with
      | None => None
      | Some (c', d') =>
          Some (mkCacheManager (OfPersistentCache c') (config cm), d')
      end
  end.

Definition Delete (cm : CacheManager) (k : string) (d : Disk)
    : CacheManager * Disk :=
  match cache cm with
  | OfMemoryCache c =>
      (mkCacheManager (OfMemoryCache (cache.Delete c k)) (config cm), d)
  | OfPersistentCache c =>
      let '(c', d') := persistent.Delete c k d in
      (mkCacheManager (OfPersistentCache c') (config cm), d')
  end.

Definition Clear (cm : CacheManager) (d : Disk) : CacheManager * Disk :=
  match cache cm with
  | OfMemoryCache c =>
      (mkCacheManager (OfMemoryCache (cache.Clear c)) (config cm), d)
  | OfPersistentCache c =>
      let '(c', d') := persistent.Clear c d in
      (mkCacheManager (OfPersistentCache c') (config cm), d')
  end.

Definition Size (cm : CacheManager) : Z := cache.Size (memoryOf cm).

Definition Keys (ord : GoMap.KeyOrder) (cm : CacheManager) : list string :=
  cache.Keys ord (memoryOf cm).

(** One tick of the ticker in [StartCleanup]. *)
Definition cleanupTick (ord : GoMap.KeyOrder) (cm : CacheManager) (now : Z)
    (d : Disk) : CacheManager * Disk :=
  match cache cm with
  | OfMemoryCache c =>
      (mkCacheManager (OfMemoryCache (CleanupExpired ord c now)) (config cm), d)
  | OfPersistentCache c =>
      let c' := mkPersistentCache (CleanupExpired ord (memoryCache c) now)
                  (filePath c) in
      (mkCacheManager (OfPersistentCache c') (config cm), saveToFile c' d)
  end.

(** The goroutine [go c.Delete(key)] that [MemoryCache.Get] starts runs
    [MemoryCache.Delete] on the memory cache, without a save. *)
Definition runSpawnedDelete (cm : CacheManager) (k : string) : CacheManager :=
  match cache cm with
  | OfMemoryCache c =>
      mkCacheManager (OfMemoryCache (cache.Delete c k)) (config cm)
  | OfPersistentCache c =>
      mkCacheManager
        (OfPersistentCache
           (mkPersistentCache (cache.Delete (memoryCache c) k) (filePath c)))
        (config cm)
  end.

End manager.

(** ** metrics.go *)

Module metrics.
Import GoInt.

Record MetricsCollector := mkMetricsCollector {
  apiCalls : Z;
  cacheHits : Z;
  cacheMisses : Z;
  errorCount : Z;
  flagsEvaluated : Z;
  totalLatency : Z
}.

Definition NewMetricsCollector : MetricsCollector :=
  mkMetricsCollector 0 0 0 0 0 0.

Definition RecordAPICall (latency : Z) (success : bool)
    (m : MetricsCollector) : MetricsCollector :=
  mkMetricsCollector (wrap64 (apiCalls m + 1)) (cacheHits m) (cacheMisses m)
    (if success then errorCount m else wrap64 (errorCount m + 1))
    (flagsEvaluated m) (wrap64 (totalLatency m + latency)).

Definition RecordCacheHit (m : MetricsCollector) : MetricsCollector :=
  mkMetricsCollector (apiCalls m) (wrap64 (cacheHits m + 1)) (cacheMisses m)
    (errorCount m) (flagsEvaluated m) (totalLatency m).

Definition RecordCacheMiss (m : MetricsCollector) : MetricsCollector :=
  mkMetricsCollector (apiCalls m) (cacheHits m) (wrap64 (cacheMisses m + 1))
    (errorCount m) (flagsEvaluated m) (totalLatency m).

Definition RecordFlagEvaluation (m : MetricsCollector) : MetricsCollector :=
  mkMetricsCollector (apiCalls m) (cacheHits m) (cacheMisses m)
    (errorCount m) (wrap64 (flagsEvaluated m + 1)) (totalLatency m).

End metrics.

(** ** The wire: requests, responses, and what an HTTP exchange can do *)

Module wire.
Import types.

Record APIError := mkAPIError {
  api_Code : string;
  api_Message : string;
  api_Details : string
}.

(** [APIResponse], without its [Data]. *)
Record APIResponse := mkAPIResponse {
  api_Success : bool;
  api_Error : option APIError
}.

Record EvaluateFlagRequest := mkEvaluateFlagRequest {
  req_FlagKey : string;
  req_Context : UserContext
}.

Record EvaluateFlagResponse := mkEvaluateFlagResponse {
  Enabled : bool;
  resp_FlagKey : string;
  resp_UserID : string;
  resp_Timestamp : string
}.

(** [var resp EvaluateFlagResponse] *)
Definition zeroEvaluateFlagResponse : EvaluateFlagResponse :=
  mkEvaluateFlagResponse false EmptyString EmptyString EmptyString.

Record BatchEvaluateFlagsRequest := mkBatchEvaluateFlagsRequest {
  req_FlagKeys : list string;
  batch_Context : UserContext;
  req_Environment : string
}.

Record BatchEvaluateFlagsResponse := mkBatchEvaluateFlagsResponse {
  Results : gmap string EvaluateFlagResponse
}.

Definition zeroBatchEvaluateFlagsResponse : BatchEvaluateFlagsResponse :=
  mkBatchEvaluateFlagsResponse ∅.

(** A response body, kept as what [json.Unmarshal] makes of it at the three
    places [doRequest] and [handleHTTPError] parse it: into an [APIError]
    ([None]: the parse fails), into an [APIResponse], and into the result
    the caller asked for ([inl]: the parse fails, with the parser's
    message). *)
Record Body (R : Type) := mkBody {
  asAPIError : option APIError;
  asAPIResponse : option APIResponse;
  asResult : string + R
}.
Arguments mkBody {R} _ _ _.
Arguments asAPIError {R} _.
Arguments asAPIResponse {R} _.
Arguments asResult {R} _.

(** What one run of [doRequest] meets, step by step. *)
Inductive Exchange (R : Type) :=
| MarshalFails (cause : string)      (* json.Marshal(body) *)
| NewRequestFails (cause : string)   (* http.NewRequestWithContext *)
| DoFails (cause : string)           (* c.client.Do: no response *)
| ReadFails (StatusCode : Z) (cause : string)   (* io.ReadAll(resp.Body) *)
| Response (StatusCode : Z) (respBody : Body R).
Arguments MarshalFails {R} _.
Arguments NewRequestFails {R} _.
Arguments DoFails {R} _.
Arguments ReadFails {R} _ _.
Arguments Response {R} _ _.

End wire.

(** ** The world the evaluator runs in

    [Env] holds what the program does not decide: the clock, the answers of
    the remote service, the caller's context, the random source and the
    order of map iteration.  [World] is the mutable state; the counters
    [reads] and [exchanges] say how many clock readings and HTTP exchanges
    have happened, and index the oracles of [Env]. *)

Module runtime.
Import errors types metrics wire manager persistent.

Record Env := mkEnv {
  clock : nat → Z;
  flagAPI : nat → EvaluateFlagRequest → Exchange EvaluateFlagResponse;
  batchAPI : nat → BatchEvaluateFlagsRequest
             → Exchange BatchEvaluateFlagsResponse;
  (** [ctxDone n = Some err]: the caller's context is done, with
      [ctx.Err() = err], while the client waits before exchange [n]. *)
  ctxDone : nat → option error;
  (** [rand.Float64()] drawn before exchange [n]. *)
  randFloat64 : nat → Q;
  mapOrder : GoMap.KeyOrder
}.

Record World := mkWorld {
  cacheManager : CacheManager;
  disk : Disk;
  collector : MetricsCollector;
  closed : bool;
  reads : nat;
  exchanges : nat;
  sleeps : list Z;
  spawnedDeletes : list string
}.

(** A call returns a value and a world, never returns, or panics. *)
Inductive Outcome (A : Type) :=
| Returns (a : A) (w : World)
| Hangs
| Panics (msg : string).
Arguments Returns {A} _ _.
Arguments Hangs {A}.
Arguments Panics {A} _.

Definition M (A : Type) : Type := Env → World → Outcome A.

Definition ret {A} (a : A) : M A := λ _ w, Returns a w.

Definition bind {A B} (m : M A) (f : A → M B) : M B :=
  λ E w,
    match m E w with
    | Returns a w' => f a E w'
    | Hangs => Hangs
    | Panics msg => Panics msg
    end.

Definition panic {A} (msg : string) : M A := λ _ _, Panics msg.

#[global] Instance M_ret : MRet M := @ret.
#[global] Instance M_bind : MBind M := λ A B f m, bind m f.

(** [time.Now()] *)
Definition now : M Z :=
  λ E w,
    Returns (clock E (reads w))
      (mkWorld (cacheManager w) (disk w) (collector w) (closed w)
         (S (reads w)) (exchanges w) (sleeps w) (spawnedDeletes w)).

Definition record (f : MetricsCollector → MetricsCollector) : M unit :=
  λ _ w,
    Returns tt
      (mkWorld (cacheManager w) (disk w) (f (collector w)) (closed w)
         (reads w) (exchanges w) (sleeps w) (spawnedDeletes w)).

(** [e.cacheManager.Get(key)]; the clock is read when the key is in the
    map. *)
Definition cacheGet (k : string) : M (FlagResult * bool) :=
  λ E w,
    let r := manager.Get (cacheManager w) k (clock E (reads w)) in
    Returns (got r, found r)
      (mkWorld (after r) (disk w) (collector w) (closed w)
         (if bool_decide
               (is_Some (cache.items (memoryOf (cacheManager w)) !! k))
          then S (reads w) else reads w)
         (exchanges w) (sleeps w)
         (match spawned r with
          | Some k' => k' :: spawnedDeletes w
          | None => spawnedDeletes w
          end)).

(** [e.cacheManager.Set(key, result, ttl)] *)
Definition cacheSet (k : string) (result : FlagResult) (ttl : Z) : M unit :=
  λ E w,
    match manager.Set_ (cacheManager w) k result ttl (clock E (reads w))
            (disk w) with
    | None => Hangs
    | Some (cm, d) =>
        Returns tt
          (mkWorld cm d (collector w) (closed w) (S (reads w))
             (exchanges w) (sleeps w) (spawnedDeletes w))
    end.

(** The world once the [Delete] goroutines started so far have run. *)
Definition runSpawned (w : World) : World :=
  mkWorld
    (foldr (λ k cm, manager.runSpawnedDelete cm k) (cacheManager w)
       (spawnedDeletes w))
    (disk w) (collector w) (closed w) (reads w) (exchanges w) (sleeps w) [].

(** The entries of [m], in the order a [range] loop visits them. *)
Definition rangeMap {A} (m : gmap string A) : M (list (string * A)) :=
  λ E w, Returns (GoMap.range (mapOrder E) m) w.

Fixpoint foldM {A B} (f : B → A → M B) (b : B) (l : list A) : M B :=
  match l with
  | [] => ret b
  | a :: l' => b' ← f b a; foldM f b' l'
  end.

End runtime.

(** ** client.go: the HTTP client *)

Module httpclient.
Import errors types metrics wire runtime.

Record HTTPClient := mkHTTPClient {
  baseURL : string;
  apiKey : string;
  retryAttempts : Z
}.

(** [strconv.Atoi]: an optional sign, then decimal digits, within the range
    of [int]. *)
Definition digit (a : Ascii.ascii) : option Z :=
  let n := Z.of_N (Ascii.N_of_ascii a) in
  if bool_decide (48 ≤ n ≤ 57) then Some (n - 48) else None.

Fixpoint digits (s : string) (acc : Z) : option Z :=
  match s with
  | EmptyString => Some acc
  | String a s' =>
      match digit a with
      | Some d => digits s' (10 * acc + d)
      | None => None
      end
  end.

Definition Atoi (s : string) : option Z :=
  let unsigned (t : string) : option Z :=
    match t with
    | EmptyString => None
    | _ => digits t 0
    end in
  let parsed :=
    match s with
    | String "+"%char t => unsigned t
    | String "-"%char t => Z.opp <$> unsigned t
    | _ => unsigned s
    end in
  match parsed with
  | Some n => if GoInt.in_int64 n then Some n else None
  | None => None
  end.

Definition handleHTTPError {R} (statusCode : Z) (body : Body R) (url : string)
    : error :=
  match asAPIError body with
  | None =>
      NewNetworkError ("HTTP " +:+ pretty statusCode) statusCode url None
  | Some apiErr =>
      if bool_decide (statusCode = StatusUnauthorized) then
        NewAuthenticationError (api_Message apiErr) None
      else if bool_decide (statusCode = StatusBadRequest) then
        NewValidationError (api_Message apiErr) EmptyString None
      else if bool_decide (statusCode = StatusTooManyRequests) then
        let retryAfter :=
          if negb (String.eqb (api_Details apiErr) EmptyString) then
            match Atoi (api_Details apiErr) with
            | Some parsed => parsed
            | None => 0
            end
          else 0 in
        NewRateLimitError (api_Message apiErr) retryAfter None
      else if bool_decide (statusCode = StatusRequestTimeout) then
        NewTimeoutError (api_Message apiErr) EmptyString None
      else
        NewNetworkError (api_Message apiErr) statusCode url None
  end.

(** What [doRequest] returns for what the exchange meets.  The callers
    modelled here pass a body and a result that are not nil. *)
Definition settle {R} (url : string) (x : Exchange R) : error + R :=
  match x with
  | MarshalFails cause =>
      inl (NewValidationError "Failed to marshal request body" EmptyString
             (Some cause))
  | NewRequestFails cause =>
      inl (NewNetworkError "Failed to create request" 0 url (Some cause))
  | DoFails cause =>
      inl (NewNetworkError "Request failed" 0 url (Some cause))
  | ReadFails status cause =>
      inl (NewNetworkError "Failed to read response body" status url
             (Some cause))
  | Response status respBody =>
      if bool_decide (400 ≤ status) then
        inl (handleHTTPError status respBody url)
      else
        let direct :=
          match asResult respBody with
          | inl cause =>
              inl (NewNetworkError "Failed to parse response" status url
                     (Some cause))
          | inr result => inr result
          end in
        match asAPIResponse respBody with
        | Some apiResp =>
            match api_Error apiResp with
            | Some apiErr =>
                inl (NewNetworkError (api_Message apiErr) status url None)
            | None => direct
            end
        | None => direct
        end
  end.

Definition doRequest {Req R} (c : HTTPClient)
    (api : Env → nat → Req → Exchange R) (path : string) (body : Req)
    : M (error + R) :=
  λ E w,
    Returns (settle (baseURL c +:+ path) (api E (exchanges w) body))
      (mkWorld (cacheManager w) (disk w) (collector w) (closed w)
         (reads w) (S (exchanges w)) (sleeps w) (spawnedDeletes w)).

(** [time.Duration(math.Pow(2, float64(attempt)))].  The power is exact in
    float64; a negative exponent gives a value below one, which truncates
    to zero; from exponent 63 on the value is outside [int64] and Go
    leaves the conversion to the implementation (the value below is the
    one amd64 produces). *)
Definition pow2Duration (attempt : Z) : Z :=
  if bool_decide (attempt < 0) then 0
  else if bool_decide (attempt ≤ 62) then 2 ^ attempt
  else GoInt.min_int64.

(** [time.Duration(x)] for a float [x]: truncation toward zero.  A
    [float64] is read as the rational it denotes. *)
Definition truncQ (x : Q) : Z := Z.quot (Qnum x) (Z.pos (Qden x)).

(** [calculateBackoff]; [r] is the value [rand.Float64()] returns.  The
    float expression [r*0.5-0.25] is computed here without rounding; the
    rounding of float64 is monotone and keeps it within [-0.25, 0.25], so
    the truncation is the same. *)
Definition calculateBackoff (attempt : Z) (r : Q) : Z :=
  let base := GoInt.wrap64 (100 * GoTime.millisecond) in
  let backoff := GoInt.wrap64 (base * pow2Duration attempt) in
  let maxBackoff := GoInt.wrap64 (30 * GoTime.second) in
  let backoff :=
    if bool_decide (maxBackoff < backoff) then maxBackoff else backoff in
  let jitter :=
    GoInt.wrap64 (truncQ (r * (1 # 2) - (1 # 4))%Q * backoff) in
  GoInt.wrap64 (backoff + jitter).

(** The [select] of [makeRequest]: the wait before exchange [n]. *)
Definition backoffWait (attempt : Z) : M (option error) :=
  λ E w,
    let backoff := calculateBackoff attempt (randFloat64 E (exchanges w)) in
    match ctxDone E (exchanges w) with
    | Some err => Returns (Some err) w
    | None =>
        Returns None
          (mkWorld (cacheManager w) (disk w) (collector w) (closed w)
             (reads w) (exchanges w) (backoff :: sleeps w)
             (spawnedDeletes w))
    end.

(** The loop of [makeRequest].  [remaining] counts the rounds the loop
    condition [attempt <= c.retryAttempts] still allows (for a
    [retryAttempts] below the largest [int]; at the largest [int] the
    counter wraps and the condition never fails); [zero] is the value of
    the caller's [resp] variable before the call. *)
Fixpoint attemptLoop {Req R} (c : HTTPClient)
    (api : Env → nat → Req → Exchange R) (path : string) (body : Req)
    (zero : R) (remaining : nat) (attempt : Z) (lastErr : option error)
    : M (error + R) :=
  match remaining with
  | O =>
      mret (match lastErr with
            | Some err => inl err
            | None => inr zero
            end)
  | S remaining' =>
      stop ← (if bool_decide (0 < attempt) then backoffWait attempt
              else mret None);
      match stop with
      | Some ctxErr => mret (inl ctxErr)
      | None =>
          startTime ← now;
          res ← doRequest c api path body;
          finish ← now;
          record (RecordAPICall (finish - startTime)
                    (match res with inr _ => true | inl _ => false end));;
          match res with
          | inr result => mret (inr result)
          | inl err =>
              if IsRetryable err
              then attemptLoop c api path body zero remaining'
                     (attempt + 1) (Some err)
              else mret (inl err)
          end
      end
  end.

Definition makeRequest {Req R} (c : HTTPClient)
    (api : Env → nat → Req → Exchange R) (method path : string) (body : Req)
    (zero : R) : M (error + R) :=
  attemptLoop c api path body zero (Z.to_nat (retryAttempts c + 1)) 0 None.

Definition EvaluateFlag (c : HTTPClient) (flagKey : string)
    (userContext : UserContext) (environment : string)
    : M (error + EvaluateFlagResponse) :=
  makeRequest c flagAPI "POST" "/api/v1/sdk/evaluate"
    (mkEvaluateFlagRequest flagKey userContext) zeroEvaluateFlagResponse.

Definition EvaluateFlags (c : HTTPClient) (flagKeys : list string)
    (userContext : UserContext) (environment : string)
    : M (error + BatchEvaluateFlagsResponse) :=
  makeRequest c batchAPI "POST" "/api/v1/sdk/evaluate/batch"
    (mkBatchEvaluateFlagsRequest flagKeys userContext environment)
    zeroBatchEvaluateFlagsResponse.

End httpclient.

(** ** evaluator.go *)

Module evaluator.
Import errors types metrics wire runtime httpclient.

(** Of [Config], the evaluator reads [Environment]. *)
Record Config := mkConfig {
  Environment : string
}.

Record Evaluator := mkEvaluator {
  httpClient : HTTPClient;
  config : Config
}.

Definition generateCacheKey (e : Evaluator) (flagKey : string)
    (userContext : UserContext) : string :=
  "flag:" +:+ flagKey +:+ ":user:" +:+ UserID userContext
  +:+ ":env:" +:+ Environment (config e).

(** [s] holds no colon, the separator of the cache key. *)
Fixpoint colonFree (s : string) : bool :=
  match s with
  | EmptyString => true
  | String a s' => if Ascii.eqb a ":" then false else colonFree s'
  end.

(** "Ensure user context has timestamp" *)
Definition stamp (userContext : UserContext) : M UserContext :=
  if GoTime.IsZero (Timestamp userContext)
  then t ← now; mret (mkUserContext (UserID userContext) t)
  else mret userContext.

Definition withCacheHit (r : FlagResult) : FlagResult :=
  mkFlagResult (Key r) (Value r) (Reason r) (RuleID r) (Variation r)
    (Error r) (EvaluatedAt r) true.

Definition evaluateFlagFromAPI (e : Evaluator) (flagKey : string)
    (defaultValue : GoValue) (userContext : UserContext) : M FlagResult :=
  res ← httpclient.EvaluateFlag (httpClient e) flagKey userContext
          (Environment (config e));
  match res with
  | inl err =>
      t ← now;
      mret (mkFlagResult flagKey defaultValue "error_fallback" EmptyString
              EmptyString (Some err) t false)
  | inr response =>
      t ← now;
      mret (mkFlagResult flagKey (VBool (Enabled response)) "api_evaluation"
              EmptyString EmptyString None t false)
  end.

(** The first part of [EvaluateFlag], up to the cache lookup: the user
    context with its timestamp, and what the cache answers. *)
Definition lookupFlag (e : Evaluator) (flagKey : string)
    (userContext : UserContext) : M (UserContext * (FlagResult * bool)) :=
  record RecordFlagEvaluation;;
  userContext ← stamp userContext;
  cached ← cacheGet (generateCacheKey e flagKey userContext);
  mret (userContext, cached).

Definition EvaluateFlag (e : Evaluator) (flagKey : string)
    (defaultValue : GoValue) (userContext : UserContext) : M FlagResult :=
  looked ← lookupFlag e flagKey userContext;
  let userContext := looked.1 in
  let cachedResult := looked.2.1 in
  if (looked.2.2 : bool) then
    record RecordCacheHit;;
    mret (withCacheHit cachedResult)
  else
    record RecordCacheMiss;;
    result ← evaluateFlagFromAPI e flagKey defaultValue userContext;
    match Error result with
    | None =>
        cacheSet (generateCacheKey e flagKey userContext) result 0;;
        mret result
    | Some _ => mret result
    end.

Definition evaluateFlagsFromAPI (e : Evaluator) (flagKeys : list string)
    (userContext : UserContext) : M (gmap string FlagResult) :=
  res ← httpclient.EvaluateFlags (httpClient e) flagKeys userContext
          (Environment (config e));
  match res with
  | inl err =>
      foldM (λ (results : gmap string FlagResult) flagKey,
               t ← now;
               mret (<[flagKey :=
                         mkFlagResult flagKey VNil "error_fallback"
                           EmptyString EmptyString (Some err) t false]>
                       results))
            ∅ flagKeys
  | inr response =>
      entries ← rangeMap (Results response);
      results ←
        foldM (λ (results : gmap string FlagResult)
                 (entry : string * EvaluateFlagResponse),
                 t ← now;
                 mret (<[entry.1 :=
                           mkFlagResult entry.1 (VBool (Enabled entry.2))
                             "api_evaluation" EmptyString EmptyString None t
                             false]>
                         results))
              ∅ entries;
      foldM (λ (results : gmap string FlagResult) flagKey,
               match results !! flagKey with
               | Some _ => mret results
               | None =>
                   t ← now;
                   mret (<[flagKey :=
                             mkFlagResult flagKey VNil "not_found"
                               EmptyString EmptyString
                               (Some (errorString
                                        "flag not found in response"))
                               t false]>
                           results)
               end)
            results flagKeys
  end.

(** One round of the loop "Check cache for each flag". *)
Definition checkCache (e : Evaluator) (userContext : UserContext)
    (acc : gmap string FlagResult * list string) (flagKey : string)
    : M (gmap string FlagResult * list string) :=
  record RecordFlagEvaluation;;
  cached ← cacheGet (generateCacheKey e flagKey userContext);
  if (cached.2 : bool) then
    record RecordCacheHit;;
    mret (<[flagKey := withCacheHit cached.1]> acc.1, acc.2)
  else
    record RecordCacheMiss;;
    mret (acc.1, acc.2 ++ [flagKey])%list.

(** One round of the loop "Merge batch results and cache them". *)
Definition mergeResult (e : Evaluator) (userContext : UserContext)
    (results : gmap string FlagResult) (entry : string * FlagResult)
    : M (gmap string FlagResult) :=
  let results := <[entry.1 := entry.2]> results in
  match Error entry.2 with
  | None =>
      cacheSet (generateCacheKey e entry.1 userContext) entry.2 0;;
      mret results
  | Some _ => mret results
  end.

(** The first part of [EvaluateFlags], up to the end of the loop "Check
    cache for each flag": the user context with its timestamp, the results
    found in the cache, and the flags that were not. *)
Definition partitionCached (e : Evaluator) (flagKeys : list string)
    (userContext : UserContext)
    : M (UserContext * (gmap string FlagResult * list string)) :=
  userContext ← stamp userContext;
  checked ← foldM (checkCache e userContext) (∅, []) flagKeys;
  mret (userContext, checked).

Definition EvaluateFlags (e : Evaluator) (flagKeys : list string)
    (userContext : UserContext) : M (gmap string FlagResult) :=
  parts ← partitionCached e flagKeys userContext;
  let userContext := parts.1 in
  let results := parts.2.1 in
  let uncachedFlags := parts.2.2 in
  if bool_decide (length uncachedFlags = 0%nat) then mret results
  else
    batchResults ← evaluateFlagsFromAPI e uncachedFlags userContext;
    entries ← rangeMap batchResults;
    foldM (mergeResult e userContext) results entries.

End evaluator.

(** ** variably.go: the client and its typed accessors *)

Module variably.
Import errors types metrics wire runtime httpclient evaluator.

Record VariablyClient := mkVariablyClient {
  evaluator : Evaluator
}.

Definition ensureNotClosed : M unit :=
  λ _ w,
    if closed w then Panics "Variably client has been closed"
    else Returns tt w.

Definition EvaluateFlag (c : VariablyClient) (flagKey : string)
    (defaultValue : GoValue) (userContext : UserContext) : M FlagResult :=
  ensureNotClosed;;
  evaluator.EvaluateFlag (evaluator c) flagKey defaultValue userContext.

Definition EvaluateFlagBool (c : VariablyClient) (flagKey : string)
    (defaultValue : bool) (userContext : UserContext) : M bool :=
  result ← EvaluateFlag c flagKey (VBool defaultValue) userContext;
  match Error result with
  | Some _ => mret defaultValue
  | None =>
      match Value result with
      | VBool value => mret value
      | _ => mret defaultValue
      end
  end.

Definition EvaluateFlagString (c : VariablyClient) (flagKey : string)
    (defaultValue : string) (userContext : UserContext) : M string :=
  result ← EvaluateFlag c flagKey (VString defaultValue) userContext;
  match Error result with
  | Some _ => mret defaultValue
  | None =>
      match Value result with
      | VString value => mret value
      | _ => mret defaultValue
      end
  end.

Definition EvaluateFlagInt (c : VariablyClient) (flagKey : string)
    (defaultValue : Z) (userContext : UserContext) : M Z :=
  result ← EvaluateFlag c flagKey (VInt defaultValue) userContext;
  match Error result with
  | Some _ => mret defaultValue
  | None =>
      match Value result with
      | VInt v => mret v
      | VInt64 v => mret v
      | VFloat64 v => mret (GoInt.int_of_float64 v)
      | _ => mret defaultValue
      end
  end.

Definition EvaluateFlagFloat (c : VariablyClient) (flagKey : string)
    (defaultValue : spec_float) (userContext : UserContext) : M spec_float :=
  result ← EvaluateFlag c flagKey (VFloat64 defaultValue) userContext;
  match Error result with
  | Some _ => mret defaultValue
  | None =>
      match Value result with
      | VFloat64 v => mret v
      | VInt v => mret (GoInt.float64_of_int v)
      | VInt64 v => mret (GoInt.float64_of_int v)
      | _ => mret defaultValue
      end
  end.

Definition EvaluateFlagJSON (c : VariablyClient) (flagKey : string)
    (defaultValue : GoValue) (userContext : UserContext) : M GoValue :=
  result ← EvaluateFlag c flagKey defaultValue userContext;
  match Error result with
  | Some _ => mret defaultValue
  | None => mret (Value result)
  end.

Definition EvaluateFlags (c : VariablyClient) (flagKeys : list string)
    (userContext : UserContext) : M (gmap string FlagResult) :=
  ensureNotClosed;;
  evaluator.EvaluateFlags (evaluator c) flagKeys userContext.

End variably.

(** ** Histories of cache operations

    A history is a list of calls on one [MemoryCache].  Next to the cache,
    a history carries ghost bookkeeping that the code does not have: the
    index of the call that inserted each key ([born]) and the index of the
    last call that used it ([lastUse]); a call uses a key when it is a
    [Set] of that key or a [Get] that returns its entry. *)

Module history.
Import types cache.

Inductive op :=
| OpSet (k : string) (result : FlagResult) (ttl now : Z)
| OpGet (k : string) (now : Z)
| OpDelete (k : string)
| OpClear.

Definition step (c : MemoryCache) (o : op) : option MemoryCache :=
  match o with
  | OpSet k result ttl now => Set_ c k result ttl now
  | OpGet k now => Some (after (Get c k now))
  | OpDelete k => Some (Delete c k)
  | OpClear => Some (Clear c)
  end.

Record ghost := mkGhost {
  calls : nat;
  born : gmap string nat;
  lastUse : gmap string nat
}.

Definition ghost0 : ghost := mkGhost 0 ∅ ∅.

Definition note (c : MemoryCache) (o : op) (g : ghost) : ghost :=
  let n := calls g in
  match o with
  | OpSet k _ _ _ =>
      match items c !! k with
      | Some _ => mkGhost (S n) (born g) (<[k := n]> (lastUse g))
      | None => mkGhost (S n) (<[k := n]> (born g)) (<[k := n]> (lastUse g))
      end
  | OpGet k now =>
      if found (Get c k now)
      then mkGhost (S n) (born g) (<[k := n]> (lastUse g))
      else mkGhost (S n) (born g) (lastUse g)
  | _ => mkGhost (S n) (born g) (lastUse g)
  end.

(** Running a history from a cache; [None] when some call never returns. *)
Fixpoint run (c : MemoryCache) (g : ghost) (ops : list op)
    : option (MemoryCache * ghost) :=
  match ops with
  | [] => Some (c, g)
  | o :: ops' =>
      match step c o with
      | None => None
      | Some c' => run c' (note c o g) ops'
      end
  end.

(** [a] was used strictly more recently than [b]. *)
Definition fresher (g : ghost) (a b : string) : Prop :=
  ∃ sa sb, lastUse g !! a = Some sa ∧ lastUse g !! b = Some sb ∧ (sb < sa)%nat.

(** [k] has not been used since the call that inserted it. *)
Definition untouched (g : ghost) (k : string) : Prop :=
  ∃ n, born g !! k = Some n ∧ lastUse g !! k = Some n.

Definition bornBefore (g : ghost) (a b : string) : Prop :=
  ∃ na nb, born g !! a = Some na ∧ born g !! b = Some nb ∧ (na < nb)%nat.

End history.

(** ** Scenarios

    Concrete environments and worlds on which the properties below are
    exercised. *)

Module scenario.
Import errors types metrics wire runtime httpclient evaluator.

(** A body that parses, as an error object and as a result. *)
Definition bodyOf {R} (result : R) : Body R :=
  mkBody (Some (mkAPIError EmptyString EmptyString EmptyString))
    (Some (mkAPIResponse false None)) (inr result).

(** An empty body. *)
Definition noBody {R} : Body R := mkBody None None (inl "unexpected end").

(** The clock advances one millisecond per reading, the caller never
    cancels, the random source draws one half, maps are visited in the
    order of their key list. *)
Definition scripted
    (flag : nat → EvaluateFlagRequest → Exchange EvaluateFlagResponse)
    (batch : nat → BatchEvaluateFlagsRequest
             → Exchange BatchEvaluateFlagsResponse) : Env :=
  mkEnv (λ n, Z.of_nat n * GoTime.millisecond) flag batch (λ _, None)
    (λ _, 1 # 2)%Q (λ l, l).

Definition flagOn : EvaluateFlagResponse :=
  mkEvaluateFlagResponse true "f" "u1" "2026-01-01T00:00:00Z".

(** Every request is answered 200; a single flag is enabled, a batch
    reports flags [a] (enabled) and [c] (disabled) and omits the rest. *)
Definition healthy : Env :=
  scripted
    (λ _ _, Response 200 (bodyOf flagOn))
    (λ _ _, Response 200
              (bodyOf (mkBatchEvaluateFlagsResponse
                         (<["a" := mkEvaluateFlagResponse true "a" "u1"
                                     EmptyString]>
                            (<["c" := mkEvaluateFlagResponse false "c" "u1"
                                        EmptyString]> ∅))))).

(** Every request is answered 502 with an empty body. *)
Definition failing : Env :=
  scripted (λ _ _, Response 502 noBody) (λ _ _, Response 502 noBody).

(** An open client on an empty memory cache of capacity 10 with a TTL of
    five minutes. *)
Definition world0 : World :=
  mkWorld
    (manager.mkCacheManager
       (manager.OfMemoryCache (cache.NewMemoryCache 10 (5 * GoTime.minute)))
       (manager.mkCacheConfig (5 * GoTime.minute) 10 false EmptyString "LRU"))
    (persistent.mkDisk ∅ []) NewMetricsCollector false 0 0 [] [].

Definition theEvaluator : Evaluator :=
  mkEvaluator (mkHTTPClient "http://localhost:8080" "key" 3) (mkConfig "prod").

Definition theClient : variably.VariablyClient :=
  variably.mkVariablyClient theEvaluator.

Definition user1 : UserContext := mkUserContext "u1" 1.

(** A persistent cache over an empty disk, and a load whose clock readings
    all fall at one second. *)
Definition store0 : persistent.PersistentCache :=
  persistent.mkPersistentCache
    (cache.NewMemoryCache 10 (5 * GoTime.minute)) "cache.json".

Definition disk0 : persistent.Disk := persistent.mkDisk ∅ [].

Definition loadAtOneSecond : persistent.LoadClock :=
  persistent.mkLoadClock GoTime.second (λ _, GoTime.second)
    (λ _, GoTime.second).

(** Write [result] under the key [a] with a TTL of one minute at instant
    0, start a fresh store on the same path, and read the value it holds
    under [a]. *)
Definition reloadedValue (result : FlagResult) : option FlagResult :=
  match persistent.Set_ store0 "a" result GoTime.minute 0 disk0 with
  | Some (_, d1) =>
      match persistent.NewPersistentCache 10 (5 * GoTime.minute) "cache.json"
              (λ l, l) loadAtOneSecond d1 with
      | Some fresh =>
          cache.value <$> cache.items (persistent.memoryCache fresh) !! "a"
      | None => None
      end
  | None => None
  end.

(** A result that carries an error. *)
Definition failedResult : FlagResult :=
  mkFlagResult "a" (VBool true) "error_fallback" EmptyString EmptyString
    (Some (errorString "boom")) 0 false.

(** The value a call returns, if it returns. *)
Definition valueOf {A} (o : Outcome A) : option A :=
  match o with
  | Returns a _ => Some a
  | _ => None
  end.

End scenario.

(** ** Predicates of the properties

    What the statements below say about caches, histories and worlds. *)

Module predicates.
Import errors types cache persistent manager metrics wire runtime httpclient.
Import history.

(** The list and the map hold the same keys, each once. *)
Record wf (c : MemoryCache) : Prop := mkWf {
  wf_nodup : NoDup (lruList c);
  wf_dom : ∀ k, k ∈ lruList c ↔ is_Some (items c !! k)
}.

(** The list [l] is in order of last use under the bookkeeping [g]. *)
Record ordered (l : list string) (g : ghost) : Prop := mkOrdered {
  ord_sorted : StronglySorted (fresher g) l;
  ord_stamped : ∀ k, k ∈ l → is_Some (lastUse g !! k);
  ord_bound : ∀ k s, lastUse g !! k = Some s → (s < calls g)%nat
}.

(** Exchange [i] of the request [body] on [path] ends in the error
    [err]. *)
Definition failsWith {Req R} (c : HTTPClient)
    (api : Env → nat → Req → Exchange R) (path : string) (body : Req)
    (E : Env) (i : nat) (err : error) : Prop :=
  settle (baseURL c +:+ path) (api E i body) = inl err.

(** The memory cache of a world. *)
Definition mem (w : World) : MemoryCache := memoryOf (cacheManager w).

(** Nothing fresh under the cache key [ck]: no entry, or an entry whose
    [expiration] is before some reading of the clock made so far. *)
Definition staleAt (E : Env) (w : World) (ck : string) : Prop :=
  match items (mem w) !! ck with
  | None => True
  | Some item => ∃ i, (i < reads w)%nat ∧ expiration item < clock E i
  end.

(** The cache is well formed and within a capacity that is not
    negative. *)
Definition cacheOK (cm : CacheManager) : Prop :=
  wf (memoryOf cm) ∧ 0 ≤ maxSize (memoryOf cm) ∧
  cache.Size (memoryOf cm) ≤ maxSize (memoryOf cm).

(** The world after one more reading of the clock. *)
Definition tick (w : World) : World :=
  mkWorld (cacheManager w) (disk w) (collector w) (closed w) (S (reads w))
    (exchanges w) (sleeps w) (spawnedDeletes w).

(** The three results [evaluateFlagsFromAPI] builds. *)
Definition fallbackResult (k : string) (err : error) (t : Z) : FlagResult :=
  mkFlagResult k VNil "error_fallback" EmptyString EmptyString (Some err) t
    false.
Definition apiResult (k : string) (r : EvaluateFlagResponse) (t : Z)
    : FlagResult :=
  mkFlagResult k (VBool (Enabled r)) "api_evaluation" EmptyString EmptyString
    None t false.
Definition notFoundResult (k : string) (t : Z) : FlagResult :=
  mkFlagResult k VNil "not_found" EmptyString EmptyString
    (Some (errorString "flag not found in response")) t false.

(** Between two worlds only the clock was read. *)
Definition timeOnly (w w' : World) : Prop :=
  cacheManager w' = cacheManager w ∧ disk w' = disk w ∧
  closed w' = closed w ∧ exchanges w' = exchanges w ∧
  (reads w ≤ reads w')%nat.

(** The instant the reloaded entry of [k] expires: the saved instant,
    later by the time that passed between the two clock readings of the
    load; or, when [time.Until] reads the clock at the very instant of
    expiry, a whole default TTL after the second reading. *)
Definition reloadedExpiration (clk : LoadClock) (defaultTTL : Z) (k : string)
    (saved : Z) : Z :=
  if bool_decide (until_now clk k = saved)
  then set_now clk k + defaultTTL
  else saved + (set_now clk k - until_now clk k).

End predicates.

(** ** errors.go: the text of an error *)

Module errtext.
Import errors.

(** [SDKError.Error] *)
Definition SDKError_Error (e : SDKError) : string :=
  match Cause e with
  | Some cause =>
      Type_ e +:+ ": " +:+ Message e +:+ " (caused by: " +:+ cause +:+ ")"
  | None => Type_ e +:+ ": " +:+ Message e
  end.

(** [err.Error()]: the typed errors embed an [SDKError] and inherit its
    method; the other errors carry their text. *)
Definition Error_ (err : error) : string :=
  match err with
  | NetworkError e _ _ | AuthenticationError e | ValidationError e _
  | RateLimitError e _ | TimeoutError e _ | CacheError e _
  | ConfigError e _ => SDKError_Error e
  | errorString s => s
  end.

End errtext.

(** ** config.go *)

Module config.
Import errors manager.

Record PollingConfig := mkPollingConfig {
  Enabled : bool;
  Interval : Z;
  Jitter : Z
}.

Record LogConfig := mkLogConfig {
  Level : string;
  Format : string;
  Output : string
}.

(** [Config], without its custom [Logger]. *)
Record Config := mkConfig {
  APIKey : string;
  BaseURL : string;
  Environment : string;
  Timeout : Z;
  RetryAttempts : Z;
  MaxCacheSize : Z;
  EnableAnalytics : bool;
  EnableOfflineMode : bool;
  EnableRealTimeSync : bool;
  cacheConfig : CacheConfig;
  pollingConfig : PollingConfig;
  logConfig : LogConfig
}.

Definition DefaultConfig : Config :=
  mkConfig EmptyString "http://localhost:8080" "development"
    (5 * GoTime.second) 3 1000 true true false
    (mkCacheConfig (5 * GoTime.minute) 1000 false EmptyString "LRU")
    (mkPollingConfig false (30 * GoTime.second) (5 * GoTime.second))
    (mkLogConfig "info" "text" "stdout").

(** The three map literals of [Validate], as the sets of their keys. *)
Definition validEvictionPolicies (s : string) : bool :=
  String.eqb s "LRU" || String.eqb s "LFU" || String.eqb s "TTL".
Definition validLogLevels (s : string) : bool :=
  String.eqb s "debug" || String.eqb s "info" || String.eqb s "warn"
  || String.eqb s "error".
Definition validLogFormats (s : string) : bool :=
  String.eqb s "json" || String.eqb s "text".

(** [Validate] returns an error or nil, and may write to the
    configuration it is called on: the result is the pair of the two. *)
Definition Validate (c : Config) : option error * Config :=
  if String.eqb (APIKey c) EmptyString then
    (Some (errorString "API key is required"), c)
  else if String.eqb (BaseURL c) EmptyString then
    (Some (errorString "base URL is required"), c)
  else if String.eqb (Environment c) EmptyString then
    (Some (errorString "environment is required"), c)
  else if bool_decide (Timeout c ≤ 0) then
    (Some (errorString "timeout must be greater than 0"), c)
  else if bool_decide (RetryAttempts c < 0) then
    (Some (errorString "retry attempts must be non-negative"), c)
  else
    let cc := cacheConfig c in
    let lc := logConfig c in
    (None,
     mkConfig (APIKey c) (BaseURL c) (Environment c) (Timeout c)
       (RetryAttempts c) (MaxCacheSize c) (EnableAnalytics c)
       (EnableOfflineMode c) (EnableRealTimeSync c)
       (mkCacheConfig
          (if bool_decide (TTL cc ≤ 0) then 5 * GoTime.minute else TTL cc)
          (if bool_decide (MaxSize cc ≤ 0) then 1000 else MaxSize cc)
          (EnablePersistence cc) (PersistencePath cc)
          (if validEvictionPolicies (EvictionPolicy cc)
           then EvictionPolicy cc else "LRU"))
       (pollingConfig c)
       (mkLogConfig
          (if validLogLevels (Level lc) then Level lc else "info")
          (if validLogFormats (Format lc) then Format lc else "text")
          (Output lc))).

(** [LoadConfigFromEnv].  [getenv] is [os.Getenv] (the empty string for a
    variable that is not set); [ParseDuration] is [time.ParseDuration],
    [None] when it returns an error. *)
Definition LoadConfigFromEnv (getenv : string → string)
    (ParseDuration : string → option Z) : Config :=
  let config := DefaultConfig in
  let orDefault (name : string) (current : string) : string :=
    if String.eqb (getenv name) EmptyString then current else getenv name in
  let durationOr (name : string) (current : Z) : Z :=
    if String.eqb (getenv name) EmptyString then current
    else match ParseDuration (getenv name) with
         | Some d => d
         | None => current
         end in
  mkConfig
    (orDefault "VARIABLY_API_KEY" (APIKey config))
    (orDefault "VARIABLY_BASE_URL" (BaseURL config))
    (orDefault "VARIABLY_ENVIRONMENT" (Environment config))
    (durationOr "VARIABLY_TIMEOUT" (Timeout config))
    (RetryAttempts config) (MaxCacheSize config) (EnableAnalytics config)
    (EnableOfflineMode config) (EnableRealTimeSync config)
    (mkCacheConfig
       (durationOr "VARIABLY_CACHE_TTL" (TTL (cacheConfig config)))
       (MaxSize (cacheConfig config))
       (EnablePersistence (cacheConfig config))
       (PersistencePath (cacheConfig config))
       (EvictionPolicy (cacheConfig config)))
    (pollingConfig config)
    (mkLogConfig
       (orDefault "VARIABLY_LOG_LEVEL" (Level (logConfig config)))
       (Format (logConfig config)) (Output (logConfig config))).

End config.

(** ** metrics.go: the rest of the collector

    [MetricsCollector] as a whole: the counters of [metrics] above, the two
    counters of the gate and event paths, the start time and the two cached
    rates. *)

Module collector.
Import GoInt metrics.

Record Collector := mkCollector {
  counters : MetricsCollector;
  gatesEvaluated : Z;
  eventsTracked : Z;
  startTime : Z;
  lastErrorRate : spec_float;
  lastCacheHitRate : spec_float
}.

Record Metrics := mkMetrics {
  APICalls : Z;
  CacheHits : Z;
  CacheMisses : Z;
  ErrorCount : Z;
  AverageLatency : Z;
  TotalLatency : Z;
  ErrorRate : spec_float;
  CacheHitRate : spec_float;
  LastUpdated : Z;
  StartTime : Z;
  FlagsEvaluated : Z;
  GatesEvaluated : Z;
  EventsTracked : Z
}.

(** The float64 zero, and the float64 operations of the rates. *)
Definition float64_zero : spec_float := S754_zero false.
Definition float64_div (x y : spec_float) : spec_float := SFdiv 53 1024 x y.
Definition float64_mul (x y : spec_float) : spec_float := SFmul 53 1024 x y.

Definition NewMetricsCollector (now : Z) : Collector :=
  mkCollector metrics.NewMetricsCollector 0 0 now float64_zero float64_zero.

Definition RecordGateEvaluation (gatesEvaluated : Z) : Z :=
  wrap64 (gatesEvaluated + 1).

Definition RecordEventTracked (eventsTracked : Z) : Z :=
  wrap64 (eventsTracked + 1).

(** The calls that count, as values. *)
Inductive Record_ :=
| APICall (latency : Z) (success : bool)
| CacheHit
| CacheMiss
| FlagEvaluation
| GateEvaluation
| EventTracked.

Definition record (m : Collector) (r : Record_) : Collector :=
  let onCounters f :=
    mkCollector (f (counters m)) (gatesEvaluated m) (eventsTracked m)
      (startTime m) (lastErrorRate m) (lastCacheHitRate m) in
  match r with
  | APICall latency success => onCounters (RecordAPICall latency success)
  | CacheHit => onCounters RecordCacheHit
  | CacheMiss => onCounters RecordCacheMiss
  | FlagEvaluation => onCounters RecordFlagEvaluation
  | GateEvaluation =>
      mkCollector (counters m) (RecordGateEvaluation (gatesEvaluated m))
        (eventsTracked m) (startTime m) (lastErrorRate m)
        (lastCacheHitRate m)
  | EventTracked =>
      mkCollector (counters m) (gatesEvaluated m)
        (RecordEventTracked (eventsTracked m)) (startTime m)
        (lastErrorRate m) (lastCacheHitRate m)
  end.

(** [GetMetrics]: the snapshot, and the collector with its cached rates
    updated. *)
Definition GetMetrics (m : Collector) (now : Z) : Metrics * Collector :=
  let apiCalls := apiCalls (counters m) in
  let cacheHits := cacheHits (counters m) in
  let cacheMisses := cacheMisses (counters m) in
  let errorCount := errorCount (counters m) in
  let totalLatency := totalLatency (counters m) in
  let averageLatency :=
    if bool_decide (0 < apiCalls) then Z.quot totalLatency apiCalls else 0 in
  let errorRate :=
    if bool_decide (0 < apiCalls)
    then float64_mul
           (float64_div (float64_of_int errorCount) (float64_of_int apiCalls))
           (float64_of_int 100)
    else float64_zero in
  let totalCacheOps := wrap64 (cacheHits + cacheMisses) in
  let cacheHitRate :=
    if bool_decide (0 < totalCacheOps)
    then float64_mul
           (float64_div (float64_of_int cacheHits)
              (float64_of_int totalCacheOps))
           (float64_of_int 100)
    else float64_zero in
  (mkMetrics apiCalls cacheHits cacheMisses errorCount averageLatency
     totalLatency errorRate cacheHitRate now (startTime m)
     (flagsEvaluated (counters m)) (gatesEvaluated m) (eventsTracked m),
   mkCollector (counters m) (gatesEvaluated m) (eventsTracked m)
     (startTime m) errorRate cacheHitRate).

Definition Reset (m : Collector) (now : Z) : Collector :=
  mkCollector (mkMetricsCollector 0 0 0 0 0 0) 0 0 now (lastErrorRate m)
    (lastCacheHitRate m).

Definition GetErrorRate (m : Collector) : spec_float := lastErrorRate m.
Definition GetCacheHitRate (m : Collector) : spec_float := lastCacheHitRate m.

End collector.

(** ** types.go: events *)

Module events.
Import types.

Record Event := mkEvent {
  Name : string;
  ev_UserID : string;
  SessionID : string;
  Properties : gmap string GoValue;
  ev_Timestamp : Z;
  Context : UserContext
}.

(** [event.Timestamp = t] *)
Definition withTimestamp (event : Event) (t : Z) : Event :=
  mkEvent (Name event) (ev_UserID event) (SessionID event)
    (Properties event) t (Context event).

End events.

(** ** mock.go: the mock client *)

Module mock.
Import types collector events.

Record MockClient := mkMockClient {
  flagValues : gmap string GoValue;
  gateValues : gmap string bool;
  trackedEvents : list Event;
  metrics : Collector
}.

Definition NewMockClient (now : Z) : MockClient :=
  mkMockClient ∅ ∅ [] (NewMetricsCollector now).

Definition SetFlagValue (m : MockClient) (flagKey : string) (value : GoValue)
    : MockClient :=
  mkMockClient (<[flagKey := value]> (flagValues m)) (gateValues m)
    (trackedEvents m) (metrics m).

Definition SetGateValue (m : MockClient) (gateKey : string) (value : bool)
    : MockClient :=
  mkMockClient (flagValues m) (<[gateKey := value]> (gateValues m))
    (trackedEvents m) (metrics m).

Definition GetTrackedEvents (m : MockClient) : list Event := trackedEvents m.

Definition ClearTrackedEvents (m : MockClient) : MockClient :=
  mkMockClient (flagValues m) (gateValues m) [] (metrics m).

Definition Reset (m : MockClient) (now : Z) : MockClient :=
  mkMockClient ∅ ∅ [] (collector.Reset (metrics m) now).

Definition withMetrics (m : MockClient) (c : Collector) : MockClient :=
  mkMockClient (flagValues m) (gateValues m) (trackedEvents m) c.

Definition EvaluateFlag (m : MockClient) (now : Z) (flagKey : string)
    (defaultValue : GoValue) : FlagResult * MockClient :=
  let m' := withMetrics m (record (metrics m) FlagEvaluation) in
  match flagValues m !! flagKey with
  | Some value =>
      (mkFlagResult flagKey value "mock_rule" EmptyString EmptyString None
         now false, m')
  | None =>
      (mkFlagResult flagKey defaultValue "default" EmptyString EmptyString
         None now false, m')
  end.

Definition EvaluateGate (m : MockClient) (gateKey : string)
    : bool * MockClient :=
  let m' := withMetrics m (record (metrics m) GateEvaluation) in
  match gateValues m !! gateKey with
  | Some value => (value, m')
  | None => (false, m')
  end.

Definition Track (m : MockClient) (now : Z) (event : Event) : MockClient :=
  let event :=
    if GoTime.IsZero (ev_Timestamp event)
    then withTimestamp event now
    else event in
  mkMockClient (flagValues m) (gateValues m) (trackedEvents m ++ [event])
    (record (metrics m) EventTracked).

(** [TrackBatch]; [clock i] is the instant the [i]-th event of the list is
    tracked at.  [Track] never returns an error, so the loop runs to its
    end. *)
Fixpoint trackEach (m : MockClient) (clock : nat → Z) (i : nat)
    (events : list Event) : MockClient :=
  match events with
  | [] => m
  | event :: rest => trackEach (Track m (clock i) event) clock (S i) rest
  end.

Definition TrackBatch (m : MockClient) (clock : nat → Z)
    (events : list Event) : MockClient :=
  trackEach m clock 0 events.

End mock.

(** ** Feature gates: client.go, evaluator.go, variably.go

    The gate path of the three files.  The answers of the remote service
    to gate requests are a [GateService]; the counter [gatesEvaluated] of
    the collector is passed in and out of the calls that update it. *)

Module gates.
Import errors types metrics wire runtime httpclient evaluator.

Record EvaluateGateRequest := mkEvaluateGateRequest {
  req_GateKey : string;
  gate_Context : UserContext
}.

Record EvaluateGateResponse := mkEvaluateGateResponse {
  gate_Enabled : bool;
  resp_GateKey : string;
  gate_UserID : string;
  AccessGranted : bool;
  gate_Timestamp : string
}.

Definition zeroEvaluateGateResponse : EvaluateGateResponse :=
  mkEvaluateGateResponse false EmptyString EmptyString false EmptyString.

Record BatchEvaluateGatesRequest := mkBatchEvaluateGatesRequest {
  req_GateKeys : list string;
  req_UserID : string;
  gates_Environment : string;
  req_UserContext : UserContext
}.

Record BatchEvaluateGatesResponse := mkBatchEvaluateGatesResponse {
  gate_Results : gmap string EvaluateGateResponse
}.

Definition zeroBatchEvaluateGatesResponse : BatchEvaluateGatesResponse :=
  mkBatchEvaluateGatesResponse ∅.

Record GateService := mkGateService {
  gateAPI : nat → EvaluateGateRequest → Exchange EvaluateGateResponse;
  batchGateAPI : nat → BatchEvaluateGatesRequest
                 → Exchange BatchEvaluateGatesResponse
}.

(** client.go *)
Module http.

Definition EvaluateGate (c : HTTPClient) (svc : GateService) (gateKey : string)
    (userContext : UserContext) (environment : string)
    : M (error + EvaluateGateResponse) :=
  makeRequest c (λ _, gateAPI svc) "POST" "/api/v1/sdk/feature-gates/evaluate"
    (mkEvaluateGateRequest gateKey userContext) zeroEvaluateGateResponse.

Definition EvaluateGates (c : HTTPClient) (svc : GateService)
    (gateKeys : list string) (userContext : UserContext)
    (environment : string) : M (error + BatchEvaluateGatesResponse) :=
  makeRequest c (λ _, batchGateAPI svc) "POST"
    "/api/v1/sdk/feature-gates/evaluate/batch"
    (mkBatchEvaluateGatesRequest gateKeys (UserID userContext) environment
       userContext)
    zeroBatchEvaluateGatesResponse.

End http.

(** evaluator.go *)
Module eval.

Definition generateGateCacheKey (e : Evaluator) (gateKey : string)
    (userContext : UserContext) : string :=
  "gate:" +:+ gateKey +:+ ":user:" +:+ UserID userContext
  +:+ ":env:" +:+ Environment (config e).

(** [cachedResult.Value.(bool)] *)
Definition asBool (v : GoValue) : option bool :=
  match v with
  | VBool value => Some value
  | _ => None
  end.

(** The result [EvaluateGate] and [EvaluateGates] cache for a gate. *)
Definition gateResult (gateKey : string) (enabled : bool) (t : Z)
    : FlagResult :=
  mkFlagResult gateKey (VBool enabled) "api_evaluation" EmptyString
    EmptyString None t false.

Definition EvaluateGate (e : Evaluator) (svc : GateService) (gateKey : string)
    (userContext : UserContext) (gatesEvaluated : Z) : M (bool * Z) :=
  let gatesEvaluated := collector.RecordGateEvaluation gatesEvaluated in
  userContext ← stamp userContext;
  let cacheKey := generateGateCacheKey e gateKey userContext in
  cached ← cacheGet cacheKey;
  served ← (if (cached.2 : bool)
            then record RecordCacheHit;; mret (asBool (Value cached.1))
            else mret None);
  match served with
  | Some value => mret (value, gatesEvaluated)
  | None =>
      record RecordCacheMiss;;
      res ← http.EvaluateGate (httpClient e) svc gateKey userContext
              (Environment (config e));
      match res with
      | inl err => mret (false, gatesEvaluated)
      | inr response =>
          t ← now;
          cacheSet cacheKey (gateResult gateKey (gate_Enabled response) t) 0;;
          mret (gate_Enabled response, gatesEvaluated)
      end
  end.

(** One round of the loop "Check cache for each gate". *)
Definition checkGateCache (e : Evaluator) (userContext : UserContext)
    (acc : gmap string bool * list string * Z) (gateKey : string)
    : M (gmap string bool * list string * Z) :=
  let gatesEvaluated := collector.RecordGateEvaluation acc.2 in
  cached ← cacheGet (generateGateCacheKey e gateKey userContext);
  if (cached.2 : bool) then
    record RecordCacheHit;;
    mret (<[gateKey := match asBool (Value cached.1) with
                       | Some value => value
                       | None => false
                       end]> acc.1.1,
          acc.1.2, gatesEvaluated)
  else
    record RecordCacheMiss;;
    mret (acc.1.1, (acc.1.2 ++ [gateKey])%list, gatesEvaluated).

(** One round of the loop "Process batch results and cache them". *)
Definition storeGate (e : Evaluator) (userContext : UserContext)
    (results : gmap string bool) (entry : string * EvaluateGateResponse)
    : M (gmap string bool) :=
  let results := <[entry.1 := gate_Enabled entry.2]> results in
  t ← now;
  cacheSet (generateGateCacheKey e entry.1 userContext)
    (gateResult entry.1 (gate_Enabled entry.2) t) 0;;
  mret results.

Definition EvaluateGates (e : Evaluator) (svc : GateService)
    (gateKeys : list string) (userContext : UserContext)
    (gatesEvaluated : Z) : M (gmap string bool * Z) :=
  userContext ← stamp userContext;
  checked ← foldM (checkGateCache e userContext) (∅, [], gatesEvaluated)
              gateKeys;
  let results := checked.1.1 in
  let uncachedGates := checked.1.2 in
  let gatesEvaluated := checked.2 in
  if bool_decide (length uncachedGates = 0%nat)
  then mret (results, gatesEvaluated)
  else
    res ← http.EvaluateGates (httpClient e) svc uncachedGates userContext
            (Environment (config e));
    match res with
    | inl err =>
        mret (foldl (λ results gateKey, <[gateKey := false]> results)
                results uncachedGates,
              gatesEvaluated)
    | inr response =>
        entries ← rangeMap (gate_Results response);
        results ← foldM (storeGate e userContext) results entries;
        mret (results, gatesEvaluated)
    end.

End eval.

(** variably.go *)
Module api.
Import variably.

Definition EvaluateGate (c : VariablyClient) (svc : GateService)
    (gateKey : string) (userContext : UserContext) (gatesEvaluated : Z)
    : M (bool * Z) :=
  ensureNotClosed;;
  eval.EvaluateGate (evaluator c) svc gateKey userContext gatesEvaluated.

Definition EvaluateGates (c : VariablyClient) (svc : GateService)
    (gateKeys : list string) (userContext : UserContext)
    (gatesEvaluated : Z) : M (gmap string bool * Z) :=
  ensureNotClosed;;
  eval.EvaluateGates (evaluator c) svc gateKeys userContext gatesEvaluated.

End api.

End gates.

(** ** Event tracking: client.go, variably.go

    The answers of the remote service to event requests are an
    [EventService]; the counter [eventsTracked] of the collector is passed
    in and out of the calls that update it. *)

Module tracking.
Import errors types metrics wire runtime httpclient evaluator events.

Record TrackEventRequest := mkTrackEventRequest {
  tr_Name : string;
  tr_UserID : string;
  tr_Properties : gmap string GoValue;
  tr_Timestamp : Z
}.

Record BatchTrackEventsRequest := mkBatchTrackEventsRequest {
  Events : list TrackEventRequest
}.

Record EventService := mkEventService {
  eventAPI : nat → TrackEventRequest → Exchange unit;
  batchEventAPI : nat → BatchTrackEventsRequest → Exchange unit
}.

(** [makeRequest] with a nil [result]: [doRequest] skips the block
    "Parse successful response", so of the body of a response it reads
    the error object alone, and that for a status of 400 or more. *)
Definition unread (x : Exchange unit) : Exchange unit :=
  match x with
  | Response status respBody =>
      Response status (mkBody (asAPIError respBody) None (inr tt))
  | _ => x
  end.

Definition asError (res : error + unit) : option error :=
  match res with
  | inl err => Some err
  | inr _ => None
  end.

Definition toRequest (event : Event) : TrackEventRequest :=
  mkTrackEventRequest (Name event) (ev_UserID event) (Properties event)
    (ev_Timestamp event).

(** client.go *)
Module http.

Definition TrackEvent (c : HTTPClient) (svc : EventService) (event : Event)
    : M (option error) :=
  res ← makeRequest c (λ _ n req, unread (eventAPI svc n req)) "POST"
          "/api/v1/sdk/events" (toRequest event) tt;
  mret (asError res).

Definition TrackEvents (c : HTTPClient) (svc : EventService)
    (events : list Event) : M (option error) :=
  res ← makeRequest c (λ _ n req, unread (batchEventAPI svc n req)) "POST"
          "/api/v1/sdk/events/batch"
          (mkBatchTrackEventsRequest (toRequest <$> events)) tt;
  mret (asError res).

End http.

(** variably.go *)
Module api.
Import variably.

(** "Ensure event has timestamp" *)
Definition stampEvent (event : Event) : M Event :=
  if GoTime.IsZero (ev_Timestamp event)
  then t ← now; mret (withTimestamp event t)
  else mret event.

Definition Track (c : VariablyClient) (EnableAnalytics : bool)
    (svc : EventService) (event : Event) (eventsTracked : Z)
    : M (option error * Z) :=
  ensureNotClosed;;
  if negb EnableAnalytics then mret (None, eventsTracked)
  else
    event ← stampEvent event;
    let eventsTracked := collector.RecordEventTracked eventsTracked in
    err ← http.TrackEvent (httpClient (evaluator c)) svc event;
    mret (err, eventsTracked).

(** [TrackBatch] writes the timestamps into the caller's slice: the
    events as the call leaves them are part of the result. *)
Definition TrackBatch (c : VariablyClient) (EnableAnalytics : bool)
    (svc : EventService) (events : list Event) (eventsTracked : Z)
    : M (option error * list Event * Z) :=
  ensureNotClosed;;
  if negb EnableAnalytics then mret (None, events, eventsTracked)
  else
    events ← foldM (λ done event,
                      event ← stampEvent event;
                      mret (done ++ [event])%list)
               [] events;
    let eventsTracked :=
      foldl (λ n _, collector.RecordEventTracked n) eventsTracked events in
    err ← http.TrackEvents (httpClient (evaluator c)) svc events;
    mret (err, events, eventsTracked).

End api.

End tracking.

(** ** The life of a client: variably.go, evaluator.go *)

Module lifecycle.
Import errors types metrics wire runtime httpclient evaluator variably.
Import manager.

(** [e.cacheManager.Clear()] *)
Definition cacheClear : M unit :=
  λ _ w,
    let cleared := manager.Clear (cacheManager w) (disk w) in
    Returns tt
      (mkWorld cleared.1 cleared.2 (collector w) (closed w) (reads w)
         (exchanges w) (sleeps w) (spawnedDeletes w)).

(** evaluator.go *)
Module eval.

Definition RefreshCache (e : Evaluator) : M (option error) :=
  cacheClear;; mret None.

Definition ClearCache (e : Evaluator) : M (option error) :=
  RefreshCache e.

End eval.

(** [NewClient]: the client and the world it starts in; [None] when the
    construction never returns.  [config = None] is the nil pointer.  The
    logger is left out; the goroutines of [startBackgroundTasks] run after
    [NewClient] has returned, on the world given here. *)
Definition NewClient (cfg : option config.Config) (ord : GoMap.KeyOrder)
    (clk : persistent.LoadClock) (d : persistent.Disk)
    : option (error + VariablyClient * World) :=
  let cfg := default config.DefaultConfig cfg in
  match config.Validate cfg with
  | (Some err, _) =>
      Some (inl (NewConfigError "Invalid configuration" EmptyString
                   (Some (errtext.Error_ err))))
  | (None, cfg) =>
      match NewCacheManager (config.cacheConfig cfg) ord clk d with
      | None => None
      | Some cm =>
          Some (inr (mkVariablyClient
                       (mkEvaluator
                          (mkHTTPClient (config.BaseURL cfg)
                             (config.APIKey cfg) (config.RetryAttempts cfg))
                          (mkConfig (config.Environment cfg))),
                     mkWorld cm d NewMetricsCollector false 0 0 [] []))
      end
  end.

Definition NewClientFromEnv (getenv : string → string)
    (ParseDuration : string → option Z) (ord : GoMap.KeyOrder)
    (clk : persistent.LoadClock) (d : persistent.Disk)
    : option (error + VariablyClient * World) :=
  NewClient (Some (config.LoadConfigFromEnv getenv ParseDuration)) ord clk d.

Definition RefreshCache (c : VariablyClient) : M (option error) :=
  ensureNotClosed;; eval.RefreshCache (evaluator c).

Definition ClearCache (c : VariablyClient) : M (option error) :=
  ensureNotClosed;; eval.ClearCache (evaluator c).

Definition Close (c : VariablyClient) : M (option error) :=
  λ _ w,
    if closed w then Returns None w
    else Returns None
           (mkWorld (cacheManager w) (disk w) (collector w) true (reads w)
              (exchanges w) (sleeps w) (spawnedDeletes w)).

(** [Subscribe] and [Unsubscribe]; the map of subscriptions is passed in
    and out, [CB] is the type of the callbacks. *)
Definition Subscribe {CB : Type} (c : VariablyClient)
    (EnableRealTimeSync : bool) (flagKeys : list string) (callback : CB)
    (subscriptions : gmap string (list CB))
    : M (option error * gmap string (list CB)) :=
  ensureNotClosed;;
  if negb EnableRealTimeSync then
    mret (Some (NewConfigError "Real-time sync is disabled"
                  "EnableRealTimeSync" None),
          subscriptions)
  else
    mret (None,
          foldl (λ subs flagKey,
                   <[flagKey := (default [] (subs !! flagKey)
                                 ++ [callback])%list]> subs)
                subscriptions flagKeys).

Definition Unsubscribe {CB : Type} (c : VariablyClient)
    (flagKeys : list string) (subscriptions : gmap string (list CB))
    : M (option error * gmap string (list CB)) :=
  ensureNotClosed;;
  mret (None, foldl (λ subs flagKey, delete flagKey subs) subscriptions
                flagKeys).

End lifecycle.

(** ** Histories of the collector

    The calls that count, in the order they were made, and what a
    history holds of each kind. *)

Module tally.
Import collector.

(** The collector after the calls [rs], oldest first. *)
Definition after (m : Collector) (rs : list Record_) : Collector :=
  foldl record m rs.

Definition isAPICall (r : Record_) : bool :=
  match r with APICall _ _ => true | _ => false end.
Definition isFailure (r : Record_) : bool :=
  match r with APICall _ false => true | _ => false end.
Definition isCacheHit (r : Record_) : bool :=
  match r with CacheHit => true | _ => false end.
Definition isCacheMiss (r : Record_) : bool :=
  match r with CacheMiss => true | _ => false end.
Definition isFlagEvaluation (r : Record_) : bool :=
  match r with FlagEvaluation => true | _ => false end.
Definition isGateEvaluation (r : Record_) : bool :=
  match r with GateEvaluation => true | _ => false end.
Definition isEventTracked (r : Record_) : bool :=
  match r with EventTracked => true | _ => false end.

(** How many calls of the history satisfy [p]. *)
Definition count (p : Record_ → bool) (rs : list Record_) : Z :=
  Z.of_nat (length (List.filter p rs)).

End tally.

(** ** More scenarios

    Services, environments and worlds for the gate, event and retry
    paths. *)

Module examples.
Import errors types metrics wire runtime httpclient evaluator.
Import gates tracking.

(** The flag service answers 502 twice and 200 from then on. *)
Definition recovering : Env :=
  scenario.scripted
    (λ n _, if (n <? 2)%nat then Response 502 scenario.noBody
            else Response 200 (scenario.bodyOf scenario.flagOn))
    (λ _ _, Response 502 scenario.noBody).

(** The flag service answers 502; the caller cancels during the first
    wait. *)
Definition cancelling : Env :=
  mkEnv (λ n, Z.of_nat n * GoTime.millisecond)
    (λ _ _, Response 502 scenario.noBody)
    (λ _ _, Response 502 scenario.noBody)
    (λ n, if (n =? 1)%nat then Some (errorString "context canceled")
          else None)
    (λ _, 1 # 2)%Q (λ l, l).

(** A healthy flag service under a clock that stands at one second. *)
Definition stopped : Env :=
  mkEnv (λ _, GoTime.second)
    (λ _ _, Response 200 (scenario.bodyOf scenario.flagOn))
    (λ _ _, Response 502 scenario.noBody)
    (λ _, None) (λ _, 1 # 2)%Q (λ l, l).

(** The world of [scenario.world0] with the flag [f] of user [u1] in the
    cache until the tenth second. *)
Definition cachedResult : FlagResult :=
  mkFlagResult "f" (VBool true) "api_evaluation" EmptyString EmptyString None
    0 false.

Definition cachedWorld : World :=
  mkWorld
    (manager.mkCacheManager
       (manager.OfMemoryCache
          (cache.mkMemoryCache 10
             {["flag:f:user:u1:env:prod"
               := cache.mkCacheItem "flag:f:user:u1:env:prod" cachedResult
                    (10 * GoTime.second)]}
             ["flag:f:user:u1:env:prod"] (5 * GoTime.minute)))
       (manager.mkCacheConfig (5 * GoTime.minute) 10 false EmptyString "LRU"))
    (persistent.mkDisk ∅ []) NewMetricsCollector false 0 0 [] [].

(** A client that was built with a negative number of retries. *)
Definition hasty : Evaluator :=
  mkEvaluator (mkHTTPClient "http://localhost:8080" "key" (-1))
    (mkConfig "prod").

Definition gateOn : EvaluateGateResponse :=
  mkEvaluateGateResponse true "g" "u1" true "2026-01-01T00:00:00Z".

(** Every gate request is answered 200: a single gate is open, a batch
    reports the gate [g] (open) and omits the rest. *)
Definition openGates : GateService :=
  mkGateService
    (λ _ _, Response 200 (scenario.bodyOf gateOn))
    (λ _ _, Response 200
              (scenario.bodyOf
                 (mkBatchEvaluateGatesResponse {["g" := gateOn]}))).

(** Every gate request is answered 502 with an empty body. *)
Definition failingGates : GateService :=
  mkGateService (λ _ _, Response 502 scenario.noBody)
    (λ _ _, Response 502 scenario.noBody).

(** Every event request is answered 202 with an empty body. *)
Definition acceptingEvents : EventService :=
  mkEventService (λ _ _, Response 202 scenario.noBody)
    (λ _ _, Response 202 scenario.noBody).

Definition signup : events.Event :=
  events.mkEvent "signup" "u1" EmptyString ∅ 0 scenario.user1.

End examples.

(** * Properties *)

Module GoIntFacts.
Import GoInt.

Lemma wrap64_small z : min_int64 ≤ z ≤ max_int64 → wrap64 z = z.
Proof.
  unfold wrap64, min_int64, max_int64. intros Hz.
  rewrite Z.mod_small; lia.
Qed.

End GoIntFacts.

(** ** The cache: representation invariant and eviction *)

Module CacheFacts.
Import types cache history predicates.

Lemma size_keys (l : list string) (m : gmap string cacheItem) :
  NoDup l → (∀ k, k ∈ l ↔ is_Some (m !! k)) → size m = length l.
Proof.
  intros Hnd Hdom.
  rewrite <- (size_dom (D := gset string)).
  replace (dom m) with (list_to_set l : gset string).
  - by apply size_list_to_set.
  - apply set_eq. intros k. rewrite elem_of_list_to_set, elem_of_dom. apply Hdom.
Qed.

Lemma wf_size c : wf c → size (items c) = length (lruList c).
Proof. intros [Hnd Hdom]. by apply size_keys. Qed.

Lemma wf_new cap ttl0 : wf (NewMemoryCache cap ttl0).
Proof.
  split; simpl; [constructor|].
  intros k. rewrite lookup_empty. split; [by intros ?%elem_of_nil | by intros [? ?]].
Qed.

Lemma elem_of_Remove k x l : x ∈ Remove k l ↔ x ≠ k ∧ x ∈ l.
Proof. unfold Remove. by rewrite list_elem_of_filter. Qed.

Lemma Remove_absent k l : k ∉ l → Remove k l = l.
Proof.
  intros Hk. unfold Remove. induction l as [|x l IH]; [done|].
  apply not_elem_of_cons in Hk as [Hne Hk].
  rewrite filter_cons_True by done. by rewrite IH.
Qed.

Lemma NoDup_MoveToFront k l : NoDup l → NoDup (MoveToFront k l).
Proof.
  intros Hnd. unfold MoveToFront. constructor.
  - rewrite elem_of_Remove. by intros [? _].
  - by apply NoDup_filter.
Qed.

Lemma elem_of_MoveToFront k x l :
  k ∈ l → x ∈ MoveToFront k l ↔ x ∈ l.
Proof.
  intros Hk. unfold MoveToFront. rewrite elem_of_cons, elem_of_Remove.
  destruct (decide (x = k)) as [->|]; tauto.
Qed.

(** What the eviction loop computes on a well-formed cache: it drops
    elements from the back end until [cap] are left. *)
Lemma evictLoop_spec cap : 0 ≤ cap → ∀ back (its : gmap string cacheItem),
  NoDup back → (∀ k, k ∈ back ↔ is_Some (its !! k)) →
  ∃ its', evictLoop cap back its
          = Some (drop (length back - Z.to_nat cap) back, its') ∧
    ∀ k, its' !! k
         = if bool_decide (k ∈ drop (length back - Z.to_nat cap) back)
           then its !! k else None.
Proof.
  intros Hcap back. induction back as [|x back IH]; intros its Hnd Hdom.
  - assert (size its = 0%nat) as Hsz by (by rewrite (size_keys [] its)).
    simpl. rewrite Hsz, bool_decide_false by (simpl; lia).
    exists its. split; [done|]. intros k.
    apply eq_None_not_Some. rewrite <- Hdom. apply not_elem_of_nil.
  - assert (size its = S (length back)) as Hsz
      by (by rewrite (size_keys (x :: back) its)).
    apply NoDup_cons in Hnd as [Hx Hnd].
    simpl evictLoop. rewrite Hsz. case_bool_decide as Hover.
    + destruct (IH (delete x its) Hnd) as (its' & Hrun & Hlook).
      { intros k. rewrite lookup_delete_is_Some, <- Hdom, elem_of_cons.
        split; [intros Hk; split; [congruence | by right] | by intros [? [?|?]]]. }
      replace (length (x :: back) - Z.to_nat cap)%nat
        with (S (length back - Z.to_nat cap)) by (simpl; lia).
      exists its'. split; [done|]. intros k. rewrite Hlook. simpl drop.
      case_bool_decide as Hk; [|done].
      apply lookup_delete_ne. intros ->. apply Hx.
      by apply (subseteq_drop _ _ _ Hk).
    + replace (length (x :: back) - Z.to_nat cap)%nat with 0%nat
        by (simpl; lia).
      exists its. split; [done|]. intros k. simpl drop.
      case_bool_decide as Hk; [done|].
      apply eq_None_not_Some. by rewrite <- Hdom.
Qed.

Lemma Set_new_spec c k result ttl now :
  wf c → 0 ≤ maxSize c → items c !! k = None →
  ∃ c', Set_ c k result ttl now = Some c' ∧
    maxSize c' = maxSize c ∧ defaultTTL c' = defaultTTL c ∧
    lruList c' = take (Z.to_nat (maxSize c)) (k :: lruList c) ∧
    ∀ k', items c' !! k'
          = if bool_decide (k' ∈ lruList c')
            then <[k := mkCacheItem k result
                          (now + if bool_decide (ttl = 0) then defaultTTL c
                                 else ttl)]> (items c) !! k'
            else None.
Proof.
  intros [Hnd Hdom] Hcap Hk. unfold Set_, evictIfNeeded. rewrite Hk. simpl.
  set (item := mkCacheItem _ _ _).
  assert (k ∉ lruList c) as Hnotin.
  { rewrite Hdom, Hk. by intros [? ?]. }
  destruct (evictLoop_spec (maxSize c) Hcap (reverse (k :: lruList c))
              (<[k := item]> (items c))) as (its' & Hrun & Hlook).
  { rewrite reverse_Permutation. by constructor. }
  { intros k'. rewrite elem_of_reverse, elem_of_cons, lookup_insert_is_Some, Hdom.
    destruct (decide (k = k')) as [->|]; [tauto|].
    split; [intros [?|?]; [congruence | by right] | intros [?|[_ ?]]; [congruence | by right]]. }
  unfold PushFront. rewrite Hrun. eexists. split; [done|].
  simpl. split; [done|]. split; [done|].
  assert (reverse (drop (length (reverse (k :: lruList c)) - Z.to_nat (maxSize c))
                        (reverse (k :: lruList c)))
          = take (Z.to_nat (maxSize c)) (k :: lruList c)) as Hlist.
  { rewrite reverse_drop, reverse_involutive, length_reverse.
    destruct (decide (length (k :: lruList c) ≤ Z.to_nat (maxSize c))%nat).
    - rewrite !take_ge; [done | lia | lia].
    - f_equal. lia. }
  split; [exact Hlist|]. intros k'. rewrite Hlook.
  rewrite (bool_decide_ext _ _ (elem_of_reverse k' _)). done.
Qed.

Lemma Set_existing_spec c k result ttl now item :
  items c !! k = Some item →
  Set_ c k result ttl now
  = Some (mkMemoryCache (maxSize c)
            (<[k := mkCacheItem (key item) result
                      (now + if bool_decide (ttl = 0) then defaultTTL c
                             else ttl)]> (items c))
            (MoveToFront k (lruList c)) (defaultTTL c)).
Proof. intros Hk. unfold Set_. by rewrite Hk. Qed.

(** Every call keeps the representation invariant and the capacity. *)
Lemma step_wf c o :
  wf c → 0 ≤ maxSize c → Size c ≤ maxSize c →
  ∃ c', step c o = Some c' ∧ wf c' ∧ maxSize c' = maxSize c ∧
        Size c' ≤ maxSize c'.
Proof.
  intros Hwf Hcap Hsz. pose proof Hwf as [Hnd Hdom]. unfold Size in *.
  destruct o as [k result ttl now | k now | k | ]; simpl.
  - destruct (items c !! k) as [item|] eqn:Hk.
    + rewrite (Set_existing_spec _ _ _ _ _ _ Hk). eexists. split; [done|].
      assert (k ∈ lruList c) as Hin by (rewrite Hdom, Hk; eauto).
      simpl. split_and!; [split; simpl| done |].
      * by apply NoDup_MoveToFront.
      * intros k'. rewrite elem_of_MoveToFront, lookup_insert_is_Some', Hdom by done.
        split; [tauto | intros [->|?]; [by rewrite Hk|done]].
      * rewrite map_size_insert_Some by eauto. done.
    + destruct (Set_new_spec c k result ttl now Hwf Hcap Hk)
        as (c' & -> & Hmax & _ & Hlist & Hlook).
      assert (wf c') as Hwf'.
      { split.
        - rewrite Hlist. eapply sublist_NoDup; [|apply sublist_take].
          constructor; [|done]. rewrite Hdom, Hk. by intros [? ?].
        - intros k'. rewrite Hlook.
          destruct (decide (k' ∈ lruList c')) as [Hin|Hin];
            [rewrite bool_decide_true by done | rewrite bool_decide_false by done].
          + split; [intros _|by intros _]. rewrite Hlist in Hin.
            apply (subseteq_take _ _ _) in Hin.
            rewrite lookup_insert_is_Some'. apply elem_of_cons in Hin as [->|Hin];
              [by left | right; by apply Hdom].
          + split; [by intros ? | by intros [? ?]]. }
      exists c'. split_and!; [done..|].
      rewrite (wf_size _ Hwf'), Hlist, Hmax, length_take. lia.
  - eexists. split; [done|]. unfold Get.
    destruct (items c !! k) as [item|] eqn:Hk; [|done].
    destruct (GoTime.After now (expiration item)); [done|]. simpl.
    assert (k ∈ lruList c) as Hin by (rewrite Hdom, Hk; eauto).
    split_and!; [split; simpl | done..].
    + by apply NoDup_MoveToFront.
    + intros k'. by rewrite elem_of_MoveToFront.
  - eexists. split; [done|]. unfold Delete.
    destruct (items c !! k) as [item|] eqn:Hk; [|done]. simpl.
    split_and!; [split; simpl | done |].
    + by apply NoDup_filter.
    + intros k'. rewrite elem_of_Remove, lookup_delete_is_Some, Hdom.
      split; intros [? ?]; split; congruence.
    + pose proof (map_size_delete k (items c)) as Hd. rewrite Hk in Hd. lia.
  - eexists. split; [done|]. split_and!; [split; simpl | done |].
    + constructor.
    + intros k'. rewrite lookup_empty. split; [by intros ?%elem_of_nil | by intros [? ?]].
    + simpl. rewrite map_size_empty. lia.
Qed.

(** ** Recency order of the list *)

Section sorted_lists.
Context {A : Type}.

Lemma StronglySorted_sublist (R : relation A) (l l' : list A) :
  StronglySorted R l → l' `sublist_of` l → StronglySorted R l'.
Proof.
  intros Hs Hsub. induction Hsub as [|x l1 l2 Hsub IH|x l1 l2 Hsub IH].
  - constructor.
  - apply StronglySorted_cons in Hs as [Hall Hs].
    apply StronglySorted_cons. split; [|by apply IH].
    rewrite Forall_forall in *. intros y Hy. apply Hall.
    by apply (sublist_subseteq _ _ Hsub).
  - apply StronglySorted_cons in Hs as [_ Hs]. by apply IH.
Qed.

Lemma StronglySorted_weaken (R R' : relation A) (l : list A) :
  (∀ a b, a ∈ l → b ∈ l → R a b → R' a b) →
  StronglySorted R l → StronglySorted R' l.
Proof.
  induction l as [|x l IH]; intros Himp Hs; [constructor|].
  apply StronglySorted_cons in Hs as [Hall Hs].
  apply StronglySorted_cons. split.
  - rewrite Forall_forall in *. intros y Hy.
    apply Himp; [by left | by right | by apply Hall].
  - apply IH; [|done]. intros a b Ha Hb. apply Himp; by right.
Qed.

(** In a strongly sorted list the element at the smaller index is related
    to the one at the larger index. *)
Lemma StronglySorted_lookup (R : relation A) (l : list A) i j a b :
  StronglySorted R l → l !! i = Some a → l !! j = Some b → (i < j)%nat →
  R a b.
Proof.
  intros Hs. revert i j. induction Hs as [|x l Hs IH Hall]; intros i j Hi Hj Hlt.
  - by rewrite lookup_nil in Hi.
  - destruct j as [|j]; [lia|]. simpl in Hj. destruct i as [|i].
    + simpl in Hi. injection Hi as ->.
      rewrite Forall_forall in Hall. apply Hall.
      by eapply list_elem_of_lookup_2.
    + simpl in Hi. apply (IH i j); [done..|lia].
Qed.

End sorted_lists.

Lemma ordered_shrink l l' g b' :
  ordered l g → l' `sublist_of` l →
  ordered l' (mkGhost (S (calls g)) b' (lastUse g)).
Proof.
  intros [Hs Hst Hb] Hsub. split; simpl.
  - eapply StronglySorted_sublist; [|exact Hsub].
    eapply StronglySorted_weaken; [|exact Hs]. by intros a b _ _ Hab.
  - intros k Hk. apply Hst. by apply (sublist_subseteq _ _ Hsub).
  - intros k s Hk. specialize (Hb k s Hk). lia.
Qed.

Lemma ordered_touch l l' g k b' :
  ordered l g → l' `sublist_of` l → k ∉ l' →
  ordered (k :: l') (mkGhost (S (calls g)) b' (<[k := calls g]> (lastUse g))).
Proof.
  intros [Hs Hst Hb] Hsub Hk. split; simpl.
  - apply StronglySorted_cons. split.
    + rewrite Forall_forall. intros x Hx.
      assert (x ≠ k) as Hne by (by intros ->).
      destruct (Hst x) as [s Hsx]; [by apply (sublist_subseteq _ _ Hsub)|].
      exists (calls g), s. simpl.
      rewrite lookup_insert_eq, lookup_insert_ne by done.
      split_and!; [done..|]. by apply (Hb x).
    + eapply StronglySorted_weaken;
        [|eapply StronglySorted_sublist; [exact Hs | exact Hsub]].
      intros a b Ha Hb' (sa & sb & Hsa & Hsb & Hlt).
      exists sa, sb. simpl.
      rewrite !lookup_insert_ne by (by intros ->). done.
  - intros x [->|Hx]%elem_of_cons.
    + rewrite lookup_insert_eq. eauto.
    + rewrite lookup_insert_ne by (by intros ->).
      apply Hst. by apply (sublist_subseteq _ _ Hsub).
  - intros x s. rewrite lookup_insert. case_decide.
    + intros [= <-]. lia.
    + intros Hx. specialize (Hb x s Hx). lia.
Qed.

Lemma ordered_nil g : (∀ k s, lastUse g !! k = Some s → (s < calls g)%nat) →
  ordered [] g.
Proof.
  intros Hb. split; [constructor | by intros k ?%elem_of_nil | done].
Qed.

Lemma step_ordered c g o c' :
  wf c → 0 ≤ maxSize c → ordered (lruList c) g → step c o = Some c' →
  ordered (lruList c') (note c o g).
Proof.
  intros Hwf Hcap Hord Hstep. pose proof Hwf as [Hnd Hdom].
  destruct o as [k result ttl now | k now | k | ]; simpl in *.
  - destruct (items c !! k) as [item|] eqn:Hk.
    + rewrite (Set_existing_spec _ _ _ _ _ _ Hk) in Hstep.
      injection Hstep as <-. simpl.
      apply (ordered_touch (lruList c)); [done | apply sublist_filter |].
      rewrite elem_of_Remove. by intros [? _].
    + destruct (Set_new_spec c k result ttl now Hwf Hcap Hk)
        as (c2 & Hset & _ & _ & Hlist & _).
      rewrite Hset in Hstep. injection Hstep as <-. rewrite Hlist.
      assert (k ∉ lruList c) as Hnotin by (rewrite Hdom, Hk; by intros [? ?]).
      destruct (Z.to_nat (maxSize c)) as [|m]; simpl.
      * apply ordered_nil. simpl. intros x s. rewrite lookup_insert.
        destruct Hord as [_ _ Hb]. case_decide.
        -- intros [= <-]. lia.
        -- intros Hx. specialize (Hb x s Hx). lia.
      * apply (ordered_touch (lruList c)); [done | apply sublist_take |].
        intros Hin. apply Hnotin. by apply (subseteq_take _ _ _ Hin).
  - injection Hstep as <-. unfold Get.
    destruct (items c !! k) as [item|] eqn:Hk; simpl.
    + destruct (GoTime.After now (expiration item)); simpl.
      * by apply (ordered_shrink (lruList c)).
      * apply (ordered_touch (lruList c)); [done | apply sublist_filter |].
        rewrite elem_of_Remove. by intros [? _].
    + by apply (ordered_shrink (lruList c)).
  - injection Hstep as <-. unfold Delete.
    destruct (items c !! k) as [item|] eqn:Hk; simpl.
    + apply (ordered_shrink (lruList c)); [done | apply sublist_filter].
    + by apply (ordered_shrink (lruList c)).
  - injection Hstep as <-. simpl. apply ordered_nil. simpl.
    destruct Hord as [_ _ Hb]. intros x s Hx. specialize (Hb x s Hx). lia.
Qed.

(** The invariant of a history started on a fresh cache. *)
Lemma run_invariant ops : ∀ c g,
  wf c → 0 ≤ maxSize c → Size c ≤ maxSize c → ordered (lruList c) g →
  ∃ c' g', run c g ops = Some (c', g') ∧ wf c' ∧ maxSize c' = maxSize c ∧
           Size c' ≤ maxSize c' ∧ ordered (lruList c') g'.
Proof.
  induction ops as [|o ops IH]; intros c g Hwf Hcap Hsz Hord; simpl.
  - by exists c, g.
  - destruct (step_wf c o Hwf Hcap Hsz) as (c1 & Hstep & Hwf1 & Hmax1 & Hsz1).
    rewrite Hstep.
    destruct (IH c1 (note c o g)) as (c' & g' & Hrun & ? & Hmax' & ? & ?);
      [done | by rewrite Hmax1 | done | by eapply step_ordered |].
    exists c', g'. split_and!; [done..| congruence | done | done].
Qed.

(** With a negative capacity the eviction loop never exits, and neither
    does a [Set] of a new key. *)
Lemma evictLoop_negative cap back (its : gmap string cacheItem) :
  cap < 0 → evictLoop cap back its = None.
Proof.
  intros Hcap. revert its. induction back as [|x back IH]; intros its; simpl;
    rewrite bool_decide_true by lia; [done | apply IH].
Qed.

Lemma Set_negative_capacity c k result ttl now :
  maxSize c < 0 → items c !! k = None → Set_ c k result ttl now = None.
Proof.
  intros Hcap Hk. unfold Set_, evictIfNeeded. rewrite Hk. simpl.
  by rewrite evictLoop_negative.
Qed.

(** At the very instant of its [expiration] an entry is still returned. *)
Lemma Get_at_expiration c k item :
  items c !! k = Some item →
  found (Get c k (expiration item)) = true ∧
  got (Get c k (expiration item)) = value item.
Proof.
  intros Hk. unfold Get, GoTime.After. rewrite Hk.
  by rewrite bool_decide_false by lia.
Qed.

(** C1.  Capacity and eviction order of [MemoryCache].

    Take a cache built by [NewMemoryCache] with a capacity [cap] that is
    not negative, and any history of [Set], [Get], [Delete] and [Clear]
    calls.  Then every call of the history returns, and in the cache [c]
    the history leaves:
    - [Size()] is at most [cap] (the history is arbitrary, so this holds
      after each call);
    - the list and the map hold the same keys, each once;
    - the list is in order of use: an entry nearer the front was used by
      a later call than an entry nearer the back;
    - of two entries that were never used since their insertion, the one
      inserted first is nearer the back;
    - a [Set] of a key [k] that is not in the map returns, and leaves the
      first [cap] elements of [k :: lruList c]: the entries it removes are
      the ones at the back end, as many as needed and no more, every kept
      entry was used later than every removed one, and the kept entries
      are unchanged. *)
Theorem MemoryCache_capacity_lru (cap ttl0 : Z) (ops : list op) :
  0 ≤ cap →
  ∃ c g,
    run (NewMemoryCache cap ttl0) ghost0 ops = Some (c, g) ∧
    Size c ≤ cap ∧
    NoDup (lruList c) ∧
    (∀ k, k ∈ lruList c ↔ is_Some (items c !! k)) ∧
    (∀ i j a b,
       lruList c !! i = Some a → lruList c !! j = Some b → (i < j)%nat →
       fresher g a b) ∧
    (∀ i j a b,
       lruList c !! i = Some a → lruList c !! j = Some b →
       untouched g a → untouched g b → bornBefore g a b → (j < i)%nat) ∧
    (∀ k result ttl now,
       items c !! k = None →
       ∃ c',
         Set_ c k result ttl now = Some c' ∧
         Size c' = Z.min (Size c + 1) cap ∧
         lruList c' = take (Z.to_nat cap) (k :: lruList c) ∧
         (∀ k', k' ∈ lruList c' ↔ is_Some (items c' !! k')) ∧
         (∀ k', k' ∈ lruList c' → k' ≠ k → items c' !! k' = items c !! k') ∧
         (∀ kept gone,
            kept ∈ lruList c' → kept ≠ k →
            gone ∈ lruList c → gone ∉ lruList c' → fresher g kept gone)).
Proof.
  intros Hcap.
  destruct (run_invariant ops (NewMemoryCache cap ttl0) ghost0)
    as (c & g & Hrun & Hwf & Hmax & Hsz & Hord).
  { apply wf_new. }
  { done. }
  { unfold Size. simpl. rewrite map_size_empty. simpl. lia. }
  { apply ordered_nil. intros k s. simpl. by rewrite lookup_empty. }
  simpl in Hmax. rewrite Hmax in Hsz. pose proof Hwf as [Hnd Hdom].
  pose proof Hord as [Hsorted _ _].
  exists c, g. split_and!; [done..| | |].
  - intros i j a b. by apply StronglySorted_lookup.
  - intros i j a b Hi Hj (na & Hba & Hua) (nb & Hbb & Hub) (na' & nb' & Ha' & Hb' & Hlt).
    rewrite Hba in Ha'. rewrite Hbb in Hb'.
    injection Ha' as <-. injection Hb' as <-.
    destruct (Nat.lt_trichotomy i j) as [Hij|[->|Hji]]; [| |done].
    2:{ rewrite Hi in Hj. injection Hj as ->.
        rewrite Hba in Hbb. injection Hbb as ->. lia. }
    destruct (StronglySorted_lookup _ _ _ _ _ _ Hsorted Hi Hj Hij)
      as (sa & sb & Hsa & Hsb & Hlt').
    rewrite Hua in Hsa. rewrite Hub in Hsb.
    injection Hsa as <-. injection Hsb as <-. lia.
  - intros k result ttl now Hk.
    destruct (Set_new_spec c k result ttl now Hwf ltac:(by rewrite Hmax) Hk)
      as (c' & Hset & Hmax' & _ & Hlist & Hlook).
    rewrite Hmax in Hlist.
    assert (k ∉ lruList c) as Hnotin by (rewrite Hdom, Hk; by intros [? ?]).
    assert (∀ k', k' ∈ lruList c' ↔ is_Some (items c' !! k')) as Hdom'.
    { intros k'. rewrite Hlook.
      destruct (decide (k' ∈ lruList c')) as [Hin|Hin];
        [rewrite bool_decide_true by done | rewrite bool_decide_false by done].
      - split; [intros _|by intros _]. rewrite Hlist in Hin.
        apply (subseteq_take _ _ _) in Hin. rewrite lookup_insert_is_Some'.
        apply elem_of_cons in Hin as [->|Hin]; [by left | right; by apply Hdom].
      - split; [by intros ? | by intros [? ?]]. }
    exists c'. split_and!; [done | | done | done | |].
    + unfold Size.
      rewrite (size_keys (lruList c') (items c')), (wf_size c Hwf), Hlist,
        length_take; [cbn [length]; lia | | done].
      rewrite Hlist. eapply sublist_NoDup; [|apply sublist_take].
      by constructor.
    + intros k' Hin Hne. rewrite Hlook, bool_decide_true by done.
      by rewrite lookup_insert_ne.
    + intros kept gone Hkept Hne Hgone Hnot. rewrite Hlist in Hkept, Hnot.
      assert (k :: lruList c
              = (take (Z.to_nat cap) (k :: lruList c)
                 ++ drop (Z.to_nat cap) (k :: lruList c))%list) as Hsplit
        by (by rewrite take_drop).
      assert (gone ∈ drop (Z.to_nat cap) (k :: lruList c)) as Hdropped.
      { assert (gone ∈ k :: lruList c) as Hg by (by right).
        rewrite Hsplit, elem_of_app in Hg. by destruct Hg. }
      destruct (Z.to_nat cap) as [|m]; [by apply elem_of_nil in Hkept|].
      simpl in *. apply elem_of_cons in Hkept as [?|Hkept]; [done|].
      rewrite <- (take_drop m (lruList c)) in Hsorted.
      by apply (StronglySorted_app_1_elem_of _ _ _ _ _ Hsorted).
Qed.

(** C1, on a concrete history: capacity 2, three insertions and a read. *)
Lemma MemoryCache_capacity_lru_witness :
  0 ≤ 2 ∧
  ∃ c g,
    run (NewMemoryCache 2 300)
        ghost0
        [OpSet "a" zeroFlagResult 10 0; OpSet "b" zeroFlagResult 10 1;
         OpGet "a" 5; OpSet "c" zeroFlagResult 10 6]
    = Some (c, g) ∧ Size c ≤ 2.
Proof.
  split; [lia|].
  destruct (MemoryCache_capacity_lru 2 300
              [OpSet "a" zeroFlagResult 10 0; OpSet "b" zeroFlagResult 10 1;
               OpGet "a" 5; OpSet "c" zeroFlagResult 10 6])
    as (c & g & Hrun & Hsz & _); [lia|].
  exists c, g. split; [exact Hrun | exact Hsz].
Defined.

(** C2.  Lazy expiry on read.  In every cache state, for every key and
    every instant [now]: if the entry of the key has an [expiration] that
    has passed ([expiration < now]), [Get] reports not-found and hands out
    the zero result, whether or not a sweep has run; and whenever [Get]
    does report found, the value is the one stored and its [expiration] has
    not passed.  [PersistentCache.Get] and [CacheManager.Get] answer what
    [MemoryCache.Get] answers on the memory cache they wrap. *)
Theorem Get_never_returns_expired (c : MemoryCache) (k : string) (now : Z) :
  (∀ item, items c !! k = Some item → expiration item < now →
           found (Get c k now) = false ∧ got (Get c k now) = zeroFlagResult) ∧
  (found (Get c k now) = true →
   ∃ item, items c !! k = Some item ∧ got (Get c k now) = value item ∧
           now ≤ expiration item) ∧
  (∀ cm : manager.CacheManager,
     manager.memoryOf cm = c →
     found (manager.Get cm k now) = found (Get c k now) ∧
     got (manager.Get cm k now) = got (Get c k now)).
Proof.
  split_and!.
  - unfold Get, GoTime.After. intros item -> Hexp. by rewrite bool_decide_true.
  - unfold Get, GoTime.After. destruct (items c !! k) as [item|]; [|done].
    case_bool_decide as Hexp; [done|]. intros _. exists item.
    split_and!; [done..|lia].
  - intros [[c'|[mc fp]] cfg] <-; done.
Qed.

End CacheFacts.

(** ** The HTTP client: classification and backoff *)

Module TransportFacts.
Import errors types metrics wire runtime httpclient predicates.

(** C5.  The classification of an HTTP error response.  For a response
    with status 400 or more whose body parses as an error object,
    [doRequest] returns the error [handleHTTPError] builds, and that error
    is: for 401 an [AuthenticationError], not retryable; for 400 a
    [ValidationError], not retryable; for 429 a [RateLimitError],
    retryable; for 408 a [TimeoutError], retryable; for every status from
    500 on a [NetworkError], retryable; for every other status below 500 a
    [NetworkError], not retryable.  Retryable is what [IsRetryable]
    answers. *)
Theorem http_error_classification {R} (statusCode : Z) (body : Body R)
    (url : string) (apiErr : APIError) :
  400 ≤ statusCode →
  asAPIError body = Some apiErr →
  settle url (Response statusCode body)
    = inl (handleHTTPError statusCode body url) ∧
  (statusCode = 401 →
     kind (handleHTTPError statusCode body url) = KAuthentication ∧
     IsRetryable (handleHTTPError statusCode body url) = false) ∧
  (statusCode = 400 →
     kind (handleHTTPError statusCode body url) = KValidation ∧
     IsRetryable (handleHTTPError statusCode body url) = false) ∧
  (statusCode = 429 →
     kind (handleHTTPError statusCode body url) = KRateLimit ∧
     IsRetryable (handleHTTPError statusCode body url) = true) ∧
  (statusCode = 408 →
     kind (handleHTTPError statusCode body url) = KTimeout ∧
     IsRetryable (handleHTTPError statusCode body url) = true) ∧
  (500 ≤ statusCode →
     kind (handleHTTPError statusCode body url) = KNetwork ∧
     IsRetryable (handleHTTPError statusCode body url) = true) ∧
  (statusCode < 500 → statusCode ≠ 401 → statusCode ≠ 400 →
   statusCode ≠ 429 → statusCode ≠ 408 →
     kind (handleHTTPError statusCode body url) = KNetwork ∧
     IsRetryable (handleHTTPError statusCode body url) = false).
Proof.
  intros Hstatus Hbody. split.
  { simpl. by rewrite bool_decide_true. }
  unfold handleHTTPError. rewrite Hbody.
  unfold StatusUnauthorized, StatusBadRequest, StatusTooManyRequests,
    StatusRequestTimeout.
  split_and!.
  - intros ->. done.
  - intros ->. done.
  - intros ->. done.
  - intros ->. done.
  - intros H500. repeat (case_bool_decide; [lia|]). simpl.
    by rewrite bool_decide_true.
  - intros H500 ? ? ? ?. repeat (case_bool_decide; [lia|]). simpl.
    unfold StatusTooManyRequests, StatusRequestTimeout.
    by rewrite !bool_decide_false by lia.
Qed.

(** C5, on a 503 with a parseable body. *)
Lemma http_error_classification_witness :
  400 ≤ 503 ∧
  kind (handleHTTPError (R := unit) 503
          (mkBody (Some (mkAPIError "E" "unavailable" EmptyString)) None
             (inl "eof"))
          "http://host/api") = KNetwork ∧
  IsRetryable (handleHTTPError (R := unit) 503
                 (mkBody (Some (mkAPIError "E" "unavailable" EmptyString))
                    None (inl "eof"))
                 "http://host/api") = true.
Proof.
  split; [lia|].
  refine (proj1 (proj2 (proj2 (proj2 (proj2 (proj2
            (http_error_classification (R := unit) 503
               (mkBody (Some (mkAPIError "E" "unavailable" EmptyString))
                  None (inl "eof"))
               "http://host/api"
               (mkAPIError "E" "unavailable" EmptyString) _ _)))))) _);
    [lia | reflexivity | lia].
Defined.

Lemma wrap64_idem z : GoInt.wrap64 (GoInt.wrap64 z) = GoInt.wrap64 z.
Proof.
  apply GoIntFacts.wrap64_small. unfold GoInt.wrap64, GoInt.min_int64,
    GoInt.max_int64.
  pose proof (Z.mod_pos_bound (z + 2 ^ 63) (2 ^ 64)). lia.
Qed.

Lemma truncQ_small (x : Q) : (- 1 < x)%Q → (x < 1)%Q → truncQ x = 0.
Proof.
  unfold Qlt, truncQ. destruct x as [n d]. simpl. intros Hlo Hhi.
  destruct (Z_lt_le_dec n 0).
  - rewrite <- (Z.opp_involutive n), Z.quot_opp_l by lia.
    rewrite Z.quot_small; lia.
  - apply Z.quot_small. lia.
Qed.

(** C6.  What [calculateBackoff] returns.  For every attempt number and
    every value [r] in [0, 1) that [rand.Float64()] can return, the
    jitter term is zero: the result does not depend on [r] and is the
    capped exponential delay itself.  For attempts 0 to 36 that delay is
    [min (100ms * 2^attempt) 30s]. *)
Theorem calculateBackoff_has_no_jitter (attempt : Z) (r : Q) :
  (0 <= r)%Q → (r < 1)%Q →
  calculateBackoff attempt r = calculateBackoff attempt 0 ∧
  (0 ≤ attempt ≤ 36 →
   calculateBackoff attempt r
   = Z.min (100 * GoTime.millisecond * 2 ^ attempt) (30 * GoTime.second)).
Proof.
  intros Hlo Hhi.
  assert (∀ q : Q, (0 <= q)%Q → (q < 1)%Q →
            truncQ (q * (1 # 2) - (1 # 4))%Q = 0) as Hzero.
  { intros q Hq0 Hq1. apply truncQ_small.
    - unfold Qlt, Qle, Qmult, Qminus, Qplus, Qopp in *. simpl in *. lia.
    - unfold Qlt, Qle, Qmult, Qminus, Qplus, Qopp in *. simpl in *. lia. }
  assert (∀ q : Q, (0 <= q)%Q → (q < 1)%Q →
            calculateBackoff attempt q
            = let backoff :=
                GoInt.wrap64 (GoInt.wrap64 (100 * GoTime.millisecond)
                              * pow2Duration attempt) in
              if bool_decide (GoInt.wrap64 (30 * GoTime.second) < backoff)
              then GoInt.wrap64 (30 * GoTime.second) else backoff) as Heq.
  { intros q Hq0 Hq1. unfold calculateBackoff. rewrite (Hzero q Hq0 Hq1).
    cbv zeta. rewrite Z.mul_0_l.
    replace (GoInt.wrap64 0) with 0 by reflexivity. rewrite Z.add_0_r.
    case_bool_decide; apply wrap64_idem. }
  split.
  - rewrite (Heq r Hlo Hhi), (Heq 0%Q); [done | done | done].
  - intros Hrange. rewrite (Heq r Hlo Hhi). cbv zeta.
    unfold pow2Duration.
    rewrite (bool_decide_false (attempt < 0)),
      (bool_decide_true (attempt ≤ 62)) by lia.
    replace (GoInt.wrap64 (100 * GoTime.millisecond)) with 100000000
      by reflexivity.
    replace (GoInt.wrap64 (30 * GoTime.second)) with 30000000000
      by reflexivity.
    replace (100 * GoTime.millisecond) with 100000000 by reflexivity.
    replace (30 * GoTime.second) with 30000000000 by reflexivity.
    assert (1 ≤ 2 ^ attempt ≤ 2 ^ 36) as Hpow.
    { split; [pose proof (Z.pow_pos_nonneg 2 attempt); lia|].
      apply Z.pow_le_mono_r; lia. }
    rewrite GoIntFacts.wrap64_small
      by (unfold GoInt.min_int64, GoInt.max_int64; lia).
    case_bool_decide; lia.
Qed.

(** C6, at the first retry with the draw 0.9: the wait is 200ms sharp. *)
Lemma calculateBackoff_has_no_jitter_witness :
  calculateBackoff 1 (9 # 10) = 200 * GoTime.millisecond.
Proof.
  rewrite (proj2 (calculateBackoff_has_no_jitter 1 (9 # 10)
                    ltac:(unfold Qle; simpl; lia)
                    ltac:(unfold Qlt; simpl; lia))
                 ltac:(lia)).
  reflexivity.
Defined.

(** ** Retries *)

Section retries.
Context {Req R : Type}.
Variables (c : HTTPClient) (api : Env → nat → Req → Exchange R).
Variables (path : string) (body : Req) (zero : R) (E : Env).

(** One round of the loop that meets a retryable error goes on to the next
    round, one exchange later, and touches neither the cache nor the
    disk. *)
Lemma attemptLoop_retry remaining attempt lastErr w err :
  ctxDone E (exchanges w) = None →
  failsWith c api path body E (exchanges w) err → IsRetryable err = true →
  ∃ w1,
    attemptLoop c api path body zero (S remaining) attempt lastErr E w
    = attemptLoop c api path body zero remaining (attempt + 1) (Some err) E w1
    ∧ exchanges w1 = S (exchanges w)
    ∧ cacheManager w1 = cacheManager w ∧ disk w1 = disk w
    ∧ length (sleeps w1)
      = (length (sleeps w) + if bool_decide (0 < attempt)%Z then 1 else 0)%nat.
Proof.
  unfold failsWith. intros Hctx Hfail Hretry.
  case_bool_decide as Hattempt.
  - eexists. split.
    + cbn [attemptLoop]. rewrite bool_decide_true by done.
      unfold mbind, M_bind, bind, backoffWait. rewrite Hctx.
      unfold now, doRequest, record, mret, M_ret, ret. cbn.
      rewrite Hfail, Hretry. reflexivity.
    + cbn. split_and!; [done..|lia].
  - eexists. split.
    + cbn [attemptLoop]. rewrite bool_decide_false by done.
      unfold mbind, M_bind, bind, now, doRequest, record, mret, M_ret, ret.
      cbn. rewrite Hfail, Hretry. reflexivity.
    + cbn. split_and!; [done..|lia].
Qed.

Lemma attemptLoop_all_fail remaining : ∀ attempt lastErr w,
  0 ≤ attempt →
  (∀ i, ctxDone E i = None) →
  (∀ i, ∃ err, failsWith c api path body E i err ∧ IsRetryable err = true) →
  (remaining = 0%nat → is_Some lastErr) →
  ∃ err w',
    attemptLoop c api path body zero remaining attempt lastErr E w
    = Returns (inl err) w' ∧
    exchanges w' = (exchanges w + remaining)%nat ∧
    match remaining with
    | O => lastErr = Some err
    | S r => failsWith c api path body E (exchanges w + r) err
    end ∧
    cacheManager w' = cacheManager w ∧ disk w' = disk w ∧
    length (sleeps w')
    = (length (sleeps w) + remaining
       - if bool_decide (attempt = 0%Z ∧ remaining ≠ 0%nat) then 1 else 0)%nat.
Proof.
  induction remaining as [|remaining IH];
    intros attempt lastErr w Hattempt Hctx Hfail Hlast.
  - destruct Hlast as [err ->]; [done|]. exists err, w. cbn.
    rewrite bool_decide_false by (by intros [_ ?]).
    split_and!; [done | lia | done | done | done | lia].
  - destruct (Hfail (exchanges w)) as (err & Herr & Hretry).
    destruct (attemptLoop_retry remaining attempt lastErr w err
                (Hctx _) Herr Hretry)
      as (w1 & -> & Hex1 & Hcm1 & Hdisk1 & Hsl1).
    destruct (IH (attempt + 1) (Some err) w1) as
      (err' & w' & Hrun & Hex & Hlastfail & Hcm & Hdisk & Hsl);
      [lia | done | done | by eauto |].
    exists err', w'. split; [done|]. split_and!.
    + lia.
    + destruct remaining as [|r].
      * injection Hlastfail as <-.
        by replace (exchanges w + 0)%nat with (exchanges w) by lia.
      * by replace (exchanges w + S r)%nat with (exchanges w1 + r)%nat
          by lia.
    + congruence.
    + congruence.
    + rewrite Hsl, Hsl1.
      rewrite (bool_decide_false (attempt + 1 = 0 ∧ _)) by lia.
      repeat case_bool_decide; lia.
Qed.

(** The loop always returns; it leaves the cache, the disk and the
    [closed] flag alone; and unless it has no round to run, it makes at
    least one exchange. *)
Lemma attemptLoop_quiet remaining : ∀ attempt lastErr w,
  ∃ res w',
    attemptLoop c api path body zero remaining attempt lastErr E w
    = Returns res w' ∧
    cacheManager w' = cacheManager w ∧ disk w' = disk w ∧
    closed w' = closed w ∧ spawnedDeletes w' = spawnedDeletes w ∧
    (reads w ≤ reads w')%nat ∧ (exchanges w ≤ exchanges w')%nat ∧
    (remaining ≠ 0%nat → attempt = 0 → (exchanges w < exchanges w')%nat).
Proof.
  induction remaining as [|remaining IH]; intros attempt lastErr w.
  - eexists _, w. cbn. split_and!; [done..|lia|lia|done].
  - cbn [attemptLoop].
    unfold mbind, M_bind, bind, backoffWait, now, doRequest, record, mret,
      M_ret, ret.
    destruct (bool_decide (0 < attempt)) eqn:Hattempt.
    + destruct (ctxDone E (exchanges w)) as [ctxErr|] eqn:Hctx.
      * eexists _, w. split; [done|].
        split_and!; [done..|lia|lia|].
        intros _ ->. by apply bool_decide_eq_true in Hattempt.
      * cbn. destruct (settle _ _) as [err|result] eqn:Hres.
        -- destruct (IsRetryable err).
           ++ edestruct (IH (attempt + 1) (Some err)) as
                (res & w' & -> & Hcm & Hdisk & Hcl & Hsp & Hr & Hx & _).
              eexists _, w'. split; [done|]. cbn in *.
              split_and!; [done..|lia|lia|lia].
           ++ eexists _, _. split; [done|]. cbn.
              split_and!; [done..|lia|lia|lia].
        -- eexists _, _. split; [done|]. cbn.
           split_and!; [done..|lia|lia|lia].
    + cbn. destruct (settle _ _) as [err|result] eqn:Hres.
      * destruct (IsRetryable err).
        -- edestruct (IH (attempt + 1) (Some err)) as
             (res & w' & -> & Hcm & Hdisk & Hcl & Hsp & Hr & Hx & _).
           eexists _, w'. split; [done|]. cbn in *.
           split_and!; [done..|lia|lia|lia].
        -- eexists _, _. split; [done|]. cbn.
           split_and!; [done..|lia|lia|lia].
      * eexists _, _. split; [done|]. cbn.
        split_and!; [done..|lia|lia|lia].
Qed.

End retries.

(** C4.  Retries against a backend that keeps failing.  Let the caller's
    context never be done.  If every exchange ends in a retryable error and
    [retryAttempts = n] is not negative (and below the largest [int]),
    [makeRequest] makes exactly [n + 1]
    exchanges, waits [n] times in between, and returns the error of the
    last exchange.  In particular, if every exchange is answered with
    status 502 and [retryAttempts = 3], it makes exactly 4 exchanges and
    the error returned, that of the fourth, is a [NetworkError]. *)
Theorem makeRequest_retries_until_exhausted {Req R} (c : HTTPClient)
    (api : Env → nat → Req → Exchange R) (method path : string) (body : Req)
    (zero : R) (E : Env) (w : World) :
  (∀ i, ctxDone E i = None) →
  (∀ n, 0 ≤ n < GoInt.max_int64 → retryAttempts c = n →
        (∀ i, ∃ err, failsWith c api path body E i err ∧
                     IsRetryable err = true) →
        ∃ err w',
          makeRequest c api method path body zero E w = Returns (inl err) w' ∧
          exchanges w' = (exchanges w + Z.to_nat (n + 1))%nat ∧
          length (sleeps w') = (length (sleeps w) + Z.to_nat n)%nat ∧
          failsWith c api path body E (exchanges w + Z.to_nat n) err) ∧
  (retryAttempts c = 3 →
   (∀ i, ∃ respBody, api E i body = Response 502 respBody) →
   ∃ err w',
     makeRequest c api method path body zero E w = Returns (inl err) w' ∧
     exchanges w' = (exchanges w + 4)%nat ∧
     failsWith c api path body E (exchanges w + 3) err ∧
     kind err = KNetwork).
Proof.
  intros Hctx.
  assert (∀ n, 0 ≤ n < GoInt.max_int64 → retryAttempts c = n →
        (∀ i, ∃ err, failsWith c api path body E i err ∧
                     IsRetryable err = true) →
        ∃ err w',
          makeRequest c api method path body zero E w = Returns (inl err) w' ∧
          exchanges w' = (exchanges w + Z.to_nat (n + 1))%nat ∧
          length (sleeps w') = (length (sleeps w) + Z.to_nat n)%nat ∧
          failsWith c api path body E (exchanges w + Z.to_nat n) err)
    as Hgeneral.
  { intros n Hn Hretry Hfail. unfold makeRequest. rewrite Hretry.
    destruct (attemptLoop_all_fail c api path body zero E
                (Z.to_nat (n + 1)) 0 None w)
      as (err & w' & Hrun & Hex & Hlast & _ & _ & Hsl);
      [lia | done | done | lia |].
    exists err, w'. split; [done|]. split; [done|].
    replace (Z.to_nat (n + 1)) with (S (Z.to_nat n)) in * by lia.
    split; [|done]. rewrite Hsl, bool_decide_true by done. lia. }
  split; [exact Hgeneral|].
  intros Hretry H502.
  assert (∀ i, ∃ err, failsWith c api path body E i err ∧
                      IsRetryable err = true ∧ kind err = KNetwork) as Hfail.
  { intros i. destruct (H502 i) as [respBody Hresp].
    exists (handleHTTPError 502 respBody (baseURL c +:+ path)).
    unfold failsWith. rewrite Hresp. split; [done|].
    unfold handleHTTPError. by destruct (asAPIError respBody). }
  destruct (Hgeneral 3 ltac:(unfold GoInt.max_int64; lia) Hretry)
    as (err & w' & Hrun & Hex & _ & Hlast).
  { intros i. destruct (Hfail i) as (err & ? & ? & _). eauto. }
  exists err, w'. split_and!; [done..|].
  destruct (Hfail (exchanges w + Z.to_nat 3)%nat) as (err' & Herr' & _ & Hkind).
  unfold failsWith in *. congruence.
Qed.

(** C4, on a backend that answers every request with 502 and an empty
    body, with three retries. *)
Lemma makeRequest_retries_until_exhausted_witness :
  ∃ err w',
    makeRequest (Req := unit) (R := unit)
      (mkHTTPClient "http://host" "key" 3)
      (λ _ _ _, Response 502 (mkBody None None (inl "eof")))
      "POST" "/api" tt tt
      (mkEnv (λ n, Z.of_nat n) (λ _ _, DoFails "down") (λ _ _, DoFails "down")
         (λ _, None) (λ _, 1 # 2)%Q (λ l, l))
      (mkWorld
         (manager.mkCacheManager
            (manager.OfMemoryCache (cache.NewMemoryCache 10 300))
            (manager.mkCacheConfig 300 10 false EmptyString "LRU"))
         (persistent.mkDisk ∅ []) NewMetricsCollector false 0 0 [] [])
    = Returns (inl err) w' ∧ exchanges w' = 4%nat ∧ kind err = KNetwork.
Proof.
  destruct (proj2 (makeRequest_retries_until_exhausted (Req := unit) (R := unit)
              (mkHTTPClient "http://host" "key" 3)
              (λ _ _ _, Response 502 (mkBody None None (inl "eof")))
              "POST" "/api" tt tt
              (mkEnv (λ n, Z.of_nat n) (λ _ _, DoFails "down")
                 (λ _ _, DoFails "down") (λ _, None) (λ _, 1 # 2)%Q (λ l, l))
              (mkWorld
                 (manager.mkCacheManager
                    (manager.OfMemoryCache (cache.NewMemoryCache 10 300))
                    (manager.mkCacheConfig 300 10 false EmptyString "LRU"))
                 (persistent.mkDisk ∅ []) NewMetricsCollector false 0 0 [] [])
              (λ _, eq_refl))
             eq_refl (λ _, ex_intro _ _ eq_refl))
    as (err & w' & Hrun & Hex & _ & Hkind).
  exists err, w'. split_and!; [exact Hrun | exact Hex | exact Hkind].
Defined.

End TransportFacts.

(** ** Strings *)

Module StringFacts.

Lemma length_app (s t : string) :
  String.length (s +:+ t) = (String.length s + String.length t)%nat.
Proof. induction s as [|a s IH]; simpl; [done | by rewrite IH]. Qed.

(** Cancellation of a common suffix. *)
Lemma app_inj_r (s1 s2 t : string) : s1 +:+ t = s2 +:+ t → s1 = s2.
Proof.
  revert s2. induction s1 as [|a s1 IH]; intros [|b s2] Heq; simpl in Heq.
  - done.
  - apply (f_equal String.length) in Heq.
    rewrite ?length_app in Heq. simpl in Heq. rewrite ?length_app in Heq. lia.
  - apply (f_equal String.length) in Heq.
    rewrite ?length_app in Heq. simpl in Heq. rewrite ?length_app in Heq. lia.
  - injection Heq as -> Heq. f_equal. by apply IH.
Qed.

(** Two strings that agree, each cut at a colon with no colon before it,
    agree on both sides of the cut. *)
Lemma app_colon_inj (s1 s2 r1 r2 : string) :
  evaluator.colonFree s1 = true → evaluator.colonFree s2 = true →
  s1 +:+ String ":" r1 = s2 +:+ String ":" r2 → s1 = s2 ∧ r1 = r2.
Proof.
  revert s2. induction s1 as [|a s1 IH]; intros [|b s2] H1 H2 Heq;
    simpl in *.
  - by injection Heq as ->.
  - injection Heq as <- _. by rewrite Ascii.eqb_refl in H2.
  - injection Heq as -> _. by rewrite Ascii.eqb_refl in H1.
  - injection Heq as -> Heq.
    destruct (Ascii.eqb b ":"); [done|].
    destruct (IH s2 H1 H2 Heq) as [-> ->]. done.
Qed.

End StringFacts.

(** ** The evaluator *)

Module EvaluatorFacts.
Import errors types metrics wire runtime httpclient evaluator.

Import cache persistent manager predicates.

Ltac munfold :=
  unfold mbind, M_bind, bind, mret, M_ret, ret, record, now, cacheGet,
    cacheSet, rangeMap in *.

Lemma manager_Get_spec cm k t :
  found (manager.Get cm k t) = found (cache.Get (memoryOf cm) k t) ∧
  got (manager.Get cm k t) = got (cache.Get (memoryOf cm) k t) ∧
  memoryOf (after (manager.Get cm k t))
  = after (cache.Get (memoryOf cm) k t) ∧
  spawned (manager.Get cm k t) = spawned (cache.Get (memoryOf cm) k t).
Proof. destruct cm as [[c|[mc fp]] cfg]; done. Qed.

Lemma Get_items c k t : items (after (cache.Get c k t)) = items c.
Proof.
  unfold cache.Get. destruct (items c !! k) as [item|]; [|done].
  by destruct (GoTime.After t (expiration item)).
Qed.

Lemma Get_miss_after c k t :
  found (cache.Get c k t) = false → after (cache.Get c k t) = c.
Proof.
  unfold cache.Get. destruct (items c !! k) as [item|]; [|done].
  by destruct (GoTime.After t (expiration item)).
Qed.

Lemma manager_Get_miss_after cm k t :
  found (manager.Get cm k t) = false → after (manager.Get cm k t) = cm.
Proof.
  destruct cm as [[c|[mc fp]] cfg]; unfold manager.Get, persistent.Get; simpl;
    intros Hmiss; by rewrite Get_miss_after.
Qed.

(** A lookup that misses found no entry or an expired one. *)
Lemma Get_miss_stale c k t :
  found (cache.Get c k t) = false →
  match items c !! k with
  | None => True
  | Some item => expiration item < t
  end.
Proof.
  unfold cache.Get, GoTime.After. destruct (items c !! k) as [item|]; [|done].
  case_bool_decide; [done|]. done.
Qed.

Lemma stale_Get_miss c k t :
  match items c !! k with
  | None => True
  | Some item => expiration item < t
  end →
  found (cache.Get c k t) = false.
Proof.
  unfold cache.Get, GoTime.After. destruct (items c !! k) as [item|]; [|done].
  intros Hexp. by rewrite bool_decide_true.
Qed.

(** The eviction loop only deletes. *)
Lemma evictLoop_only_deletes cap back : ∀ (its : gmap string cacheItem)
    back' its' k,
  evictLoop cap back its = Some (back', its') →
  its' !! k = its !! k ∨ its' !! k = None.
Proof.
  induction back as [|x back IH]; intros its back' its' k; simpl.
  - case_bool_decide; [done|]. intros [= <- <-]. by left.
  - case_bool_decide; [|intros [= <- <-]; by left].
    intros Hrun. destruct (IH _ _ _ k Hrun) as [Heq|Hnone]; [|by right].
    rewrite Heq. destruct (decide (x = k)) as [->|Hne].
    + right. apply lookup_delete_eq.
    + left. by rewrite lookup_delete_ne.
Qed.

(** [Set] of one key leaves every other key as it was, or evicts it. *)
Lemma Set_other_keys c k result ttl t c' k' :
  cache.Set_ c k result ttl t = Some c' → k' ≠ k →
  items c' !! k' = items c !! k' ∨ items c' !! k' = None.
Proof.
  unfold cache.Set_, evictIfNeeded. intros Hset Hne.
  destruct (items c !! k) as [item|].
  - injection Hset as <-. simpl. left. by rewrite lookup_insert_ne.
  - simpl in Hset.
    destruct (evictLoop _ _ _) as [[back its]|] eqn:Hloop; [|done].
    injection Hset as <-. simpl.
    destruct (evictLoop_only_deletes _ _ _ _ _ k' Hloop) as [Heq|?];
      [left | by right].
    by rewrite Heq, lookup_insert_ne.
Qed.

Lemma manager_Set_other_keys cm k result ttl t d cm' d' k' :
  manager.Set_ cm k result ttl t d = Some (cm', d') → k' ≠ k →
  items (memoryOf cm') !! k' = items (memoryOf cm) !! k'
  ∨ items (memoryOf cm') !! k' = None.
Proof.
  destruct cm as [[c|[mc fp]] cfg];
    unfold manager.Set_, persistent.Set_, memoryOf; simpl; intros Hset Hne.
  - destruct (cache.Set_ c k _ _ t) as [c'|] eqn:Hc; [|done].
    injection Hset as <- <-. simpl. by eapply Set_other_keys.
  - destruct (cache.Set_ mc k _ _ t) as [c'|] eqn:Hc; [|done].
    injection Hset as <- <-. simpl. by eapply Set_other_keys.
Qed.

(** On a healthy cache [Set] returns, and leaves a healthy cache. *)
Lemma manager_Set_ok cm k result ttl t d :
  cacheOK cm →
  ∃ cm' d', manager.Set_ cm k result ttl t d = Some (cm', d') ∧ cacheOK cm'.
Proof.
  intros (Hwf & Hcap & Hsz).
  destruct (CacheFacts.step_wf (memoryOf cm)
              (history.OpSet k result
                 (if bool_decide (ttl = 0) then TTL (manager.config cm)
                  else ttl) t) Hwf Hcap Hsz)
    as (c' & Hstep & Hwf' & Hmax' & Hsz').
  simpl in Hstep.
  destruct cm as [[c|[mc fp]] cfg];
    unfold manager.Set_, persistent.Set_, memoryOf in *; simpl in *;
    rewrite Hstep; eexists _, _; (split; [done|]);
    unfold cacheOK, memoryOf; simpl; split_and!; congruence.
Qed.

Lemma manager_Get_ok cm k t : cacheOK cm → cacheOK (after (manager.Get cm k t)).
Proof.
  intros (Hwf & Hcap & Hsz).
  destruct (CacheFacts.step_wf (memoryOf cm) (history.OpGet k t) Hwf Hcap Hsz)
    as (c' & Hstep & Hwf' & Hmax' & Hsz').
  simpl in Hstep. injection Hstep as <-.
  destruct (manager_Get_spec cm k t) as (_ & _ & Hmem & _).
  unfold cacheOK. rewrite Hmem. split_and!; [done | congruence | done].
Qed.

Lemma generateCacheKey_UserID e k uc uc' :
  UserID uc' = UserID uc → generateCacheKey e k uc' = generateCacheKey e k uc.
Proof. unfold generateCacheKey. by intros ->. Qed.

Lemma generateCacheKey_inj_flag e k k' uc :
  generateCacheKey e k uc = generateCacheKey e k' uc → k = k'.
Proof.
  unfold generateCacheKey. intros Heq.
  apply (inj (String.app _)) in Heq. by apply StringFacts.app_inj_r in Heq.
Qed.

(** What [lookupFlag] does: it stamps the context, and asks the cache at
    some reading [i] of the clock. *)
Lemma lookupFlag_spec e k uc E w :
  ∃ uc1 w1 i,
    lookupFlag e k uc E w
    = Returns (uc1, (got (manager.Get (cacheManager w)
                            (generateCacheKey e k uc) (clock E i)),
                     found (manager.Get (cacheManager w)
                              (generateCacheKey e k uc) (clock E i)))) w1 ∧
    UserID uc1 = UserID uc ∧
    cacheManager w1
    = after (manager.Get (cacheManager w) (generateCacheKey e k uc)
               (clock E i)) ∧
    disk w1 = disk w ∧ closed w1 = closed w ∧ exchanges w1 = exchanges w ∧
    (reads w ≤ i)%nat ∧ (i ≤ reads w1)%nat ∧
    (is_Some (items (mem w) !! generateCacheKey e k uc) → (i < reads w1)%nat).
Proof.
  unfold lookupFlag, stamp. destruct (GoTime.IsZero (Timestamp uc)); munfold;
    cbn.
  - rewrite (generateCacheKey_UserID e k uc (mkUserContext (UserID uc) _))
      by done.
    eexists _, _, (S (reads w)). split; [reflexivity|]. cbn.
    split_and!; [done..|lia| |].
    + case_bool_decide; lia.
    + intros Hsome. unfold mem in Hsome. rewrite bool_decide_true by done. lia.
  - eexists _, _, (reads w). split; [reflexivity|]. cbn.
    split_and!; [done..|lia| |].
    + case_bool_decide; lia.
    + intros Hsome. unfold mem in Hsome. rewrite bool_decide_true by done. lia.
Qed.

(** A lookup that misses leaves the cache as it was, with nothing fresh
    under the key. *)
Lemma lookupFlag_miss e k uc E w uc1 cached w1 :
  lookupFlag e k uc E w = Returns (uc1, (cached, false)) w1 →
  UserID uc1 = UserID uc ∧ cacheManager w1 = cacheManager w ∧
  disk w1 = disk w ∧ closed w1 = closed w ∧ exchanges w1 = exchanges w ∧
  (reads w ≤ reads w1)%nat ∧
  staleAt E w1 (generateCacheKey e k uc).
Proof.
  destruct (lookupFlag_spec e k uc E w)
    as (uc1' & w1' & i & -> & Hu & Hcm & Hd & Hcl & Hx & Hi & Hi' & Hlt).
  intros [= <- <- Hmiss <-].
  pose proof (manager_Get_miss_after _ _ _ Hmiss) as Hafter.
  rewrite Hafter in Hcm.
  split_and!; [done..|lia|].
  unfold staleAt, mem. rewrite Hcm.
  destruct (manager_Get_spec (cacheManager w) (generateCacheKey e k uc)
              (clock E i)) as (Hf & _).
  rewrite Hf in Hmiss. apply Get_miss_stale in Hmiss.
  destruct (items (memoryOf (cacheManager w)) !! generateCacheKey e k uc)
    as [item|] eqn:Hitem; [|done].
  exists i. split; [|done]. apply Hlt. unfold mem. rewrite Hitem. eauto.
Qed.

(** The HTTP call of a single flag always returns, touches neither the
    cache nor the disk, and with a [retryAttempts] that is not negative it
    makes at least one exchange. *)
Lemma fetch_quiet hc k uc env E w :
  ∃ res w',
    httpclient.EvaluateFlag hc k uc env E w = Returns res w' ∧
    cacheManager w' = cacheManager w ∧ disk w' = disk w ∧
    closed w' = closed w ∧
    (reads w ≤ reads w')%nat ∧ (exchanges w ≤ exchanges w')%nat ∧
    (0 ≤ retryAttempts hc → (exchanges w < exchanges w')%nat).
Proof.
  unfold httpclient.EvaluateFlag, makeRequest.
  destruct (TransportFacts.attemptLoop_quiet hc flagAPI "/api/v1/sdk/evaluate"
              (mkEvaluateFlagRequest k uc) zeroEvaluateFlagResponse E
              (Z.to_nat (retryAttempts hc + 1)) 0 None w)
    as (res & w' & Hrun & Hcm & Hd & Hcl & _ & Hr & Hx & Hstrict).
  exists res, w'. split_and!; [done..|].
  intros Hn. apply Hstrict; [lia | done].
Qed.

Lemma batch_fetch_quiet hc ks uc env E w :
  ∃ res w',
    httpclient.EvaluateFlags hc ks uc env E w = Returns res w' ∧
    cacheManager w' = cacheManager w ∧ disk w' = disk w ∧
    closed w' = closed w ∧
    (reads w ≤ reads w')%nat ∧ (exchanges w ≤ exchanges w')%nat.
Proof.
  unfold httpclient.EvaluateFlags, makeRequest.
  destruct (TransportFacts.attemptLoop_quiet hc batchAPI
              "/api/v1/sdk/evaluate/batch"
              (mkBatchEvaluateFlagsRequest ks uc env)
              zeroBatchEvaluateFlagsResponse E
              (Z.to_nat (retryAttempts hc + 1)) 0 None w)
    as (res & w' & Hrun & Hcm & Hd & Hcl & _ & Hr & Hx & _).
  exists res, w'. split_and!; done.
Qed.

(** [EvaluateFlag] after a lookup that misses, by the outcome of the HTTP
    call. *)
Lemma EvaluateFlag_after_miss e k dv uc E w uc1 cached w1 res w2 :
  lookupFlag e k uc E w = Returns (uc1, (cached, false)) w1 →
  (record RecordCacheMiss;;
   httpclient.EvaluateFlag (httpClient e) k uc1
     (Environment (evaluator.config e))) E w1 = Returns res w2 →
  evaluator.EvaluateFlag e k dv uc E w
  = match res with
    | inl err =>
        Returns (mkFlagResult k dv "error_fallback" EmptyString EmptyString
                   (Some err) (clock E (reads w2)) false) (tick w2)
    | inr response =>
        (cacheSet (generateCacheKey e k uc1)
           (mkFlagResult k (VBool (Enabled response)) "api_evaluation"
              EmptyString EmptyString None (clock E (reads w2)) false) 0;;
         mret (mkFlagResult k (VBool (Enabled response)) "api_evaluation"
                 EmptyString EmptyString None (clock E (reads w2)) false))
          E (tick w2)
    end.
Proof.
  intros Hlook Hfetch. unfold evaluator.EvaluateFlag, evaluateFlagFromAPI.
  unfold mbind, M_bind, bind, record in Hfetch |- *. rewrite Hlook. cbn.
  destruct (httpclient.EvaluateFlag _ _ _ _ E _) as [res' w2'| |];
    [|done..].
  injection Hfetch as -> ->. by destruct res.
Qed.

Lemma world0_ok : cacheOK (cacheManager scenario.world0).
Proof.
  split_and!.
  - apply CacheFacts.wf_new.
  - done.
  - done.
Qed.

(** ** Loops *)

(** A loop whose every round returns and keeps an invariant of the rounds
    done so far returns, with the invariant of all its rounds. *)
Lemma foldM_total {A B} (f : B → A → M B)
    (P : list A → B → World → Prop) (E : Env) (l : list A) :
  (∀ pre a b w, a ∈ l → P pre b w →
     ∃ b' w', f b a E w = Returns b' w' ∧ P (pre ++ [a])%list b' w') →
  ∀ pre b w, P pre b w →
    ∃ b' w', foldM f b l E w = Returns b' w' ∧ P (pre ++ l)%list b' w'.
Proof.
  induction l as [|a l IH]; intros Hstep pre b w HP.
  - exists b, w. by rewrite app_nil_r.
  - destruct (Hstep pre a b w) as (b1 & w1 & Hrun & HP1); [by left | done |].
    destruct (IH ltac:(intros; apply Hstep; [by right | done])
                 (pre ++ [a])%list b1 w1 HP1) as (b' & w' & Hrun' & HP').
    exists b', w'. cbn. unfold mbind, M_bind, bind. rewrite Hrun.
    split; [done|]. by rewrite <- app_assoc in HP'.
Qed.

(** A loop that returns kept every invariant its rounds keep. *)
Lemma foldM_partial {A B} (f : B → A → M B)
    (P : list A → B → World → Prop) (E : Env) (l : list A) :
  (∀ pre a b w b' w', a ∈ l → P pre b w → f b a E w = Returns b' w' →
     P (pre ++ [a])%list b' w') →
  ∀ pre b w b' w', P pre b w → foldM f b l E w = Returns b' w' →
    P (pre ++ l)%list b' w'.
Proof.
  induction l as [|a l IH]; intros Hstep pre b w b' w' HP Hrun.
  - cbn in Hrun. injection Hrun as <- <-. by rewrite app_nil_r.
  - cbn in Hrun. unfold mbind, M_bind, bind in Hrun.
    destruct (f b a E w) as [b1 w1| |] eqn:Hfirst; [|done..].
    replace (pre ++ a :: l)%list with ((pre ++ [a]) ++ l)%list
      by (by rewrite <- app_assoc).
    eapply (IH ltac:(intros; eapply Hstep; [by right | done..]));
      [|exact Hrun].
    eapply Hstep; [by left | done..].
Qed.

(** The entries a [range] loop visits are entries of the map, and with a
    fair order they are all its entries. *)
Lemma range_sound {A} ord (m : gmap string A) k v :
  (k, v) ∈ GoMap.range ord m → m !! k = Some v.
Proof.
  unfold GoMap.range. rewrite list_elem_of_omap.
  intros (k' & _ & Hkv). destruct (m !! k') as [v'|] eqn:Hk'; [|done].
  simpl in Hkv. by injection Hkv as <- <-.
Qed.

Lemma range_complete {A} ord (m : gmap string A) k v :
  GoMap.fair_order ord → m !! k = Some v → (k, v) ∈ GoMap.range ord m.
Proof.
  intros Hfair Hk. unfold GoMap.range. rewrite list_elem_of_omap.
  exists k. split; [|by rewrite Hk].
  rewrite (Hfair _), list_elem_of_fmap. exists (k, v).
  split; [done|]. by apply elem_of_map_to_list.
Qed.

(** ** The batch call *)

Lemma timeOnly_refl w : timeOnly w w.
Proof. by split_and!. Qed.

Lemma timeOnly_tick w w' : timeOnly w w' → timeOnly w (tick w').
Proof. intros (? & ? & ? & ? & ?). split_and!; simpl; [done..|lia]. Qed.

(** What [evaluateFlagsFromAPI] returns, by the outcome of the HTTP call:
    after a failed call, the fallback for every flag asked; after a
    successful call, for each flag, the API result if the response lists
    it (when the iteration is fair), else "not found" if it was asked,
    else nothing. *)
Lemma evaluateFlagsFromAPI_spec e ks uc E w res w1 :
  httpclient.EvaluateFlags (httpClient e) ks uc
    (Environment (evaluator.config e)) E w = Returns res w1 →
  ∃ results w2,
    evaluateFlagsFromAPI e ks uc E w = Returns results w2 ∧
    timeOnly w1 w2 ∧
    match res with
    | inl err =>
        ∀ k, (k ∈ ks → ∃ t, results !! k = Some (fallbackResult k err t)) ∧
             (k ∉ ks → results !! k = None)
    | inr response =>
        (∀ k x, results !! k = Some x →
           (∃ r t, Results response !! k = Some r ∧ x = apiResult k r t) ∨
           (∃ t, k ∈ ks ∧ x = notFoundResult k t)) ∧
        (GoMap.fair_order (mapOrder E) →
         ∀ k,
           match Results response !! k with
           | Some r => ∃ t, results !! k = Some (apiResult k r t)
           | None =>
               (k ∈ ks → ∃ t, results !! k = Some (notFoundResult k t)) ∧
               (k ∉ ks → results !! k = None)
           end)
    end.
Proof.
  intros Hcall. unfold evaluateFlagsFromAPI.
  unfold mbind at 1. unfold M_bind, bind. rewrite Hcall.
  destruct res as [err|response].
  - (* the call failed *)
    destruct (foldM_total
      (λ (results : gmap string FlagResult) flagKey,
         t ← now;
         mret (<[flagKey := mkFlagResult flagKey VNil "error_fallback"
                              EmptyString EmptyString (Some err) t false]>
                 results))
      (λ pre results w', timeOnly w1 w' ∧
         ∀ k, (k ∈ pre → ∃ t, results !! k = Some (fallbackResult k err t)) ∧
              (k ∉ pre → results !! k = None))
      E ks) with (pre := @nil string) (b := (∅ : gmap string FlagResult))
        (w := w1)
      as (results & w2 & Hrun & Htime & Hres).
    + intros pre a b w' _ [Htime Hb]. munfold. eexists _, _.
      split; [reflexivity|]. split; [by apply timeOnly_tick|].
      intros k. destruct (decide (k = a)) as [->|Hne].
      * rewrite lookup_insert_eq. split; [by eauto|].
        intros Hnot. exfalso. apply Hnot. apply elem_of_app. right. by left.
      * rewrite lookup_insert_ne by done. rewrite elem_of_app, list_elem_of_singleton.
        destruct (Hb k) as [Hin Hout].
        split; [intros [?|?]; [by apply Hin | done] | intros ?; apply Hout; tauto].
    + split; [apply timeOnly_refl|]. intros k. split; [by intros ?%elem_of_nil|].
      intros _. apply lookup_empty.
    + exists results, w2. done.
  - (* the call succeeded *)
    munfold.
    destruct (foldM_total
      (λ (results : gmap string FlagResult)
         (entry : string * EvaluateFlagResponse),
         t ← now;
         mret (<[entry.1 := mkFlagResult entry.1 (VBool (Enabled entry.2))
                              "api_evaluation" EmptyString EmptyString None t
                              false]> results))
      (λ pre results w', timeOnly w1 w' ∧
         ∀ k, match results !! k with
              | Some x => ∃ r t, (k, r) ∈ pre ∧ x = apiResult k r t
              | None => ∀ r, (k, r) ∉ pre
              end)
      E (GoMap.range (mapOrder E) (Results response)))
      with (pre := @nil (string * EvaluateFlagResponse))
           (b := (∅ : gmap string FlagResult)) (w := w1)
      as (resultsB & wB & HrunB & HtimeB & HresB).
    + intros pre [a r] b w' _ [Htime Hb]. munfold. eexists _, _.
      split; [reflexivity|]. split; [by apply timeOnly_tick|].
      intros k. simpl. destruct (decide (k = a)) as [->|Hne].
      * rewrite lookup_insert_eq. exists r, (clock E (reads w')).
        split; [|done]. apply elem_of_app. right. by left.
      * rewrite lookup_insert_ne by done. specialize (Hb k).
        destruct (b !! k) as [x|].
        -- destruct Hb as (r' & t & Hin & ->). exists r', t.
           split; [|done]. apply elem_of_app. by left.
        -- intros r' [Hin|Hin%list_elem_of_singleton]%elem_of_app;
             [by apply (Hb r') | congruence].
    + split; [apply timeOnly_refl|]. intros k. rewrite lookup_empty.
      by intros r ?%elem_of_nil.
    + simpl in HresB. munfold. rewrite HrunB.
      destruct (foldM_total
        (λ (results : gmap string FlagResult) flagKey,
           match results !! flagKey with
           | Some _ => mret results
           | None =>
               t ← now;
               mret (<[flagKey := mkFlagResult flagKey VNil "not_found"
                                    EmptyString EmptyString
                                    (Some (errorString
                                             "flag not found in response"))
                                    t false]> results)
           end)
        (λ pre results w', timeOnly w1 w' ∧
           ∀ k, match resultsB !! k with
                | Some x => results !! k = Some x
                | None =>
                    (k ∈ pre → ∃ t, results !! k = Some (notFoundResult k t)) ∧
                    (k ∉ pre → results !! k = None)
                end)
        E ks) with (pre := @nil string) (b := resultsB) (w := wB)
        as (results & w2 & Hrun & Htime & Hres).
      * intros pre a b w' _ [Htime Hb].
        destruct (b !! a) as [x|] eqn:Ha; munfold.
        -- eexists _, _. split; [reflexivity|]. split; [done|].
           intros k. specialize (Hb k). destruct (resultsB !! k); [done|].
           destruct Hb as [Hin Hout]. rewrite elem_of_app, list_elem_of_singleton.
           split; [intros [? | ->]; [by apply Hin|] | intros ?; apply Hout; tauto].
           destruct (decide (a ∈ pre)) as [?|Hnot]; [by apply Hin|].
           rewrite (Hout Hnot) in Ha. done.
        -- eexists _, _. split; [reflexivity|]. split; [by apply timeOnly_tick|].
           intros k. specialize (Hb k). destruct (decide (k = a)) as [->|Hne].
           ++ destruct (resultsB !! a) as [x|]; [congruence|].
              rewrite lookup_insert_eq. split; [by eauto|].
              intros Hnot. exfalso. apply Hnot. apply elem_of_app. right. by left.
           ++ rewrite lookup_insert_ne by done.
              destruct (resultsB !! k); [done|]. destruct Hb as [Hin Hout].
              rewrite elem_of_app, list_elem_of_singleton.
              split; [intros [?|?]; [by apply Hin | done]
                     | intros ?; apply Hout; tauto].
      * split; [done|]. intros k. destruct (resultsB !! k) eqn:Hk; [done|].
        split; [by intros ?%elem_of_nil | done].
      * simpl in Hres. exists results, w2. split; [done|]. split; [done|].
        split.
        -- intros k x Hx. specialize (Hres k). specialize (HresB k).
           destruct (resultsB !! k) as [y|].
           ++ left. destruct HresB as (r & t & Hin & ->).
              apply range_sound in Hin. exists r, t.
              split; [done | congruence].
           ++ right. destruct Hres as [Hin Hout].
              destruct (decide (k ∈ ks)) as [Hk|Hk].
              ** destruct (Hin Hk) as [t Ht]. exists t. split; [done|congruence].
              ** rewrite (Hout Hk) in Hx. done.
        -- intros Hfair k. specialize (Hres k). specialize (HresB k).
           destruct (Results response !! k) as [r|] eqn:Hr.
           ++ destruct (resultsB !! k) as [y|].
              ** destruct HresB as (r' & t & Hin & ->).
                 apply range_sound in Hin. exists t. congruence.
              ** exfalso. apply (HresB r). by apply range_complete.
           ++ destruct (resultsB !! k) as [y|]; [|done].
              destruct HresB as (r' & t & Hin & _).
              apply range_sound in Hin. congruence.
Qed.

(** ** The batch evaluation *)

Lemma staleAt_mono E w w' ck :
  (items (mem w') !! ck = items (mem w) !! ck ∨ items (mem w') !! ck = None) →
  (reads w ≤ reads w')%nat → staleAt E w ck → staleAt E w' ck.
Proof.
  unfold staleAt. intros [-> | ->] Hreads; [|done].
  destruct (items (mem w) !! ck) as [item|]; [|done].
  intros (i & Hi & Hexp). exists i. split; [lia | done].
Qed.

Lemma checkCache_spec e uc acc k E w :
  ∃ w',
    checkCache e uc acc k E w
    = Returns
        (if found (manager.Get (cacheManager w) (generateCacheKey e k uc)
                     (clock E (reads w)))
         then (<[k := withCacheHit
                        (got (manager.Get (cacheManager w)
                                (generateCacheKey e k uc)
                                (clock E (reads w))))]> acc.1, acc.2)
         else (acc.1, (acc.2 ++ [k])%list)) w' ∧
    cacheManager w'
    = after (manager.Get (cacheManager w) (generateCacheKey e k uc)
               (clock E (reads w))) ∧
    disk w' = disk w ∧ closed w' = closed w ∧ exchanges w' = exchanges w ∧
    reads w'
    = (if bool_decide (is_Some (items (mem w) !! generateCacheKey e k uc))
       then S (reads w) else reads w).
Proof.
  unfold checkCache. munfold. cbn.
  destruct (found _); cbn; eexists; (split; [reflexivity|]); done.
Qed.

(** What [partitionCached] leaves: the cache holds the same entries and
    stays healthy; every result taken from the cache is marked as a hit;
    under the cache key of every flag it reports as not cached there is
    nothing fresh. *)
Lemma partitionCached_spec e ks uc E w :
  ∃ uc1 cachedResults uncachedFlags w1,
    partitionCached e ks uc E w
    = Returns (uc1, (cachedResults, uncachedFlags)) w1 ∧
    UserID uc1 = UserID uc ∧
    disk w1 = disk w ∧ closed w1 = closed w ∧ exchanges w1 = exchanges w ∧
    (reads w ≤ reads w1)%nat ∧
    items (mem w1) = items (mem w) ∧
    (cacheOK (cacheManager w) → cacheOK (cacheManager w1)) ∧
    (∀ k r, cachedResults !! k = Some r → CacheHit r = true) ∧
    (∀ k, k ∈ uncachedFlags → k ∈ ks ∧ staleAt E w1 (generateCacheKey e k uc)).
Proof.
  unfold partitionCached.
  assert (∃ uc1 w0, stamp uc E w = Returns uc1 w0 ∧ UserID uc1 = UserID uc ∧
                    timeOnly w w0) as (uc1 & w0 & Hstamp & Hu & Htime).
  { unfold stamp. destruct (GoTime.IsZero (Timestamp uc)); munfold.
    - eexists _, _. split; [reflexivity|]. split; [done|].
      apply (timeOnly_tick w w), timeOnly_refl.
    - eexists _, _. split; [reflexivity|]. split; [done|]. apply timeOnly_refl. }
  destruct Htime as (Hcm0 & Hd0 & Hcl0 & Hx0 & Hr0).
  unfold mbind at 1. unfold M_bind, bind. rewrite Hstamp.
  destruct (foldM_total (checkCache e uc1)
    (λ pre acc w',
       disk w' = disk w ∧ closed w' = closed w ∧ exchanges w' = exchanges w ∧
       (reads w ≤ reads w')%nat ∧ items (mem w') = items (mem w) ∧
       (cacheOK (cacheManager w) → cacheOK (cacheManager w')) ∧
       (∀ k r, acc.1 !! k = Some r → CacheHit r = true) ∧
       (∀ k, k ∈ acc.2 →
             k ∈ pre ∧ staleAt E w' (generateCacheKey e k uc)))
    E ks) with (pre := @nil string)
               (b := ((∅, []) : gmap string FlagResult * list string))
               (w := w0)
    as ([results uncached] & w1 & Hrun & Hd & Hcl & Hx & Hr & Hit & Hok & Hhit & Hst).
  - intros pre a [results uncached] w' _
      (Hd & Hcl & Hx & Hr & Hit & Hok & Hhit & Hst).
    destruct (checkCache_spec e uc1 (results, uncached) a E w')
      as (w2 & Hrun & Hcm2 & Hd2 & Hcl2 & Hx2 & Hr2).
    rewrite (generateCacheKey_UserID e a uc uc1 Hu) in *.
    eexists _, w2. split; [exact Hrun|].
    destruct (manager_Get_spec (cacheManager w') (generateCacheKey e a uc)
                (clock E (reads w'))) as (Hfound & Hgot & Hmem & _).
    assert (items (mem w2) = items (mem w')) as Hit2.
    { unfold mem. rewrite Hcm2, Hmem. apply Get_items. }
    assert (reads w' ≤ reads w2)%nat as Hr2' by (rewrite Hr2; case_bool_decide; lia).
    split_and!; [congruence | congruence | congruence | lia | congruence | | |].
    + intros Hok0. rewrite Hcm2. by apply manager_Get_ok, Hok.
    + destruct (found _); simpl; [|done].
      intros k r. rewrite lookup_insert. case_decide; [by intros [= <-]|].
      apply Hhit.
    + assert (∀ k, k ∈ uncached →
                (k ∈ pre ++ [a])%list ∧ staleAt E w2 (generateCacheKey e k uc))
        as Hold.
      { intros k Hk. destruct (Hst k Hk) as [Hpre Hstale].
        split; [apply elem_of_app; by left|].
        eapply staleAt_mono; [left; by rewrite Hit2 | done | done]. }
      destruct (found (manager.Get _ _ _)) eqn:Hf; simpl; [done|].
      intros k [Hk | ->%list_elem_of_singleton]%elem_of_app; [by apply Hold|].
      split; [apply elem_of_app; right; by left|].
      symmetry in Hfound. apply Get_miss_stale in Hfound.
      unfold staleAt. rewrite Hit2. unfold mem.
      destruct (items (memoryOf (cacheManager w')) !! generateCacheKey e a uc)
        as [item|] eqn:Hitem; [|done].
      exists (reads w'). split; [|exact Hfound].
      rewrite Hr2. unfold mem. rewrite Hitem, bool_decide_true by eauto. lia.
  - simpl. unfold mem. rewrite Hcm0.
    split_and!; [done | done | done | lia | done | done | | ].
    + intros k r. by rewrite lookup_empty.
    + by intros k ?%elem_of_nil.
  - simpl in *. munfold. rewrite Hrun.
    exists uc1, results, uncached, w1.
    split; [done|]. split_and!; [done..|].
    intros k Hk. by destruct (Hst k Hk).
Qed.

Lemma mergeResult_spec e uc results k x E w :
  mergeResult e uc results (k, x) E w
  = match Error x with
    | None =>
        match manager.Set_ (cacheManager w) (generateCacheKey e k uc) x 0
                (clock E (reads w)) (disk w) with
        | None => Hangs
        | Some (cm, d) =>
            Returns (<[k := x]> results)
              (mkWorld cm d (collector w) (closed w) (S (reads w))
                 (exchanges w) (sleeps w) (spawnedDeletes w))
        end
    | Some _ => Returns (<[k := x]> results) w
    end.
Proof.
  unfold mergeResult. simpl. destruct (Error x); [done|]. munfold.
  by destruct (manager.Set_ _ _ _ _ _ _) as [[cm d]|].
Qed.

(** The merge loop, if it returns: every result is one it started with or
    one of the batch; and a cache key with nothing fresh under it stays so
    when the batch has no successful result for its flag. *)
Lemma mergeLoop_partial e uc (batch : gmap string FlagResult) E entries :
  (∀ k x, (k, x) ∈ entries → batch !! k = Some x) →
  ∀ results0 w results w',
    foldM (mergeResult e uc) results0 entries E w = Returns results w' →
    (reads w ≤ reads w')%nat ∧
    (∀ k x, results !! k = Some x →
            results0 !! k = Some x ∨ batch !! k = Some x) ∧
    (∀ k, (∀ x, batch !! k = Some x → is_Some (Error x)) →
          staleAt E w (generateCacheKey e k uc) →
          staleAt E w' (generateCacheKey e k uc)).
Proof.
  intros Hsound results0 w results w' Hrun.
  apply (foldM_partial (mergeResult e uc)
    (λ (pre : list (string * FlagResult)) results w',
       (reads w ≤ reads w')%nat ∧
       (∀ k x, results !! k = Some x →
               results0 !! k = Some x ∨ batch !! k = Some x) ∧
       (∀ k, (∀ x, batch !! k = Some x → is_Some (Error x)) →
             staleAt E w (generateCacheKey e k uc) →
             staleAt E w' (generateCacheKey e k uc)))
    E entries) with (pre := []) (b := results0) (w := w) in Hrun;
    [exact Hrun | | ].
  - intros pre [k x] b w1 b' w1' Hin (Hreads & Hres & Hstale) Hstep.
    rewrite mergeResult_spec in Hstep.
    assert (∀ k' x', <[k := x]> b !! k' = Some x' →
              results0 !! k' = Some x' ∨ batch !! k' = Some x') as Hres'.
    { intros k' x'. rewrite lookup_insert. case_decide as Hk.
      - intros [= <-]. subst k'. right. by apply Hsound.
      - apply Hres. }
    destruct (Error x) as [err|] eqn:Herr.
    + injection Hstep as <- <-. done.
    + destruct (manager.Set_ _ _ _ _ _ _) as [[cm d]|] eqn:Hset; [|done].
      injection Hstep as <- <-. simpl. split_and!; [lia | done |].
      intros k' Hfailed Hst. specialize (Hstale k' Hfailed Hst).
      assert (k' ≠ k) as Hne.
      { intros ->. destruct (Hfailed x (Hsound _ _ Hin)) as [err Herr'].
        congruence. }
      eapply staleAt_mono; [| |exact Hstale]; [|simpl; lia].
      unfold mem. simpl.
      eapply manager_Set_other_keys; [exact Hset|].
      intros Heq. by apply generateCacheKey_inj_flag in Heq.
  - split_and!; [lia | by left | done].
Qed.


(** C8, the claim as stated fails.  Two inputs that differ in the flag key
    and in the user identity, under the same environment, get the same
    cache key: the separators can be part of the components. *)
Lemma generateCacheKey_collision :
  generateCacheKey (mkEvaluator (mkHTTPClient "http://host" "key" 3)
                      (mkConfig "prod"))
    "a:user:b" (mkUserContext "c" 0)
  = generateCacheKey (mkEvaluator (mkHTTPClient "http://host" "key" 3)
                        (mkConfig "prod"))
      "a" (mkUserContext "b:user:c" 0)
  ∧ "a:user:b" ≠ "a"
  ∧ UserID (mkUserContext "c" 0) ≠ UserID (mkUserContext "b:user:c" 0).
Proof. split_and!; [reflexivity | discriminate | discriminate]. Qed.

(** C8, amended.  The cache key is a function of the flag key, the user
    identity and the environment alone: equal triples give equal keys,
    whatever else the evaluator and the user context hold.  The key
    changes when exactly one of the three components changes.  It is
    injective on the triples whose flag key and user identity hold no
    colon. *)
Theorem generateCacheKey_deterministic_and_separately_injective
    (e1 e2 : Evaluator) (f1 f2 : string) (uc1 uc2 : UserContext) :
  (f1 = f2 → UserID uc1 = UserID uc2 →
   Environment (evaluator.config e1) = Environment (evaluator.config e2) →
   generateCacheKey e1 f1 uc1 = generateCacheKey e2 f2 uc2) ∧
  (generateCacheKey e1 f1 uc1 = generateCacheKey e2 f2 uc2 →
   (UserID uc1 = UserID uc2 →
    Environment (evaluator.config e1) = Environment (evaluator.config e2) → f1 = f2) ∧
   (f1 = f2 → Environment (evaluator.config e1) = Environment (evaluator.config e2) →
    UserID uc1 = UserID uc2) ∧
   (f1 = f2 → UserID uc1 = UserID uc2 →
    Environment (evaluator.config e1) = Environment (evaluator.config e2)) ∧
   (colonFree f1 = true → colonFree f2 = true →
    colonFree (UserID uc1) = true → colonFree (UserID uc2) = true →
    f1 = f2 ∧ UserID uc1 = UserID uc2 ∧
    Environment (evaluator.config e1) = Environment (evaluator.config e2))).
Proof.
  unfold generateCacheKey. split.
  { by intros -> -> ->. }
  intros Heq. apply (inj (String.app _)) in Heq. split_and!.
  - intros Hu He. rewrite Hu, He in Heq. by apply StringFacts.app_inj_r in Heq.
  - intros -> He. rewrite He in Heq.
    do 2 apply (inj (String.app _)) in Heq.
    by apply StringFacts.app_inj_r in Heq.
  - intros -> Hu. rewrite Hu in Heq.
    by do 4 apply (inj (String.app _)) in Heq.
  - intros Hf1 Hf2 Hu1 Hu2.
    apply (StringFacts.app_colon_inj f1 f2) in Heq as [-> Heq]; [|done..].
    apply (inj (String.app "user:")) in Heq.
    apply (StringFacts.app_colon_inj (UserID uc1) (UserID uc2)) in Heq
      as [-> Heq]; [|done..].
    by apply (inj (String.app "env:")) in Heq.
Qed.

Lemma Delete_only_deletes c k k' :
  items (cache.Delete c k) !! k' = items c !! k'
  ∨ items (cache.Delete c k) !! k' = None.
Proof.
  unfold cache.Delete. destruct (items c !! k); [|by left]. simpl.
  destruct (decide (k = k')) as [->|Hne].
  - right. apply lookup_delete_eq.
  - left. by apply lookup_delete_ne.
Qed.

Lemma staleAt_runSpawned E w ck : staleAt E w ck → staleAt E (runSpawned w) ck.
Proof.
  intros Hstale.
  apply (staleAt_mono E w (runSpawned w) ck); [|done|exact Hstale].
  unfold mem, runSpawned. simpl.
  induction (spawnedDeletes w) as [|k l IH]; [by left|]. simpl.
  assert (∀ cm, items (memoryOf (runSpawnedDelete cm k)) !! ck
                = items (memoryOf cm) !! ck
                ∨ items (memoryOf (runSpawnedDelete cm k)) !! ck = None)
    as Hone.
  { intros [[c|[mc fp]] cfg]; apply Delete_only_deletes. }
  destruct (Hone (foldr (λ k cm, runSpawnedDelete cm k) (cacheManager w) l))
    as [Heq|Hnone]; [|by right].
  rewrite Heq. exact IH.
Qed.

Lemma staleAt_Get_miss E w ck t :
  staleAt E w ck → (∀ i, (i < reads w)%nat → clock E i ≤ t) →
  found (manager.Get (cacheManager w) ck t) = false.
Proof.
  unfold staleAt, mem. intros Hstale Hlate.
  destruct (manager_Get_spec (cacheManager w) ck t) as (-> & _).
  apply stale_Get_miss.
  destruct (items (memoryOf (cacheManager w)) !! ck) as [item|]; [|done].
  destruct Hstale as (i & Hi & Hexp). specialize (Hlate i Hi). lia.
Qed.

Lemma cacheSet_exchanges k x ttl E w u w' :
  cacheSet k x ttl E w = Returns u w' → exchanges w' = exchanges w.
Proof.
  unfold cacheSet. destruct (manager.Set_ _ _ _ _ _ _) as [[cm d]|]; [|done].
  by intros [= _ <-].
Qed.

(** C3.  Failures are not cached.

    Single flag: take a lookup that misses and an HTTP call that fails
    with [err].  Then [EvaluateFlag] returns the caller's default with
    reason [error_fallback] and [err] attached, and leaves the cache and
    the snapshot file as they were.  With a clock that does not run
    backwards and a [retryAttempts] that is not negative, the next call for
    the same flag and user, before or after the [Delete] goroutines
    started so far have run, misses the cache again and makes at least one
    more HTTP exchange.

    Batch: in whatever [EvaluateFlags] returns, a result that is not a
    cache hit and carries an error has nothing fresh under its cache key:
    a [Get] at any instant not before the clock readings made so far
    misses. *)
Theorem failed_evaluation_is_not_cached (E : Env) (e : Evaluator) :
  (∀ flagKey defaultValue userContext uc1 cached w w1 w2 err,
     lookupFlag e flagKey userContext E w
     = Returns (uc1, (cached, false)) w1 →
     (record RecordCacheMiss;;
      httpclient.EvaluateFlag (httpClient e) flagKey uc1
        (Environment (evaluator.config e))) E w1 = Returns (inl err) w2 →
     ∃ w3,
       evaluator.EvaluateFlag e flagKey defaultValue userContext E w
       = Returns (mkFlagResult flagKey defaultValue "error_fallback"
                    EmptyString EmptyString (Some err) (clock E (reads w2))
                    false) w3 ∧
       cacheManager w3 = cacheManager w ∧ disk w3 = disk w ∧
       ((∀ i j, (i ≤ j)%nat → clock E i ≤ clock E j) →
        0 ≤ retryAttempts (httpClient e) →
        ∀ w3' defaultValue' userContext',
          w3' = w3 ∨ w3' = runSpawned w3 →
          UserID userContext' = UserID userContext →
          (∃ uc2 cached2 w4,
             lookupFlag e flagKey userContext' E w3'
             = Returns (uc2, (cached2, false)) w4) ∧
          (∀ result w5,
             evaluator.EvaluateFlag e flagKey defaultValue' userContext' E w3'
             = Returns result w5 →
             (exchanges w3 < exchanges w5)%nat))) ∧
  (∀ flagKeys userContext w results w' k r,
     evaluator.EvaluateFlags e flagKeys userContext E w = Returns results w' →
     results !! k = Some r → CacheHit r = false → is_Some (Error r) →
     ∀ t, (∀ i, (i < reads w')%nat → clock E i ≤ t) →
          found (manager.Get (cacheManager w')
                   (generateCacheKey e k userContext) t) = false).
Proof.
  split.
  - intros flagKey defaultValue userContext uc1 cached w w1 w2 err Hlook Hfetch.
    exists (tick w2).
    rewrite (EvaluateFlag_after_miss _ _ defaultValue _ _ _ _ _ _ _ _
               Hlook Hfetch).
    destruct (lookupFlag_miss _ _ _ _ _ _ _ _ Hlook)
      as (Hu1 & Hcm1 & Hd1 & _ & _ & _ & Hstale1).
    unfold mbind, M_bind, bind, record in Hfetch.
    destruct (fetch_quiet (httpClient e) flagKey uc1
                (Environment (evaluator.config e)) E
                (mkWorld (cacheManager w1) (disk w1)
                   (RecordCacheMiss (collector w1)) (closed w1) (reads w1)
                   (exchanges w1) (sleeps w1) (spawnedDeletes w1)))
      as (res & w2' & Hrun & Hcm2 & Hd2 & _ & Hr2 & _).
    rewrite Hrun in Hfetch. injection Hfetch as -> ->. cbn in Hcm2, Hd2, Hr2.
    split; [done|]. split; [simpl; congruence|]. split; [simpl; congruence|].
    intros Hmono Hretry w3' defaultValue' userContext' Hw3' Hsame.
    assert (staleAt E (tick w2) (generateCacheKey e flagKey userContext))
      as Hstale3.
    { eapply staleAt_mono; [| |exact Hstale1]; [|simpl; lia].
      left. unfold mem. simpl. by rewrite Hcm2. }
    assert (staleAt E w3' (generateCacheKey e flagKey userContext) ∧
            reads w3' = reads (tick w2) ∧
            exchanges w3' = exchanges (tick w2)) as (Hstale3' & Hr3' & Hx3').
    { destruct Hw3' as [-> | ->]; [done|].
      split; [by apply staleAt_runSpawned | done]. }
    destruct (lookupFlag_spec e flagKey userContext' E w3')
      as (uc2 & w4 & i & Hlook2 & Hu2 & Hcm4 & Hd4 & Hcl4 & Hx4 & Hi & _).
    rewrite (generateCacheKey_UserID e flagKey userContext userContext' Hsame)
      in Hlook2, Hcm4.
    assert (found (manager.Get (cacheManager w3')
                     (generateCacheKey e flagKey userContext) (clock E i))
            = false) as Hmiss.
    { apply (staleAt_Get_miss E); [done|]. intros j Hj. apply Hmono. lia. }
    rewrite Hmiss in Hlook2. split; [by eauto|].
    intros result w5.
    destruct (fetch_quiet (httpClient e) flagKey uc2
                (Environment (evaluator.config e)) E
                (mkWorld (cacheManager w4) (disk w4)
                   (RecordCacheMiss (collector w4)) (closed w4) (reads w4)
                   (exchanges w4) (sleeps w4) (spawnedDeletes w4)))
      as (res' & w5' & Hrun' & _ & _ & _ & _ & _ & Hstrict).
    specialize (Hstrict Hretry). cbn in Hstrict.
    rewrite (EvaluateFlag_after_miss _ _ defaultValue' _ _ _ _ _ _ res' w5'
               Hlook2); [|by munfold].
    destruct res' as [err'|response].
    + intros [= _ <-]. simpl in *. lia.
    + unfold mbind, M_bind, bind.
      destruct (cacheSet _ _ _ E (tick w5')) as [u w6| |] eqn:Hset; [|done..].
      apply cacheSet_exchanges in Hset. unfold mret, M_ret, ret.
      intros [= _ <-]. simpl in *. lia.
  - intros flagKeys userContext w results w' k r Hrun Hk Hhit Herr t Hlate.
    unfold evaluator.EvaluateFlags in Hrun.
    destruct (partitionCached_spec e flagKeys userContext E w)
      as (uc1 & cachedResults & uncachedFlags & w1 & Hpart & Hu1 & _ & _ & _ &
          _ & _ & _ & Hhits & Hstale).
    unfold mbind at 1 in Hrun. unfold M_bind, bind in Hrun.
    rewrite Hpart in Hrun. simpl in Hrun.
    case_bool_decide as Hnone.
    { injection Hrun as <- <-. rewrite (Hhits k r Hk) in Hhit. done. }
    destruct (batch_fetch_quiet (httpClient e) uncachedFlags uc1
                (Environment (evaluator.config e)) E w1)
      as (res & wf & Hcall & Hcmf & _ & _ & Hrf & _).
    destruct (evaluateFlagsFromAPI_spec e uncachedFlags uc1 E w1 res wf Hcall)
      as (batch & w2 & Hbatch & (Hcm2 & _ & _ & _ & Hr2) & Hshape).
    unfold mbind, M_bind, bind, rangeMap in Hrun. rewrite Hbatch in Hrun.
    destruct (mergeLoop_partial e uc1 batch E
                (GoMap.range (mapOrder E) batch)
                ltac:(intros; by eapply range_sound)
                cachedResults w2 results w' Hrun)
      as (Hr' & Hfrom & Hkeep).
    assert (batch !! k = Some r) as Hbk.
    { destruct (Hfrom k r Hk) as [Hc|?]; [|done].
      rewrite (Hhits k r Hc) in Hhit. done. }
    assert (k ∈ uncachedFlags) as Hunc.
    { destruct res as [err|response].
      - destruct (Hshape k) as [_ Hout].
        destruct (decide (k ∈ uncachedFlags)); [done|].
        rewrite Hout in Hbk; done.
      - destruct Hshape as [Hsound _].
        destruct (Hsound k r Hbk) as [(r' & t' & _ & ->)|(t' & ? & _)];
          [|done].
        by destruct Herr. }
    rewrite <- (generateCacheKey_UserID e k userContext uc1 Hu1).
    apply (staleAt_Get_miss E); [|done].
    apply Hkeep; [intros x Hx; congruence|].
    destruct (Hstale k Hunc) as [_ Hst].
    rewrite (generateCacheKey_UserID e k userContext uc1 Hu1).
    eapply staleAt_mono; [| |exact Hst]; [|lia].
    left. unfold mem. by rewrite Hcm2, Hcmf.
Qed.

(** C3, on a backend that answers 502: the caller's default comes back
    with the error, and the cache is as it was. *)
Lemma failed_evaluation_is_not_cached_witness :
  ∃ err t w3,
    evaluator.EvaluateFlag scenario.theEvaluator "f" (VString "fallback")
      scenario.user1 scenario.failing scenario.world0
    = Returns (mkFlagResult "f" (VString "fallback") "error_fallback"
                 EmptyString EmptyString (Some err) t false) w3 ∧
    cacheManager w3 = cacheManager scenario.world0.
Proof.
  edestruct (proj1 (failed_evaluation_is_not_cached scenario.failing
                      scenario.theEvaluator))
    with (flagKey := "f") (defaultValue := VString "fallback")
         (userContext := scenario.user1) (w := scenario.world0)
    as (w3 & Hrun & Hcm & _).
  - vm_compute. reflexivity.
  - vm_compute. reflexivity.
  - eexists _, _, w3. split; [exact Hrun | exact Hcm].
Defined.



(** C10.  A flag resolved fresh from the API is a boolean.  Take an open
    client on a healthy cache, a lookup that misses, and an HTTP call that
    succeeds with [response].  Then [EvaluateFlag] returns a result whose
    [Value] is the boolean [response.Enabled], with reason
    [api_evaluation] and no error, whatever default the caller passed; so
    [EvaluateFlagString], [EvaluateFlagInt] and [EvaluateFlagFloat] return
    the caller's default, and [EvaluateFlagBool] returns
    [response.Enabled]. *)
Theorem fresh_flag_value_is_boolean (E : Env) (c : variably.VariablyClient)
    (flagKey : string) (userContext uc1 : UserContext) (cached : FlagResult)
    (w w1 w2 : World) (response : EvaluateFlagResponse) :
  closed w = false →
  cacheOK (cacheManager w) →
  lookupFlag (variably.evaluator c) flagKey userContext E w
  = Returns (uc1, (cached, false)) w1 →
  (record RecordCacheMiss;;
   httpclient.EvaluateFlag (httpClient (variably.evaluator c)) flagKey uc1
     (Environment (evaluator.config (variably.evaluator c)))) E w1
  = Returns (inr response) w2 →
  (∀ defaultValue, ∃ w3,
     variably.EvaluateFlag c flagKey defaultValue userContext E w
     = Returns (mkFlagResult flagKey (VBool (Enabled response))
                  "api_evaluation" EmptyString EmptyString None
                  (clock E (reads w2)) false) w3) ∧
  (∀ defaultValue, ∃ w3,
     variably.EvaluateFlagString c flagKey defaultValue userContext E w
     = Returns defaultValue w3) ∧
  (∀ defaultValue, ∃ w3,
     variably.EvaluateFlagInt c flagKey defaultValue userContext E w
     = Returns defaultValue w3) ∧
  (∀ defaultValue, ∃ w3,
     variably.EvaluateFlagFloat c flagKey defaultValue userContext E w
     = Returns defaultValue w3) ∧
  (∀ defaultValue, ∃ w3,
     variably.EvaluateFlagBool c flagKey defaultValue userContext E w
     = Returns (Enabled response) w3).
Proof.
  intros Hopen Hok Hlook Hfetch.
  assert (∀ defaultValue, ∃ w3,
     variably.EvaluateFlag c flagKey defaultValue userContext E w
     = Returns (mkFlagResult flagKey (VBool (Enabled response))
                  "api_evaluation" EmptyString EmptyString None
                  (clock E (reads w2)) false) w3) as Hfull.
  { intros dv. unfold variably.EvaluateFlag, variably.ensureNotClosed.
    unfold mbind at 1. unfold M_bind, bind. rewrite Hopen.
    rewrite (EvaluateFlag_after_miss _ _ dv _ _ _ _ _ _ _ _ Hlook Hfetch).
    destruct (lookupFlag_miss _ _ _ _ _ _ _ _ Hlook)
      as (_ & Hcm1 & _).
    unfold mbind, M_bind, bind, record in Hfetch.
    destruct (fetch_quiet (httpClient (variably.evaluator c)) flagKey uc1
                (Environment (evaluator.config (variably.evaluator c))) E
                (mkWorld (cacheManager w1) (disk w1)
                   (RecordCacheMiss (collector w1)) (closed w1) (reads w1)
                   (exchanges w1) (sleeps w1) (spawnedDeletes w1)))
      as (res & w2' & Hrun & Hcm2 & _).
    rewrite Hrun in Hfetch. injection Hfetch as -> ->. cbn in Hcm2.
    munfold. cbn.
    destruct (manager_Set_ok (cacheManager w2) (generateCacheKey
                (variably.evaluator c) flagKey uc1)
                (mkFlagResult flagKey (VBool (Enabled response))
                   "api_evaluation" EmptyString EmptyString None
                   (clock E (reads w2)) false) 0 (clock E (S (reads w2)))
                (disk w2)) as (cm' & d' & -> & _).
    { by rewrite Hcm2, Hcm1. }
    eauto. }
  split; [exact Hfull|].
  split_and!; intros d.
  - destruct (Hfull (VString d)) as [w3 Hrun]. exists w3.
    unfold variably.EvaluateFlagString, mbind, M_bind, bind. by rewrite Hrun.
  - destruct (Hfull (VInt d)) as [w3 Hrun]. exists w3.
    unfold variably.EvaluateFlagInt, mbind, M_bind, bind. by rewrite Hrun.
  - destruct (Hfull (VFloat64 d)) as [w3 Hrun]. exists w3.
    unfold variably.EvaluateFlagFloat, mbind, M_bind, bind. by rewrite Hrun.
  - destruct (Hfull (VBool d)) as [w3 Hrun]. exists w3.
    unfold variably.EvaluateFlagBool, mbind, M_bind, bind. by rewrite Hrun.
Qed.

(** C10, on a healthy backend and an empty cache: the flag is enabled, and
    the string accessor hands back the caller's default. *)
Lemma fresh_flag_value_is_boolean_witness :
  ∃ w3,
    variably.EvaluateFlagString scenario.theClient "f" "fallback"
      scenario.user1 scenario.healthy scenario.world0
    = Returns "fallback" w3.
Proof.
  refine (proj1 (proj2
            (fresh_flag_value_is_boolean scenario.healthy scenario.theClient
               "f" scenario.user1 _ _ scenario.world0 _ _ scenario.flagOn
               eq_refl world0_ok _ _)) "fallback").
  - vm_compute. reflexivity.
  - vm_compute. reflexivity.
Defined.

End EvaluatorFacts.

(** ** The snapshot file *)

Module PersistenceFacts.
Import types cache persistent predicates.
Import CacheFacts.

(** A [Set] of a new key into a cache with room left inserts at the front
    and evicts nothing. *)
Lemma Set_new_fits c k result ttl now :
  items c !! k = None → Z.of_nat (size (items c)) < maxSize c →
  cache.Set_ c k result ttl now
  = Some (mkMemoryCache (maxSize c)
            (<[k := mkCacheItem k result
                      (now + if bool_decide (ttl = 0) then defaultTTL c
                             else ttl)]> (items c))
            (k :: lruList c) (defaultTTL c)).
Proof.
  intros Hk Hroom. unfold cache.Set_, evictIfNeeded, PushFront, GoTime.Add.
  rewrite Hk. cbn [maxSize items lruList defaultTTL].
  assert (∀ back (its : gmap string cacheItem),
            Z.of_nat (size its) ≤ maxSize c →
            evictLoop (maxSize c) back its = Some (back, its)) as Hloop.
  { intros back its Hsz. destruct back; simpl;
      by rewrite bool_decide_false by lia. }
  rewrite Hloop.
  - by rewrite reverse_involutive.
  - rewrite map_size_insert_None by done. lia.
Qed.

(** With a fair order, a [range] loop visits each entry of the map
    once. *)
Lemma range_Permutation {A} ord (m : gmap string A) :
  GoMap.fair_order ord → GoMap.range ord m ≡ₚ map_to_list m.
Proof.
  intros Hfair. unfold GoMap.range. rewrite (Hfair _).
  assert (∀ l : list (string * A),
            (∀ k v, (k, v) ∈ l → m !! k = Some v) →
            omap (λ k, (λ v, (k, v)) <$> m !! k) l.*1 = l) as Hall.
  { induction l as [|[k v] l IH]; intros Hl; [done|].
    simpl. rewrite (Hl k v) by (by left). simpl. f_equal.
    apply IH. intros k' v' Hin. apply Hl. by right. }
  rewrite Hall; [done|]. intros k v. by rewrite elem_of_map_to_list.
Qed.

Lemma loadItems_spec clk cap ttl0 entries : ∀ mc,
  NoDup entries.*1 →
  maxSize mc = cap → defaultTTL mc = ttl0 →
  (∀ k, k ∈ entries.*1 → items mc !! k = None) →
  Z.of_nat (size (items mc) + length entries) ≤ cap →
  ∃ mc',
    loadItems clk entries mc = Some mc' ∧
    ∀ k,
      items mc' !! k
      = match (list_to_map entries : gmap string persistentCacheItem) !! k with
        | Some p =>
            if bool_decide (load_now clk < item_Expiration p)
            then Some (mkCacheItem k (item_Value p)
                         (reloadedExpiration clk ttl0 k (item_Expiration p)))
            else items mc !! k
        | None => items mc !! k
        end.
Proof.
  induction entries as [|[k p] entries IH];
    intros mc Hnd Hcap Httl Hfresh Hroom.
  - exists mc. split; [done|]. intros k.
    by rewrite list_to_map_nil, lookup_empty.
  - simpl in Hnd. apply NoDup_cons in Hnd as [Hk Hnd].
    simpl loadItems. unfold GoTime.Before, GoTime.Until.
    case_bool_decide as Hlive.
    + rewrite Set_new_fits;
        [|apply Hfresh; by left | simpl in Hroom; lia].
      match goal with
      | |- context [loadItems clk entries ?m] =>
          destruct (IH m) as (mc' & Hload & Hitems)
      end; [done | done | done | | |].
      * intros k' Hk'. simpl. rewrite lookup_insert_ne by (by intros ->).
        apply Hfresh. by right.
      * simpl. rewrite map_size_insert_None by (apply Hfresh; by left).
        simpl in Hroom. lia.
      * exists mc'. split; [exact Hload|]. intros k'.
        rewrite Hitems, list_to_map_cons.
        simpl. destruct (decide (k' = k)) as [->|Hne].
        -- rewrite (not_elem_of_list_to_map_1 entries k Hk).
           rewrite !lookup_insert_eq.
           rewrite (bool_decide_true (load_now clk < item_Expiration p))
             by done.
           f_equal. f_equal. unfold reloadedExpiration. rewrite Httl.
           repeat case_bool_decide; lia.
        -- rewrite !(lookup_insert_ne _ k k') by done. done.
    + destruct (IH mc) as (mc' & Hload & Hitems);
        [done | done | done | | |].
      * intros k' Hk'. apply Hfresh. by right.
      * simpl in Hroom. lia.
      * exists mc'. split; [exact Hload|]. intros k'.
        rewrite Hitems, list_to_map_cons.
        simpl. destruct (decide (k' = k)) as [->|Hne].
        -- rewrite (not_elem_of_list_to_map_1 entries k Hk).
           rewrite lookup_insert_eq.
           by rewrite (bool_decide_false (load_now clk < item_Expiration p)).
        -- rewrite !(lookup_insert_ne _ k k') by done. done.
Qed.

(** A snapshot that marshals is written as its round trip, entry by
    entry. *)
Lemma jsonMarshal_Some data content :
  jsonMarshal data = Some content →
  content = SnapshotJSON
              (mkPersistentCacheData (omap roundTripItem (Items data))) ∧
  ∀ k p, Items data !! k = Some p → is_Some (roundTripItem p).
Proof.
  unfold jsonMarshal. case_bool_decide as Hall; [|done].
  intros [= <-]. split; [done|]. intros k p Hk. by apply (Hall k p).
Qed.

Lemma roundTripItem_Some p q :
  roundTripItem p = Some q →
  json.roundTripFlagResult (item_Value p) = Some (item_Value q) ∧
  item_Expiration q = item_Expiration p.
Proof.
  unfold roundTripItem, json.roundTripTime.
  destruct (json.roundTripFlagResult (item_Value p)) as [v|]; [|done].
  case_bool_decide; [|done]. by intros [= <-].
Qed.

Lemma saveToFile_written c d content :
  jsonMarshal (snapshot c) = Some content → writable d →
  files (saveToFile c d) !! filePath c = Some content.
Proof.
  unfold saveToFile, writable. intros -> Hw.
  destruct (head (faults d)) as [[[]|]|]; try done;
    simpl; apply lookup_insert_eq.
Qed.

(** C9, the claim as stated fails.  A result written with an error
    attached comes back from the snapshot without it: [FlagResult.Error]
    is tagged [json:"-"] and is not part of the file. *)
Lemma reload_drops_the_error :
  scenario.reloadedValue scenario.failedResult
  = Some (mkFlagResult "a" (VBool true) "error_fallback" EmptyString
            EmptyString None 0 false) ∧
  scenario.reloadedValue scenario.failedResult ≠ Some scenario.failedResult.
Proof. split; [vm_compute; reflexivity | vm_compute; discriminate]. Qed.

(** C9, amended.  Let [c'] and [d'] be a persistent cache and the disk
    after a [Set], [Delete] or [Clear], where the snapshot marshals and the
    write meets no fault.  A fresh persistent cache on the same path, with
    a fair map iteration and a capacity that holds the entries of [c'],
    loads, and holds for each key:
    - nothing, when [c'] has no entry, or an entry whose [expiration] is not
      after the instant the load starts;
    - otherwise the entry of [c'] with its value as JSON reads it back
      (without the [Error] field, numbers as [float64]) and its expiry
      instant later by the time that passed between the two clock readings
      the load makes for the key (unless [time.Until] reads the clock at
      the very instant of expiry: then the entry gets the default TTL). *)
Theorem snapshot_round_trip (c : PersistentCache) (d : Disk)
    (c' : PersistentCache) (d' : Disk) (cap ttl0 : Z) (ord : GoMap.KeyOrder)
    (clk : LoadClock) :
  written c d c' d' →
  is_Some (jsonMarshal (snapshot c')) →
  writable d →
  GoMap.fair_order ord →
  cache.Size (memoryCache c') ≤ cap →
  ∃ fresh,
    NewPersistentCache cap ttl0 (filePath c') ord clk d' = Some fresh ∧
    filePath fresh = filePath c' ∧
    ∀ k,
      match items (memoryCache c') !! k with
      | Some item =>
          if bool_decide (load_now clk < expiration item) then
            ∃ v, json.roundTripFlagResult (value item) = Some v ∧
                 items (memoryCache fresh) !! k
                 = Some (mkCacheItem k v
                           (reloadedExpiration clk ttl0 k (expiration item)))
          else items (memoryCache fresh) !! k = None
      | None => items (memoryCache fresh) !! k = None
      end.
Proof.
  intros Hwritten [content Hmarshal] Hwritable Hfair Hsize.
  assert (d' = saveToFile c' d) as ->.
  { destruct Hwritten as [(k & result & ttl & now & Hset)|[(k & Hdel)|Hclear]].
    - unfold persistent.Set_ in Hset.
      destruct (cache.Set_ _ _ _ _ _); [|done]. by injection Hset as <- <-.
    - unfold persistent.Delete in Hdel. by injection Hdel as <- <-.
    - unfold persistent.Clear in Hclear. by injection Hclear as <- <-. }
  pose proof (saveToFile_written c' d content Hmarshal Hwritable) as Hfile.
  destruct (jsonMarshal_Some _ _ Hmarshal) as [-> Hall].
  set (saved := omap roundTripItem (Items (snapshot c'))) in *.
  pose proof (range_Permutation ord saved Hfair) as Hperm.
  assert (NoDup (GoMap.range ord saved).*1) as Hnd.
  { rewrite Hperm. apply NoDup_fst_map_to_list. }
  destruct (loadItems_spec clk cap ttl0 (GoMap.range ord saved)
              (NewMemoryCache cap ttl0) Hnd eq_refl eq_refl)
    as (mc & Hload & Hitems).
  { intros k _. apply lookup_empty. }
  { simpl. rewrite map_size_empty, Hperm, length_map_to_list. simpl.
    unfold cache.Size in Hsize.
    assert (size saved ≤ size (items (memoryCache c')))%nat; [|lia].
    unfold saved, snapshot. simpl.
    rewrite <- (map_size_fmap
                  (λ item, mkPersistentCacheItem (value item) (expiration item))
                  (items (memoryCache c'))).
    rewrite <- !(size_dom (D := gset string)).
    apply subseteq_size, dom_omap_subseteq. }
  exists (mkPersistentCache mc (filePath c')).
  split.
  { unfold NewPersistentCache, loadFromFile. simpl. rewrite Hfile. simpl.
    fold saved. by rewrite Hload. }
  split; [done|]. intros k. simpl. rewrite Hitems.
  unfold NewMemoryCache. cbn [items]. rewrite lookup_empty.
  assert ((list_to_map (GoMap.range ord saved)
           : gmap string persistentCacheItem) !! k = saved !! k) as ->.
  { apply option_eq. intros p. rewrite <- elem_of_list_to_map by done.
    split; [apply EvaluatorFacts.range_sound
           | by apply EvaluatorFacts.range_complete]. }
  unfold saved, snapshot. simpl. rewrite lookup_omap, lookup_fmap.
  destruct (items (memoryCache c') !! k) as [item|] eqn:Hk; simpl; [|done].
  destruct (Hall k (mkPersistentCacheItem (value item) (expiration item)))
    as [q Hq].
  { simpl. by rewrite lookup_fmap, Hk. }
  rewrite Hq. destruct (roundTripItem_Some _ _ Hq) as [Hv He]. simpl in Hv, He.
  rewrite He. case_bool_decide; [|done].
  exists (item_Value q). split; [done|]. done.
Qed.

(** C9 amended, on an entry without an error written through the store:
    it is there after a reload. *)
Lemma snapshot_round_trip_witness :
  scenario.reloadedValue
    (mkFlagResult "a" (VBool true) "api_evaluation" EmptyString EmptyString
       None 0 false)
  = Some (mkFlagResult "a" (VBool true) "api_evaluation" EmptyString
            EmptyString None 0 false).
Proof.
  edestruct (snapshot_round_trip scenario.store0 scenario.disk0)
    with (cap := 10) (ttl0 := 5 * GoTime.minute) (ord := λ l : list string, l)
         (clk := scenario.loadAtOneSecond)
    as (fresh & Hload & _ & Hitems).
  - left. exists "a", (mkFlagResult "a" (VBool true) "api_evaluation"
                         EmptyString EmptyString None 0 false),
      GoTime.minute, 0. vm_compute. reflexivity.
  - vm_compute. eauto.
  - exact I.
  - intros l. reflexivity.
  - vm_compute. discriminate.
  - pose proof (Hitems "a") as Ha. vm_compute in Ha.
    destruct Ha as (v & [= <-] & Ha).
    unfold scenario.reloadedValue.
    change (persistent.Set_ scenario.store0 "a" _ GoTime.minute 0
              scenario.disk0)
      with (persistent.Set_ scenario.store0 "a"
              (mkFlagResult "a" (VBool true) "api_evaluation" EmptyString
                 EmptyString None 0 false) GoTime.minute 0 scenario.disk0).
    vm_compute in Hload. vm_compute. by injection Hload as <-.
Defined.

End PersistenceFacts.

(** * Properties read off the code *)

(** ** The cache: round trips, sweeps and edge capacities *)

Module CacheLaws.
Import types cache history predicates.

Lemma Get_of_item c k item later :
  items c !! k = Some item →
  found (Get c k later) = bool_decide (later ≤ expiration item) ∧
  (found (Get c k later) = true → got (Get c k later) = value item).
Proof.
  intros Hk. unfold Get, GoTime.After. rewrite Hk.
  case_bool_decide as Hexp; simpl.
  - rewrite bool_decide_false by lia. done.
  - rewrite bool_decide_true by lia. done.
Qed.

Lemma Delete_items c k : items (Delete c k) = delete k (items c).
Proof.
  unfold Delete. destruct (items c !! k) eqn:Hk; [done|].
  by rewrite delete_id.
Qed.

Lemma Delete_lruList c k : wf c → lruList (Delete c k) = Remove k (lruList c).
Proof.
  intros [_ Hdom]. unfold Delete. destruct (items c !! k) eqn:Hk; [done|].
  rewrite CacheFacts.Remove_absent; [done|]. rewrite Hdom, Hk. by intros [? ?].
Qed.

Lemma Delete_wf c k : wf c → wf (Delete c k).
Proof.
  intros Hwf. pose proof Hwf as [Hnd Hdom]. split.
  - rewrite Delete_lruList by done. by apply NoDup_filter.
  - intros k'. rewrite Delete_lruList, Delete_items by done.
    rewrite CacheFacts.elem_of_Remove, lookup_delete_is_Some, Hdom.
    split; intros [? ?]; split; congruence.
Qed.

(** On a well-formed cache with room for one entry, [Set] returns and
    stores the result under the key, to expire [ttl] (or, for a zero
    [ttl], the default TTL) after [now]. *)
Lemma Set_stores c k result ttl now :
  wf c → 1 ≤ maxSize c →
  ∃ c' kk,
    Set_ c k result ttl now = Some c' ∧
    items c' !! k
    = Some (mkCacheItem kk result
              (now + if bool_decide (ttl = 0) then defaultTTL c else ttl)).
Proof.
  intros Hwf Hcap. destruct (items c !! k) as [item|] eqn:Hk.
  - eexists _, (key item).
    rewrite (CacheFacts.Set_existing_spec _ _ _ _ _ _ Hk).
    split; [done|]. simpl. apply lookup_insert_eq.
  - destruct (CacheFacts.Set_new_spec c k result ttl now Hwf ltac:(lia) Hk)
      as (c' & Hset & _ & _ & Hlist & Hlook).
    exists c', k. split; [done|]. rewrite Hlook, bool_decide_true.
    + apply lookup_insert_eq.
    + rewrite Hlist. destruct (Z.to_nat (maxSize c)) eqn:Hn; [lia|].
      simpl. by left.
Qed.

(** X1.  Round trip of the cache.  On a well-formed cache with room for
    at least one entry, [Set] of any key returns, and a [Get] of that key
    at the instant [later] finds the entry exactly when [later] is not
    after the instant of the [Set] plus the TTL given (the default TTL of
    the cache when the TTL given is 0); what it finds is the result that
    was stored. *)
Theorem Set_then_Get (c : MemoryCache) (k : string) (result : FlagResult)
    (ttl now later : Z) :
  wf c → 1 ≤ maxSize c →
  ∃ c',
    Set_ c k result ttl now = Some c' ∧
    found (Get c' k later)
    = bool_decide
        (later ≤ now + if bool_decide (ttl = 0) then defaultTTL c else ttl) ∧
    (found (Get c' k later) = true → got (Get c' k later) = result).
Proof.
  intros Hwf Hcap.
  destruct (Set_stores c k result ttl now Hwf Hcap)
    as (c' & kk & Hset & Hitem).
  exists c'. split; [done|].
  destruct (Get_of_item c' k _ later Hitem) as [Hfound Hgot]; done.
Qed.

Lemma Set_then_Get_witness :
  ∃ c',
    Set_ (NewMemoryCache 2 300) "a" zeroFlagResult 0 100 = Some c' ∧
    found (Get c' "a" 400) = true ∧ found (Get c' "a" 401) = false.
Proof.
  destruct (Set_then_Get (NewMemoryCache 2 300) "a" zeroFlagResult 0 100 400
              (CacheFacts.wf_new 2 300) ltac:(simpl; lia))
    as (c' & Hset & Hfound & _).
  exists c'. split; [exact Hset|]. split; [exact Hfound|].
  destruct (Set_then_Get (NewMemoryCache 2 300) "a" zeroFlagResult 0 100 401
              (CacheFacts.wf_new 2 300) ltac:(simpl; lia))
    as (c'' & Hset' & Hfound' & _).
  rewrite Hset in Hset'. injection Hset' as <-. exact Hfound'.
Defined.

(** X2.  Overwriting never evicts.  A [Set] on a key the cache already
    holds returns, whatever the capacity: it replaces the value under that
    key, leaves every other entry and the size as they were, and moves the
    key to the front of the list. *)
Theorem Set_existing_never_evicts (c : MemoryCache) (k : string)
    (result : FlagResult) (ttl now : Z) (item : cacheItem) :
  items c !! k = Some item →
  ∃ c',
    Set_ c k result ttl now = Some c' ∧
    Size c' = Size c ∧
    (∀ k', k' ≠ k → items c' !! k' = items c !! k') ∧
    (value <$> items c' !! k) = Some result ∧
    lruList c' = k :: Remove k (lruList c).
Proof.
  intros Hk. rewrite (CacheFacts.Set_existing_spec _ _ _ _ _ _ Hk).
  eexists. split; [done|]. unfold Size. simpl. split_and!.
  - rewrite map_size_insert_Some by eauto. done.
  - intros k' Hne. by rewrite lookup_insert_ne.
  - by rewrite lookup_insert_eq.
  - done.
Qed.

Lemma Set_existing_never_evicts_witness :
  ∃ c',
    Set_ (mkMemoryCache 1 {["a" := mkCacheItem "a" zeroFlagResult 50]} ["a"]
            300) "a" zeroFlagResult 0 100 = Some c' ∧
    Size c' = 1 ∧ lruList c' = ["a"].
Proof.
  assert (items (mkMemoryCache 1
                   {["a" := mkCacheItem "a" zeroFlagResult 50]} ["a"] 300)
          !! "a" = Some (mkCacheItem "a" zeroFlagResult 50)) as Hitem
    by (vm_compute; reflexivity).
  destruct (Set_existing_never_evicts _ "a" zeroFlagResult 0 100 _ Hitem)
    as (c' & Hset & Hsize & _ & _ & Hlist).
  exists c'. split; [exact Hset|]. split.
  - rewrite Hsize. vm_compute. reflexivity.
  - rewrite Hlist. vm_compute. reflexivity.
Defined.

Lemma foldl_Delete_items ks : ∀ c k,
  items (foldl Delete c ks) !! k
  = if bool_decide (k ∈ ks) then None else items c !! k.
Proof.
  induction ks as [|x ks IH]; intros c k; cbn [foldl].
  - by rewrite bool_decide_false by apply not_elem_of_nil.
  - rewrite IH, Delete_items.
    destruct (decide (k ∈ ks)) as [Hin|Hin].
    + rewrite !bool_decide_true; [done | by right | done].
    + rewrite (bool_decide_false (k ∈ ks)) by done.
      destruct (decide (k = x)) as [->|Hne].
      * rewrite bool_decide_true by (by left). apply lookup_delete_eq.
      * rewrite bool_decide_false by (by intros [?|?]%elem_of_cons).
        by apply lookup_delete_ne.
Qed.

Lemma foldl_Delete_wf ks : ∀ c,
  wf c →
  wf (foldl Delete c ks) ∧ sublist (lruList (foldl Delete c ks)) (lruList c) ∧
  maxSize (foldl Delete c ks) = maxSize c ∧
  defaultTTL (foldl Delete c ks) = defaultTTL c.
Proof.
  induction ks as [|x ks IH]; intros c Hwf; simpl; [done|].
  destruct (IH (Delete c x) (Delete_wf c x Hwf)) as (Hwf' & Hsub & Hmax & Httl).
  split_and!; [done | | |].
  - etrans; [exact Hsub|]. rewrite Delete_lruList by done. apply sublist_filter.
  - rewrite Hmax. unfold Delete. by destruct (items c !! x).
  - rewrite Httl. unfold Delete. by destruct (items c !! x).
Qed.

(** X3.  [CleanupExpired] at the instant [now], on a well-formed cache
    under a fair map iteration, removes exactly the entries whose
    expiration is before [now]: every other entry is kept as it is, the
    cache stays well formed with its capacity, the keys that are kept stay
    in their order in the list, and no [Get] at [now] or later changes its
    answer. *)
Theorem CleanupExpired_removes_the_expired (ord : GoMap.KeyOrder)
    (c : MemoryCache) (now : Z) :
  GoMap.fair_order ord → wf c →
  wf (CleanupExpired ord c now) ∧
  sublist (lruList (CleanupExpired ord c now)) (lruList c) ∧
  maxSize (CleanupExpired ord c now) = maxSize c ∧
  (∀ k, items (CleanupExpired ord c now) !! k
        = match items c !! k with
          | Some item =>
              if bool_decide (expiration item < now) then None else Some item
          | None => None
          end) ∧
  (∀ k later, now ≤ later →
     found (Get (CleanupExpired ord c now) k later) = found (Get c k later) ∧
     got (Get (CleanupExpired ord c now) k later) = got (Get c k later)).
Proof.
  intros Hfair Hwf. unfold CleanupExpired.
  set (expiredKeys := (filter _ _).*1).
  destruct (foldl_Delete_wf expiredKeys c Hwf) as (Hwf' & Hsub & Hmax & _).
  assert (∀ k, k ∈ expiredKeys
               ↔ ∃ item, items c !! k = Some item ∧ expiration item < now)
    as Hexpired.
  { intros k. unfold expiredKeys. rewrite list_elem_of_fmap. split.
    - intros ([k' item] & -> & [Hexp Hin]%list_elem_of_filter). simpl in *.
      exists item. split; [by apply (EvaluatorFacts.range_sound ord)|].
      unfold GoTime.After in Hexp. by apply bool_decide_eq_true in Hexp.
    - intros (item & Hk & Hexp). exists (k, item). split; [done|].
      apply list_elem_of_filter. split.
      + simpl. unfold GoTime.After. by apply bool_decide_eq_true.
      + by apply EvaluatorFacts.range_complete. }
  assert (∀ k, items (foldl Delete c expiredKeys) !! k
        = match items c !! k with
          | Some item =>
              if bool_decide (expiration item < now) then None else Some item
          | None => None
          end) as Hitems.
  { intros k. rewrite foldl_Delete_items.
    destruct (items c !! k) as [item|] eqn:Hk.
    - destruct (decide (expiration item < now)) as [Hexp|Hexp].
      + rewrite (bool_decide_true (_ ∈ _)) by (apply Hexpired; eauto).
        by rewrite bool_decide_true.
      + rewrite (bool_decide_false (_ ∈ _)).
        * by rewrite bool_decide_false.
        * rewrite Hexpired. intros (item' & Heq & ?).
          rewrite Hk in Heq. injection Heq as <-. done.
    - by case_bool_decide. }
  split_and!; [done..|].
  intros k later Hlater. unfold Get. rewrite Hitems.
  destruct (items c !! k) as [item|]; [|done].
  unfold GoTime.After.
  destruct (decide (expiration item < now)) as [Hexp|Hexp].
  - rewrite (bool_decide_true (expiration item < now)) by done.
    by rewrite bool_decide_true by lia.
  - rewrite (bool_decide_false (expiration item < now)) by done.
    by destruct (bool_decide (expiration item < later)).
Qed.

Lemma CleanupExpired_removes_the_expired_witness :
  let c := mkMemoryCache 2
             (<["a" := mkCacheItem "a" zeroFlagResult 10]>
                (<["b" := mkCacheItem "b" zeroFlagResult 30]> ∅))
             ["a"; "b"] 300 in
  items (CleanupExpired (λ l, l) c 20) !! "a" = None ∧
  items (CleanupExpired (λ l, l) c 20) !! "b"
  = Some (mkCacheItem "b" zeroFlagResult 30).
Proof.
  intros c.
  assert (wf c) as Hwf.
  { split; simpl.
    - apply NoDup_cons. split; [|apply NoDup_singleton].
      by intros [= ]%list_elem_of_singleton.
    - intros k. rewrite !elem_of_cons, elem_of_nil.
      rewrite !lookup_insert_is_Some, lookup_empty. split.
      + intros [->|[->|[]]]; [by left | right; split; [done | by left]].
      + intros [<-|[_ [<-|[_ [? Hx]]]]]; [by left | right; by left | done]. }
  destruct (CleanupExpired_removes_the_expired (λ l, l) c 20
              (λ l, reflexivity l) Hwf) as (_ & _ & _ & Hitems & _).
  split; [exact (Hitems "a") | exact (Hitems "b")].
Defined.

(** X4.  [Keys], under a fair map iteration, lists every key of the map
    exactly once: as many keys as [Size] reports and, on a well-formed
    cache, the keys of the list in some order.  Expired entries are listed
    too: a key whose entry has expired is among the [Keys] although [Get]
    does not find it. *)
Theorem Keys_lists_every_entry (ord : GoMap.KeyOrder) (c : MemoryCache) :
  GoMap.fair_order ord →
  NoDup (Keys ord c) ∧
  (∀ k, k ∈ Keys ord c ↔ is_Some (items c !! k)) ∧
  Z.of_nat (length (Keys ord c)) = Size c ∧
  (wf c → Keys ord c ≡ₚ lruList c) ∧
  (∀ k item now, items c !! k = Some item → expiration item < now →
     k ∈ Keys ord c ∧ found (Get c k now) = false).
Proof.
  intros Hfair. unfold Keys, Size.
  pose proof (PersistenceFacts.range_Permutation ord (items c) Hfair) as Hperm.
  assert (∀ k, k ∈ (GoMap.range ord (items c)).*1 ↔ is_Some (items c !! k))
    as Hdom.
  { intros k. rewrite Hperm, list_elem_of_fmap. split.
    - intros ([k' item] & -> & Hin%elem_of_map_to_list). eauto.
    - intros [item Hk]. exists (k, item). split; [done|].
      by apply elem_of_map_to_list. }
  assert (NoDup (GoMap.range ord (items c)).*1) as Hnd.
  { rewrite Hperm. apply NoDup_fst_map_to_list. }
  split_and!; [done | done | | |].
  - rewrite Hperm, length_fmap, length_map_to_list. done.
  - intros [Hnd' Hdom']. apply NoDup_Permutation; [done..|].
    intros k. by rewrite Hdom, Hdom'.
  - intros k item now Hk Hexp. split; [apply Hdom; eauto|].
    unfold Get, GoTime.After. rewrite Hk. by rewrite bool_decide_true.
Qed.

Lemma Keys_lists_every_entry_witness :
  NoDup (Keys (λ l, l)
           (mkMemoryCache 2 (<["a" := mkCacheItem "a" zeroFlagResult 10]> ∅)
              ["a"] 300)) ∧
  "a" ∈ Keys (λ l, l)
          (mkMemoryCache 2 (<["a" := mkCacheItem "a" zeroFlagResult 10]> ∅)
             ["a"] 300).
Proof.
  destruct (Keys_lists_every_entry (λ l, l)
              (mkMemoryCache 2
                 (<["a" := mkCacheItem "a" zeroFlagResult 10]> ∅) ["a"] 300)
              (λ l, reflexivity l)) as (Hnd & Hdom & _).
  split; [exact Hnd|]. apply Hdom. simpl. rewrite lookup_insert_eq. eauto.
Defined.

(** X5.  A cache without capacity.  [Set] of a new key on a well-formed
    cache of capacity 0 returns and stores nothing: the new entry is
    evicted within the call, the cache is empty afterwards and every [Get]
    misses.  With a negative capacity the call does not return: the loop
    of [evictIfNeeded] runs on after the list is empty. *)
Theorem Set_without_capacity (c : MemoryCache) (k : string)
    (result : FlagResult) (ttl now : Z) :
  wf c → items c !! k = None →
  (maxSize c = 0 →
   ∃ c', Set_ c k result ttl now = Some c' ∧ items c' = ∅ ∧ lruList c' = [] ∧
         ∀ k' later, found (Get c' k' later) = false) ∧
  (maxSize c < 0 → Set_ c k result ttl now = None).
Proof.
  intros Hwf Hk. split.
  - intros Hcap.
    destruct (CacheFacts.Set_new_spec c k result ttl now Hwf ltac:(lia) Hk)
      as (c' & Hset & _ & _ & Hlist & Hlook).
    rewrite Hcap in Hlist. simpl in Hlist.
    assert (items c' = ∅) as Hempty.
    { apply map_eq. intros k'. rewrite Hlook, Hlist, lookup_empty.
      by rewrite bool_decide_false by apply not_elem_of_nil. }
    exists c'. split_and!; [done..|].
    intros k' later. unfold Get. by rewrite Hempty, lookup_empty.
  - intros Hcap. by apply CacheFacts.Set_negative_capacity.
Qed.

Lemma Set_without_capacity_witness :
  (∃ c', Set_ (NewMemoryCache 0 300) "a" zeroFlagResult 0 100 = Some c' ∧
         items c' = ∅) ∧
  Set_ (NewMemoryCache (-1) 300) "a" zeroFlagResult 0 100 = None.
Proof.
  split.
  - destruct (proj1 (Set_without_capacity (NewMemoryCache 0 300) "a"
                       zeroFlagResult 0 100 (CacheFacts.wf_new 0 300)
                       (lookup_empty _)) eq_refl)
      as (c' & Hset & Hempty & _).
    exists c'. split; [exact Hset | exact Hempty].
  - apply (proj2 (Set_without_capacity (NewMemoryCache (-1) 300) "a"
                    zeroFlagResult 0 100 (CacheFacts.wf_new (-1) 300)
                    (lookup_empty _))).
    simpl. lia.
Defined.

End CacheLaws.

(** ** The snapshot file: loading nothing, writing atomically *)

Module PersistenceLaws.
Import types cache persistent manager predicates.

Lemma loadItems_all_expired clk entries : ∀ mc,
  (∀ k it, (k, it) ∈ entries → item_Expiration it ≤ load_now clk) →
  loadItems clk entries mc = Some mc.
Proof.
  induction entries as [|[k it] entries IH]; intros mc Hexp; [done|].
  simpl. unfold GoTime.Before.
  rewrite bool_decide_false.
  - apply IH. intros k' it' Hin. apply (Hexp k' it'). by right.
  - specialize (Hexp k it ltac:(by left)). lia.
Qed.

(** X6.  A persistent cache with nothing to load starts empty.  When
    the file is missing, when it does not hold JSON, or when every entry
    of the snapshot has expired by the instant of the load,
    [NewPersistentCache] returns a cache without entries, with the
    capacity and the default TTL it was asked for. *)
Theorem NewPersistentCache_starts_empty (maxSize defaultTTL : Z)
    (filePath : string) (ord : GoMap.KeyOrder) (clk : LoadClock) (d : Disk) :
  files d !! filePath = None ∨
  files d !! filePath = Some NotJSON ∨
  (∃ data, files d !! filePath = Some (SnapshotJSON data) ∧
           ∀ k it, Items data !! k = Some it →
                   item_Expiration it ≤ load_now clk) →
  NewPersistentCache maxSize defaultTTL filePath ord clk d
  = Some (mkPersistentCache (NewMemoryCache maxSize defaultTTL) filePath).
Proof.
  unfold NewPersistentCache, loadFromFile. simpl.
  intros [-> | [-> | (data & -> & Hexp)]]; [done | done |]. simpl.
  rewrite loadItems_all_expired; [done|].
  intros k it Hin. apply (Hexp k). by apply (EvaluatorFacts.range_sound ord).
Qed.

Lemma NewPersistentCache_starts_empty_witness :
  NewPersistentCache 10 300 "cache.json" (λ l, l) scenario.loadAtOneSecond
    (mkDisk (<["cache.json" := NotJSON]> ∅) [])
  = Some (mkPersistentCache (NewMemoryCache 10 300) "cache.json").
Proof.
  apply NewPersistentCache_starts_empty. right. left. reflexivity.
Defined.

Lemma tmp_differs (p : string) : p ≠ p +:+ ".tmp".
Proof.
  intros Heq. apply (f_equal String.length) in Heq.
  rewrite StringFacts.length_app in Heq. simpl in Heq. lia.
Qed.

(** X7.  [saveToFile] replaces the snapshot or keeps it.  After the
    call the snapshot file holds what it held before, or it holds the
    marshalled entries of the cache and no temporary file is left; it is
    the second whenever the entries marshal and the disk takes the write.
    Entries that do not marshal leave the disk untouched, and no file
    other than the snapshot file and its temporary file ever changes. *)
Theorem saveToFile_replaces_or_keeps (c : PersistentCache) (d : Disk) :
  (files (saveToFile c d) !! filePath c = files d !! filePath c ∨
   (is_Some (jsonMarshal (snapshot c)) ∧ writable d ∧
    files (saveToFile c d) !! filePath c = jsonMarshal (snapshot c) ∧
    files (saveToFile c d) !! (filePath c +:+ ".tmp") = None)) ∧
  (jsonMarshal (snapshot c) = None → saveToFile c d = d) ∧
  (∀ p, p ≠ filePath c → p ≠ filePath c +:+ ".tmp" →
        files (saveToFile c d) !! p = files d !! p) ∧
  (is_Some (jsonMarshal (snapshot c)) → writable d →
   files (saveToFile c d) !! filePath c = jsonMarshal (snapshot c)).
Proof.
  pose proof (tmp_differs (filePath c)) as Htmp.
  unfold saveToFile, writable.
  destruct (jsonMarshal (snapshot c)) as [data|] eqn:Hdata.
  2:{ split_and!; [by left | done | done | by intros [? ?]]. }
  destruct (head (faults d)) as [[[|]|]|] eqn:Hhead; simpl.
  - split_and!; [by left | done | done | done].
  - split_and!; [left; by rewrite lookup_insert_ne | done | | done].
    intros p _ Hp. by rewrite lookup_insert_ne.
  - split_and!; [right | done | | by rewrite lookup_insert_eq].
    + split_and!; [by eauto | done | by rewrite lookup_insert_eq |].
      rewrite lookup_insert_ne by done. apply lookup_delete_eq.
    + intros p Hp Hp'.
      by rewrite lookup_insert_ne, lookup_delete_ne, lookup_insert_ne.
  - split_and!; [right | done | | by rewrite lookup_insert_eq].
    + split_and!; [by eauto | done | by rewrite lookup_insert_eq |].
      rewrite lookup_insert_ne by done. apply lookup_delete_eq.
    + intros p Hp Hp'.
      by rewrite lookup_insert_ne, lookup_delete_ne, lookup_insert_ne.
Qed.

End PersistenceLaws.

(** ** The classifications of errors *)

Module ErrorLaws.
Import errors.



End ErrorLaws.

(** ** The retry loop, round by round *)

Module TransportLaws.
Import errors types metrics wire runtime httpclient predicates.

Lemma wrap64_add_l a b : GoInt.wrap64 (GoInt.wrap64 a + b) = GoInt.wrap64 (a + b).
Proof.
  unfold GoInt.wrap64. f_equal.
  replace ((a + 2 ^ 63) mod 2 ^ 64 - 2 ^ 63 + b + 2 ^ 63)
    with ((a + 2 ^ 63) mod 2 ^ 64 + b) by lia.
  rewrite Zplus_mod_idemp_l. f_equal. lia.
Qed.

Section loop.
Context {Req R : Type}.
Variables (c : HTTPClient) (api : Env → nat → Req → Exchange R).
Variables (path : string) (body : Req) (zero : R) (E : Env).

(** The rounds of the loop, counted: it returns after [made] exchanges, at
    most one per round; it waits once before every exchange but the one of
    attempt 0; and it records every exchange in the collector, the failed
    ones as errors. *)
Lemma attemptLoop_account remaining : ∀ attempt lastErr w,
  0 ≤ attempt →
  ∃ res w' made,
    attemptLoop c api path body zero remaining attempt lastErr E w
    = Returns res w' ∧
    exchanges w' = (exchanges w + made)%nat ∧ (made ≤ remaining)%nat ∧
    reads w' = (reads w + 2 * made)%nat ∧
    length (sleeps w')
    = (length (sleeps w) + made
       - if bool_decide ((attempt = 0)%Z ∧ made ≠ 0%nat) then 1 else 0)%nat ∧
    cacheManager w' = cacheManager w ∧ disk w' = disk w ∧
    closed w' = closed w ∧ spawnedDeletes w' = spawnedDeletes w ∧
    cacheHits (collector w') = cacheHits (collector w) ∧
    cacheMisses (collector w') = cacheMisses (collector w) ∧
    flagsEvaluated (collector w') = flagsEvaluated (collector w) ∧
    GoInt.wrap64 (apiCalls (collector w'))
    = GoInt.wrap64 (apiCalls (collector w) + Z.of_nat made) ∧
    GoInt.wrap64 (errorCount (collector w'))
    = GoInt.wrap64
        (errorCount (collector w) + Z.of_nat made
         - match res with
           | inr _ => if bool_decide (made = 0%nat) then 0 else 1
           | inl _ => 0
           end) ∧
    (made = 0%nat →
     res = match lastErr with Some err => inl err | None => inr zero end
     ∨ ∃ ctxErr, res = inl ctxErr) ∧
    (remaining ≠ 0%nat → attempt = 0 → made ≠ 0%nat).
Proof.
  induction remaining as [|remaining IH]; intros attempt lastErr w Hattempt.
  - exists (match lastErr with Some err => inl err | None => inr zero end),
      w, 0%nat.
    cbn [attemptLoop]. split; [done|].
    rewrite bool_decide_false by (by intros [_ ?]).
    split_and!; try done; try lia.
    + f_equal. lia.
    + destruct lastErr; f_equal; simpl; lia.
    + by left.
  - assert (∀ w0 : World,
      length (sleeps w0)
      = (length (sleeps w) + if bool_decide (0 < attempt)%Z then 1 else 0)%nat →
      exchanges w0 = exchanges w → reads w0 = reads w →
      cacheManager w0 = cacheManager w → disk w0 = disk w →
      closed w0 = closed w → spawnedDeletes w0 = spawnedDeletes w →
      collector w0 = collector w →
      ∃ res w' made,
        (startTime ← now;
         res ← doRequest c api path body;
         finish ← now;
         record (RecordAPICall (finish - startTime)
                   (match res with inr _ => true | inl _ => false end));;
         match res with
         | inr result => mret (inr result)
         | inl err =>
             if IsRetryable err
             then attemptLoop c api path body zero remaining (attempt + 1)
                    (Some err)
             else mret (inl err)
         end) E w0 = Returns res w' ∧
        exchanges w' = (exchanges w + made)%nat ∧ (made ≤ S remaining)%nat ∧
        reads w' = (reads w + 2 * made)%nat ∧
        length (sleeps w')
        = (length (sleeps w) + made
           - if bool_decide ((attempt = 0)%Z ∧ made ≠ 0%nat) then 1 else 0)%nat ∧
        cacheManager w' = cacheManager w ∧ disk w' = disk w ∧
        closed w' = closed w ∧ spawnedDeletes w' = spawnedDeletes w ∧
        cacheHits (collector w') = cacheHits (collector w) ∧
        cacheMisses (collector w') = cacheMisses (collector w) ∧
        flagsEvaluated (collector w') = flagsEvaluated (collector w) ∧
        GoInt.wrap64 (apiCalls (collector w'))
        = GoInt.wrap64 (apiCalls (collector w) + Z.of_nat made) ∧
        GoInt.wrap64 (errorCount (collector w'))
        = GoInt.wrap64
            (errorCount (collector w) + Z.of_nat made
             - match res with
               | inr _ => if bool_decide (made = 0%nat) then 0 else 1
               | inl _ => 0
               end) ∧
        made ≠ 0%nat) as Hround.
    { intros w0 Hsl Hx Hr Hcm Hd Hcl Hsp Hcol.
      unfold mbind, M_bind, bind, now, doRequest, record, mret, M_ret, ret.
      cbn. destruct (settle _ _) as [err|result].
      - destruct (IsRetryable err).
        + edestruct (IH (attempt + 1) (Some err)) as
            (res & w' & made & -> & Hx' & Hle & Hr' & Hsl' & Hcm' & Hd' &
             Hcl' & Hsp' & Hh & Hm & Hf & Hapi & Herr & Hzero & _); [lia|].
          cbn in *. exists res, w', (S made). split; [done|].
          rewrite Hcol in *.
          split_and!; try congruence; try lia.
          * rewrite Hsl', Hsl.
            rewrite (bool_decide_false ((attempt + 1 = 0)%Z ∧ _)) by lia.
            repeat case_bool_decide; lia.
          * rewrite Hapi, wrap64_add_l. f_equal. lia.
          * rewrite Herr.
            rewrite (bool_decide_false (S made = 0%nat)) by lia.
            destruct res as [e'|r'].
            -- rewrite Z.sub_0_r, wrap64_add_l. f_equal. lia.
            -- rewrite bool_decide_false.
               ++ rewrite <- Z.add_sub_assoc, wrap64_add_l. f_equal. lia.
               ++ intros Hmade. destruct (Hzero Hmade) as [?|[? ?]]; done.
        + eexists _, _, 1%nat. split; [done|]. cbn. rewrite Hcol.
          split_and!; try congruence; try lia.
          * rewrite Hsl. repeat case_bool_decide; lia.
          * by rewrite TransportFacts.wrap64_idem.
          * rewrite TransportFacts.wrap64_idem. f_equal. lia.
      - eexists _, _, 1%nat. split; [done|]. cbn. rewrite Hcol.
        split_and!; try congruence; try lia.
        + rewrite Hsl. repeat case_bool_decide; lia.
        + by rewrite TransportFacts.wrap64_idem.
        + rewrite bool_decide_false by done. f_equal. lia. }
    cbn [attemptLoop]. case_bool_decide as Hpos.
    + unfold mbind at 1. unfold M_bind, bind, backoffWait.
      destruct (ctxDone E (exchanges w)) as [ctxErr|] eqn:Hctx.
      * exists (inl ctxErr), w, 0%nat. split; [done|].
        rewrite bool_decide_false by (by intros [_ ?]).
        split_and!; try done; try lia.
        -- f_equal. lia.
        -- f_equal. lia.
        -- right. eauto.
      * destruct (Hround
                    (mkWorld (cacheManager w) (disk w) (collector w)
                       (closed w) (reads w) (exchanges w)
                       (calculateBackoff attempt (randFloat64 E (exchanges w))
                        :: sleeps w) (spawnedDeletes w)))
          as (res & w' & made & Hrun & Hrest); try done.
        { cbn [sleeps length]. lia. }
        exists res, w', made. split; [exact Hrun|].
        destruct Hrest as (? & ? & ? & ? & ? & ? & ? & ? & ? & ? & ? & ? &
                           ? & ?).
        split_and!; try done.
    + unfold mbind at 1. unfold M_bind, bind, mret, M_ret, ret.
      destruct (Hround w) as (res & w' & made & Hrun & Hrest);
        [simpl; lia | done..|].
      exists res, w', made. split; [exact Hrun|].
      destruct Hrest as (? & ? & ? & ? & ? & ? & ? & ? & ? & ? & ? & ? &
                         ? & ?).
      split_and!; try done.
Qed.

(** One round that meets a retryable error. *)
Lemma attemptLoop_round remaining attempt lastErr w err :
  (0 < attempt → ctxDone E (exchanges w) = None) →
  failsWith c api path body E (exchanges w) err → IsRetryable err = true →
  ∃ w1,
    attemptLoop c api path body zero (S remaining) attempt lastErr E w
    = attemptLoop c api path body zero remaining (attempt + 1) (Some err) E w1
    ∧ exchanges w1 = S (exchanges w)
    ∧ cacheManager w1 = cacheManager w ∧ disk w1 = disk w
    ∧ length (sleeps w1)
      = (length (sleeps w) + if bool_decide (0 < attempt)%Z then 1 else 0)%nat.
Proof.
  unfold failsWith. intros Hctx Hfail Hretry.
  destruct (decide (0 < attempt)) as [Hattempt|Hattempt].
  - rewrite (bool_decide_true (0 < attempt)) by done. eexists. split.
    + cbn [attemptLoop]. rewrite bool_decide_true by done.
      unfold mbind, M_bind, bind, backoffWait. rewrite (Hctx Hattempt).
      unfold now, doRequest, record, mret, M_ret, ret. cbn.
      rewrite Hfail, Hretry. reflexivity.
    + cbn. split_and!; [done..|lia].
  - rewrite (bool_decide_false (0 < attempt)) by done. eexists. split.
    + cbn [attemptLoop]. rewrite bool_decide_false by done.
      unfold mbind, M_bind, bind, now, doRequest, record, mret, M_ret, ret.
      cbn. rewrite Hfail, Hretry. reflexivity.
    + cbn. split_and!; [done..|lia].
Qed.

(** [j] rounds that meet retryable errors. *)
Lemma attemptLoop_prefix (j : nat) : ∀ remaining attempt lastErr w,
  0 ≤ attempt →
  (∀ i, (i < j)%nat → 0 < attempt + Z.of_nat i →
        ctxDone E (exchanges w + i) = None) →
  (∀ i, (i < j)%nat →
        ∃ err, failsWith c api path body E (exchanges w + i) err ∧
               IsRetryable err = true) →
  ∃ w1 lastErr1,
    attemptLoop c api path body zero (j + remaining) attempt lastErr E w
    = attemptLoop c api path body zero remaining (attempt + Z.of_nat j)
        lastErr1 E w1 ∧
    exchanges w1 = (exchanges w + j)%nat ∧
    cacheManager w1 = cacheManager w ∧ disk w1 = disk w ∧
    length (sleeps w1)
    = (length (sleeps w) + j
       - if bool_decide ((attempt = 0)%Z ∧ j ≠ 0%nat) then 1 else 0)%nat ∧
    (j = 0%nat → lastErr1 = lastErr) ∧
    (j ≠ 0%nat →
     ∃ err, lastErr1 = Some err ∧
            failsWith c api path body E (exchanges w + j - 1) err).
Proof.
  induction j as [|j IH]; intros remaining attempt lastErr w Hattempt Hctx Hfail.
  - exists w, lastErr. rewrite Z.add_0_r.
    rewrite bool_decide_false by (by intros [_ ?]).
    split_and!; [done | lia | done | done | lia | done | done].
  - destruct (Hfail 0%nat ltac:(lia)) as (err & Herr & Hretry).
    rewrite Nat.add_0_r in Herr.
    destruct (attemptLoop_round (j + remaining) attempt lastErr w err)
      as (w1 & Hrun & Hx1 & Hcm1 & Hd1 & Hsl1); [|done|done|].
    { intros Hpos. specialize (Hctx 0%nat ltac:(lia) ltac:(lia)).
      by rewrite Nat.add_0_r in Hctx. }
    destruct (IH remaining (attempt + 1) (Some err) w1) as
      (w2 & lastErr2 & Hrun2 & Hx2 & Hcm2 & Hd2 & Hsl2 & Hlast0 & Hlast);
      [lia | | |].
    { intros i Hi Hpos. rewrite Hx1.
      replace (S (exchanges w) + i)%nat with (exchanges w + S i)%nat by lia.
      apply Hctx; lia. }
    { intros i Hi. rewrite Hx1.
      replace (S (exchanges w) + i)%nat with (exchanges w + S i)%nat by lia.
      apply Hfail; lia. }
    exists w2, lastErr2. cbn [Nat.add]. rewrite Hrun, Hrun2.
    split_and!.
    + f_equal. lia.
    + lia.
    + congruence.
    + congruence.
    + rewrite Hsl2, Hsl1.
      rewrite (bool_decide_false ((attempt + 1 = 0)%Z ∧ _)) by lia.
      repeat case_bool_decide; lia.
    + done.
    + intros _. destruct j as [|j'].
      * rewrite (Hlast0 eq_refl). exists err. split; [done|].
        by replace (exchanges w + 1 - 1)%nat with (exchanges w) by lia.
      * destruct (Hlast ltac:(done)) as (err' & -> & Hfail').
        exists err'. split; [done|].
        by replace (exchanges w + S (S j') - 1)%nat
          with (exchanges w1 + S j' - 1)%nat by lia.
Qed.

(** A round whose exchange succeeds, or fails for good, ends the loop. *)
Lemma attemptLoop_decisive remaining attempt lastErr w :
  (0 < attempt → ctxDone E (exchanges w) = None) →
  match settle (baseURL c +:+ path) (api E (exchanges w) body) with
  | inl err => IsRetryable err = false
  | inr _ => True
  end →
  ∃ w',
    attemptLoop c api path body zero (S remaining) attempt lastErr E w
    = Returns (settle (baseURL c +:+ path) (api E (exchanges w) body)) w' ∧
    exchanges w' = S (exchanges w) ∧
    cacheManager w' = cacheManager w ∧ disk w' = disk w ∧
    length (sleeps w')
    = (length (sleeps w) + if bool_decide (0 < attempt)%Z then 1 else 0)%nat.
Proof.
  intros Hctx Hdecisive. cbn [attemptLoop].
  destruct (decide (0 < attempt)) as [Hattempt|Hattempt].
  - rewrite !(bool_decide_true (0 < attempt)) by done.
    unfold mbind, M_bind, bind, backoffWait. rewrite (Hctx Hattempt).
    unfold now, doRequest, record, mret, M_ret, ret. cbn.
    destruct (settle _ _) as [err|result].
    + rewrite Hdecisive. eexists. split; [done|]. cbn.
      split_and!; [done..|lia].
    + eexists. split; [done|]. cbn. split_and!; [done..|lia].
  - rewrite !(bool_decide_false (0 < attempt)) by done.
    unfold mbind, M_bind, bind, now, doRequest, record, mret, M_ret, ret.
    cbn. destruct (settle _ _) as [err|result].
    + rewrite Hdecisive. eexists. split; [done|]. cbn.
      split_and!; [done..|lia].
    + eexists. split; [done|]. cbn. split_and!; [done..|lia].
Qed.

End loop.

(** Every exchange of the loop fails: the loop returns an error, unless it
    has no round to run and no error to return. *)
Lemma attemptLoop_fails {Req R} (c : HTTPClient)
    (api : Env → nat → Req → Exchange R) (path : string) (body : Req)
    (zero : R) (E : Env) remaining : ∀ attempt lastErr w,
  (∀ i, ∃ err, failsWith c api path body E i err) →
  (remaining = 0%nat → is_Some lastErr) →
  ∃ err w',
    attemptLoop c api path body zero remaining attempt lastErr E w
    = Returns (inl err) w' ∧
    cacheManager w' = cacheManager w ∧ disk w' = disk w ∧
    closed w' = closed w ∧ (exchanges w ≤ exchanges w')%nat ∧
    (reads w ≤ reads w')%nat ∧
    cacheMisses (collector w') = cacheMisses (collector w).
Proof.
  induction remaining as [|remaining IH]; intros attempt lastErr w Hfail Hlast.
  - destruct Hlast as [err ->]; [done|]. exists err, w. by cbn.
  - assert (∀ w0 : World,
      cacheManager w0 = cacheManager w → disk w0 = disk w →
      closed w0 = closed w → exchanges w0 = exchanges w →
      reads w0 = reads w → collector w0 = collector w →
      ∃ err w',
        (startTime ← now;
         res ← doRequest c api path body;
         finish ← now;
         record (RecordAPICall (finish - startTime)
                   (match res with inr _ => true | inl _ => false end));;
         match res with
         | inr result => mret (inr result)
         | inl err =>
             if IsRetryable err
             then attemptLoop c api path body zero remaining (attempt + 1)
                    (Some err)
             else mret (inl err)
         end) E w0 = Returns (inl err) w' ∧
        cacheManager w' = cacheManager w ∧ disk w' = disk w ∧
        closed w' = closed w ∧ (exchanges w ≤ exchanges w')%nat ∧
        (reads w ≤ reads w')%nat ∧
        cacheMisses (collector w') = cacheMisses (collector w)) as Hround.
    { intros w0 Hcm Hd Hcl Hx Hr Hcol.
      unfold mbind, M_bind, bind, now, doRequest, record, mret, M_ret, ret.
      cbn. destruct (Hfail (exchanges w0)) as [err Herr].
      unfold failsWith in Herr. rewrite Herr. destruct (IsRetryable err).
      - edestruct (IH (attempt + 1) (Some err)) as
          (err' & w' & -> & Hcm' & Hd' & Hcl' & Hx' & Hr' & Hmiss');
          [done | by eauto |].
        cbn in *. exists err', w'. split; [done|].
        split_and!; [congruence.. | lia | lia | congruence].
      - eexists _, _. split; [reflexivity|]. cbn.
        split_and!; [done.. | lia | lia | congruence]. }
    cbn [attemptLoop]. case_bool_decide as Hpos.
    + unfold mbind at 1. unfold M_bind, bind, backoffWait.
      destruct (ctxDone E (exchanges w)) as [ctxErr|].
      * exists ctxErr, w. by split_and!.
      * apply Hround; done.
    + unfold mbind at 1. unfold M_bind, bind, mret, M_ret, ret.
      apply Hround; done.
Qed.

(** X9.  [makeRequest] stops at the first exchange that succeeds or
    fails for good.  When the first [j] exchanges end in retryable errors,
    [j] is within the retries allowed, the caller does not cancel during
    the waits, and exchange [j] succeeds or ends in an error that is not
    retryable, the call returns the outcome of exchange [j] after exactly
    [j + 1] exchanges and [j] waits, and leaves cache and disk alone. *)
Theorem makeRequest_stops_at_first_decisive {Req R} (c : HTTPClient)
    (api : Env → nat → Req → Exchange R) (method path : string) (body : Req)
    (zero : R) (E : Env) (w : World) (j : nat) :
  Z.of_nat j ≤ retryAttempts c < GoInt.max_int64 →
  (∀ i, (0 < i ≤ j)%nat → ctxDone E (exchanges w + i) = None) →
  (∀ i, (i < j)%nat →
        ∃ err, failsWith c api path body E (exchanges w + i) err ∧
               IsRetryable err = true) →
  match settle (baseURL c +:+ path) (api E (exchanges w + j)%nat body) with
  | inl err => IsRetryable err = false
  | inr _ => True
  end →
  ∃ w',
    makeRequest c api method path body zero E w
    = Returns (settle (baseURL c +:+ path) (api E (exchanges w + j)%nat body))
        w' ∧
    exchanges w' = (exchanges w + j + 1)%nat ∧
    length (sleeps w') = (length (sleeps w) + j)%nat ∧
    cacheManager w' = cacheManager w ∧ disk w' = disk w.
Proof.
  intros Hj Hctx Hfail Hdecisive. unfold makeRequest.
  replace (Z.to_nat (retryAttempts c + 1))
    with (j + S (Z.to_nat (retryAttempts c) - j))%nat by lia.
  destruct (attemptLoop_prefix c api path body zero E j
              (S (Z.to_nat (retryAttempts c) - j)) 0 None w)
    as (w1 & lastErr1 & -> & Hx1 & Hcm1 & Hd1 & Hsl1 & _); [lia | | done |].
  { intros i Hi Hpos. apply Hctx. lia. }
  rewrite <- Hx1 in Hdecisive |- *.
  destruct (attemptLoop_decisive c api path body zero E
              (Z.to_nat (retryAttempts c) - j) (0 + Z.of_nat j) lastErr1 w1)
    as (w' & -> & Hx' & Hcm' & Hd' & Hsl'); [|done|].
  { intros Hpos. rewrite Hx1. apply Hctx. lia. }
  exists w'. split; [done|]. split_and!; [lia | | congruence | congruence].
  rewrite Hsl', Hsl1. repeat case_bool_decide; lia.
Qed.

Lemma makeRequest_stops_at_first_decisive_witness :
  ∃ w',
    makeRequest (evaluator.httpClient scenario.theEvaluator) flagAPI "POST"
      "/api/v1/sdk/evaluate" (mkEvaluateFlagRequest "f" scenario.user1)
      zeroEvaluateFlagResponse examples.recovering scenario.world0
    = Returns (inr scenario.flagOn) w' ∧
    exchanges w' = 3%nat ∧ length (sleeps w') = 2%nat.
Proof.
  destruct (makeRequest_stops_at_first_decisive
              (evaluator.httpClient scenario.theEvaluator) flagAPI "POST"
              "/api/v1/sdk/evaluate"
              (mkEvaluateFlagRequest "f" scenario.user1)
              zeroEvaluateFlagResponse examples.recovering scenario.world0
              2)
    as (w' & Hrun & Hx & Hsleeps & _).
  - simpl. unfold GoInt.max_int64. lia.
  - intros i _. reflexivity.
  - intros i Hi. destruct i as [|[|i]]; [| |lia].
    + eexists. split; vm_compute; reflexivity.
    + eexists. split; vm_compute; reflexivity.
  - vm_compute. exact I.
  - exists w'. split; [exact Hrun|]. split; [exact Hx | exact Hsleeps].
Defined.

(** X10.  Cancellation during a wait.  When the first [j] exchanges
    ([j] at least 1 and within the retries allowed) end in retryable
    errors and the caller's context is done during the wait that follows,
    [makeRequest] returns the error of the context, not the error of the
    last exchange, after exactly [j] exchanges and [j - 1] completed
    waits, and leaves cache and disk alone. *)
Theorem makeRequest_cancelled_while_waiting {Req R} (c : HTTPClient)
    (api : Env → nat → Req → Exchange R) (method path : string) (body : Req)
    (zero : R) (E : Env) (w : World) (j : nat) (ctxErr : error) :
  (0 < j)%nat →
  Z.of_nat j ≤ retryAttempts c < GoInt.max_int64 →
  (∀ i, (0 < i < j)%nat → ctxDone E (exchanges w + i) = None) →
  (∀ i, (i < j)%nat →
        ∃ err, failsWith c api path body E (exchanges w + i) err ∧
               IsRetryable err = true) →
  ctxDone E (exchanges w + j) = Some ctxErr →
  ∃ w',
    makeRequest c api method path body zero E w = Returns (inl ctxErr) w' ∧
    exchanges w' = (exchanges w + j)%nat ∧
    length (sleeps w') = (length (sleeps w) + j - 1)%nat ∧
    cacheManager w' = cacheManager w ∧ disk w' = disk w.
Proof.
  intros Hpos Hj Hctx Hfail Hdone. unfold makeRequest.
  replace (Z.to_nat (retryAttempts c + 1))
    with (j + S (Z.to_nat (retryAttempts c) - j))%nat by lia.
  destruct (attemptLoop_prefix c api path body zero E j
              (S (Z.to_nat (retryAttempts c) - j)) 0 None w)
    as (w1 & lastErr1 & -> & Hx1 & Hcm1 & Hd1 & Hsl1 & _); [lia | | done |].
  { intros i Hi Hpos'. apply Hctx. lia. }
  exists w1. cbn [attemptLoop].
  rewrite bool_decide_true by lia.
  unfold mbind, M_bind, bind, backoffWait. rewrite Hx1, Hdone.
  split; [done|]. split_and!; [lia | | done | done].
  rewrite Hsl1. rewrite bool_decide_true by lia. lia.
Qed.

Lemma makeRequest_cancelled_while_waiting_witness :
  ∃ w',
    makeRequest (evaluator.httpClient scenario.theEvaluator) flagAPI "POST"
      "/api/v1/sdk/evaluate" (mkEvaluateFlagRequest "f" scenario.user1)
      zeroEvaluateFlagResponse examples.cancelling scenario.world0
    = Returns (inl (errorString "context canceled")) w' ∧
    exchanges w' = 1%nat ∧ length (sleeps w') = 0%nat.
Proof.
  destruct (makeRequest_cancelled_while_waiting
              (evaluator.httpClient scenario.theEvaluator) flagAPI "POST"
              "/api/v1/sdk/evaluate"
              (mkEvaluateFlagRequest "f" scenario.user1)
              zeroEvaluateFlagResponse examples.cancelling scenario.world0
              1 (errorString "context canceled"))
    as (w' & Hrun & Hx & Hsleeps & _).
  - lia.
  - simpl. unfold GoInt.max_int64. lia.
  - intros i Hi. lia.
  - intros i Hi. destruct i as [|i]; [|lia].
    eexists. split; vm_compute; reflexivity.
  - reflexivity.
  - exists w'. split; [exact Hrun|]. split; [exact Hx | exact Hsleeps].
Defined.

(** X11.  [makeRequest] returns whatever the service answers (for a
    [retryAttempts] below the largest int, so that the loop counter does
    not wrap).  It makes at most [retryAttempts + 1] exchanges, at least
    one when [retryAttempts] is not negative, completes one wait between
    two exchanges, reads the clock twice per exchange, and changes neither
    the cache nor the disk nor the closed flag. *)
Theorem makeRequest_attempts_are_bounded {Req R} (c : HTTPClient)
    (api : Env → nat → Req → Exchange R) (method path : string) (body : Req)
    (zero : R) (E : Env) (w : World) :
  retryAttempts c < GoInt.max_int64 →
  ∃ res w' made,
    makeRequest c api method path body zero E w = Returns res w' ∧
    exchanges w' = (exchanges w + made)%nat ∧
    Z.of_nat made ≤ Z.max 0 (retryAttempts c + 1) ∧
    (0 ≤ retryAttempts c → (1 ≤ made)%nat) ∧
    length (sleeps w') = (length (sleeps w) + (made - 1))%nat ∧
    reads w' = (reads w + 2 * made)%nat ∧
    cacheManager w' = cacheManager w ∧ disk w' = disk w ∧
    closed w' = closed w.
Proof.
  intros _. unfold makeRequest.
  destruct (attemptLoop_account c api path body zero E
              (Z.to_nat (retryAttempts c + 1)) 0 None w)
    as (res & w' & made & Hrun & Hx & Hle & Hr & Hsl & Hcm & Hd & Hcl & _ & _ &
        _ & _ & _ & _ & _ & Hsome); [lia|].
  exists res, w', made. split; [done|].
  split_and!; [done | lia | | | done..].
  - intros Hn. specialize (Hsome ltac:(lia) eq_refl). lia.
  - rewrite Hsl. case_bool_decide; lia.
Qed.

Lemma makeRequest_attempts_are_bounded_witness :
  ∃ res w' made,
    makeRequest (evaluator.httpClient scenario.theEvaluator) flagAPI "POST"
      "/api/v1/sdk/evaluate" (mkEvaluateFlagRequest "f" scenario.user1)
      zeroEvaluateFlagResponse scenario.failing scenario.world0
    = Returns res w' ∧
    exchanges w' = made ∧ (1 ≤ made ≤ 4)%nat.
Proof.
  destruct (makeRequest_attempts_are_bounded
              (evaluator.httpClient scenario.theEvaluator) flagAPI "POST"
              "/api/v1/sdk/evaluate"
              (mkEvaluateFlagRequest "f" scenario.user1)
              zeroEvaluateFlagResponse scenario.failing scenario.world0)
    as (res & w' & made & Hrun & Hx & Hmax & Hmin & _).
  - simpl. unfold GoInt.max_int64. lia.
  - exists res, w', made. split; [exact Hrun|]. split; [exact Hx|].
    simpl in Hmax, Hmin. lia.
Defined.

(** X12.  Which failures are retried.  An exchange that ends in an
    error is retryable exactly when it got a response, or failed while
    reading the body of a response, with a status of 500 or more, 429 or
    408.  So a request that could not be built or sent, or that got no
    response, is never retried. *)
Theorem only_some_statuses_are_retried {R} (url : string) (x : Exchange R)
    (err : error) :
  settle url x = inl err →
  IsRetryable err = true ↔
  ∃ status,
    (500 ≤ status ∨ status = 429 ∨ status = 408) ∧
    ((∃ respBody, x = Response status respBody) ∨
     (∃ cause, x = ReadFails status cause)).
Proof.
  assert (∀ (e : SDKError) status u,
            IsRetryable (NetworkError e status u) = true
            ↔ 500 ≤ status ∨ status = 429 ∨ status = 408) as Hnet.
  { intros e status u. simpl.
    unfold StatusTooManyRequests, StatusRequestTimeout.
    rewrite !orb_true_iff, !bool_decide_eq_true. tauto. }
  destruct x as [cause|cause|cause|status cause|status respBody]; simpl.
  - intros [= <-]. simpl. split; [done|].
    intros (status & _ & [[? [=]] | [? [=]]]).
  - intros [= <-]. unfold NewNetworkError. rewrite Hnet. split; [lia|].
    intros (status & _ & [[? [=]] | [? [=]]]).
  - intros [= <-]. unfold NewNetworkError. rewrite Hnet. split; [lia|].
    intros (status & _ & [[? [=]] | [? [=]]]).
  - intros [= <-]. unfold NewNetworkError. rewrite Hnet. split.
    + intros Hs. exists status. split; [done|]. right. eauto.
    + intros (status' & Hs & [[? [=]] | [? [= -> _]]]). done.
  - assert ((∃ status',
               (500 ≤ status' ∨ status' = 429 ∨ status' = 408) ∧
               ((∃ respBody', Response status respBody
                              = Response status' respBody') ∨
                (∃ cause, Response (R := R) status respBody
                          = ReadFails status' cause)))
            ↔ 500 ≤ status ∨ status = 429 ∨ status = 408) as ->.
    { split.
      - intros (status' & Hs & [[? [= -> _]] | [? [=]]]). done.
      - intros Hs. exists status. split; [done|]. left. eauto. }
    case_bool_decide as Hhigh.
    + intros [= <-]. unfold handleHTTPError.
      unfold StatusUnauthorized, StatusBadRequest, StatusTooManyRequests,
        StatusRequestTimeout.
      destruct (asAPIError respBody) as [apiErr|].
      * destruct (decide (status = 401)) as [->|H401];
          [simpl; split; [done | lia]|].
        rewrite (bool_decide_false (status = 401)) by done.
        destruct (decide (status = 400)) as [->|H400];
          [simpl; split; [done | lia]|].
        rewrite (bool_decide_false (status = 400)) by done.
        destruct (decide (status = 429)) as [->|H429];
          [simpl; split; [lia | done]|].
        rewrite (bool_decide_false (status = 429)) by done.
        destruct (decide (status = 408)) as [->|H408];
          [simpl; split; [lia | done]|].
        rewrite (bool_decide_false (status = 408)) by done.
        unfold NewNetworkError. by rewrite Hnet.
      * unfold NewNetworkError. by rewrite Hnet.
    + assert (∀ e u, IsRetryable (NetworkError e status u) = true
                     ↔ 500 ≤ status ∨ status = 429 ∨ status = 408) as Hnet'
        by (intros; apply Hnet).
      destruct (asAPIResponse respBody) as [[success [apiErr|]]|];
        destruct (asResult respBody) as [cause|result]; simpl;
        intros [= <-]; apply Hnet'.
Qed.

Lemma only_some_statuses_are_retried_witness :
  IsRetryable (NewNetworkError "Request failed" 0 "http://host/api"
                 (Some "connection refused")) = true
  ↔ ∃ status,
      (500 ≤ status ∨ status = 429 ∨ status = 408) ∧
      ((∃ respBody, DoFails (R := unit) "connection refused"
                    = Response status respBody) ∨
       (∃ cause, DoFails (R := unit) "connection refused"
                 = ReadFails status cause)).
Proof.
  exact (only_some_statuses_are_retried (R := unit) "http://host/api"
           (DoFails "connection refused") _ eq_refl).
Defined.

End TransportLaws.

(** ** The evaluator and its cache *)

Module EvaluationLaws.
Import errors types metrics wire runtime httpclient evaluator.
Import cache persistent manager predicates.
Import EvaluatorFacts.

(** A lookup that finds a fresh entry: [EvaluateFlag] hands the entry out,
    marked as a cache hit, and goes nowhere near the network. *)
Lemma EvaluateFlag_hit E e k dv uc w item :
  items (mem w) !! generateCacheKey e k uc = Some item →
  (∀ i, (reads w ≤ i ≤ S (reads w))%nat → clock E i ≤ expiration item) →
  ∃ w',
    evaluator.EvaluateFlag e k dv uc E w
    = Returns (withCacheHit (value item)) w' ∧
    exchanges w' = exchanges w ∧ disk w' = disk w ∧ closed w' = closed w ∧
    items (mem w') = items (mem w) ∧
    (reads w < reads w' ≤ reads w + 2)%nat ∧
    collector w' = RecordCacheHit (RecordFlagEvaluation (collector w)).
Proof.
  intros Hitem Hfresh.
  assert (∀ t, t ≤ expiration item →
            found (manager.Get (cacheManager w) (generateCacheKey e k uc) t)
            = true ∧
            got (manager.Get (cacheManager w) (generateCacheKey e k uc) t)
            = value item ∧
            items (memoryOf (after (manager.Get (cacheManager w)
                                      (generateCacheKey e k uc) t)))
            = items (mem w)) as Hget.
  { intros t Ht.
    destruct (manager_Get_spec (cacheManager w) (generateCacheKey e k uc) t)
      as (-> & -> & -> & _).
    rewrite Get_items. unfold cache.Get, GoTime.After. unfold mem in Hitem.
    rewrite Hitem. by rewrite bool_decide_false by lia. }
  unfold evaluator.EvaluateFlag, lookupFlag, stamp.
  destruct (GoTime.IsZero (Timestamp uc)); munfold; cbn.
  - rewrite (generateCacheKey_UserID e k uc (mkUserContext (UserID uc) _))
      by done.
    destruct (Hget (clock E (S (reads w)))) as (-> & -> & Hit);
      [apply Hfresh; lia|].
    eexists. split; [reflexivity|]. cbn. unfold mem in *. cbn.
    rewrite bool_decide_true by eauto.
    split_and!; [done.. | lia | lia | done].
  - destruct (Hget (clock E (reads w))) as (-> & -> & Hit);
      [apply Hfresh; lia|].
    eexists. split; [reflexivity|]. cbn. unfold mem in *. cbn.
    rewrite bool_decide_true by eauto.
    split_and!; [done.. | lia | lia | done].
Qed.

(** X13.  A cached flag is served from the cache.  When the cache holds
    an entry under the key of the flag and the user that has not expired
    at the clock readings of the call, [EvaluateFlag] returns the cached
    result marked as a cache hit, whatever the caller's default; it makes
    no HTTP exchange, keeps the entries of the cache and the disk, and
    records one flag evaluation and one cache hit. *)
Theorem EvaluateFlag_served_from_cache (E : Env) (e : Evaluator)
    (flagKey : string) (defaultValue : GoValue) (userContext : UserContext)
    (w : World) (item : cacheItem) :
  items (mem w) !! generateCacheKey e flagKey userContext = Some item →
  (∀ i, (reads w ≤ i ≤ S (reads w))%nat → clock E i ≤ expiration item) →
  ∃ w',
    evaluator.EvaluateFlag e flagKey defaultValue userContext E w
    = Returns (withCacheHit (value item)) w' ∧
    exchanges w' = exchanges w ∧ disk w' = disk w ∧
    items (mem w') = items (mem w) ∧
    collector w' = RecordCacheHit (RecordFlagEvaluation (collector w)).
Proof.
  intros Hitem Hfresh.
  destruct (EvaluateFlag_hit E e flagKey defaultValue userContext w item
              Hitem Hfresh) as (w' & Hrun & Hx & Hd & _ & Hit & _ & Hcol).
  by exists w'.
Qed.

(** [CacheManager.Set] with a zero TTL on a healthy cache with room for one
    entry: the entry is stored, to expire one configured TTL later (one
    default TTL of the cache, when the configured TTL is zero). *)
Lemma EvaluateFlag_served_from_cache_witness :
  ∃ w',
    evaluator.EvaluateFlag scenario.theEvaluator "f" (VString "fallback")
      scenario.user1 scenario.failing examples.cachedWorld
    = Returns (withCacheHit examples.cachedResult) w' ∧
    exchanges w' = 0%nat.
Proof.
  assert (items (mem examples.cachedWorld)
          !! generateCacheKey scenario.theEvaluator "f" scenario.user1
          = Some (mkCacheItem "flag:f:user:u1:env:prod" examples.cachedResult
                    (10 * GoTime.second))) as Hitem
    by (vm_compute; reflexivity).
  destruct (EvaluateFlag_served_from_cache scenario.failing
              scenario.theEvaluator "f" (VString "fallback") scenario.user1
              examples.cachedWorld _ Hitem)
    as (w' & Hrun & Hx & _).
  - intros i Hi. destruct i as [|[|i]]; [| |simpl in Hi; lia];
      vm_compute; discriminate.
  - exists w'. split; [exact Hrun | exact Hx].
Defined.




(** X15.  A batch the cache can serve makes no HTTP call.  When every
    flag of the list has an entry in the cache that does not expire during
    the call, [EvaluateFlags] returns one result for each flag of the list
    and none for any other key, each the cached result marked as a cache
    hit; it makes no HTTP exchange and keeps the entries of the cache and
    the disk. *)
Theorem EvaluateFlags_all_cached (E : Env) (e : Evaluator)
    (flagKeys : list string) (userContext : UserContext) (w : World) :
  (∀ k, k ∈ flagKeys →
        ∃ item,
          items (mem w) !! generateCacheKey e k userContext = Some item ∧
          ∀ i, (reads w ≤ i)%nat → clock E i ≤ expiration item) →
  ∃ results w',
    evaluator.EvaluateFlags e flagKeys userContext E w = Returns results w' ∧
    exchanges w' = exchanges w ∧ disk w' = disk w ∧
    items (mem w') = items (mem w) ∧
    (∀ k, k ∈ flagKeys →
          ∃ item,
            items (mem w) !! generateCacheKey e k userContext = Some item ∧
            results !! k = Some (withCacheHit (value item))) ∧
    (∀ k, k ∉ flagKeys → results !! k = None).
Proof.
  intros Hfresh. unfold evaluator.EvaluateFlags, partitionCached.
  assert (∃ uc1 w0, stamp userContext E w = Returns uc1 w0 ∧
                    UserID uc1 = UserID userContext ∧ timeOnly w w0)
    as (uc1 & w0 & Hstamp & Hu & Htime).
  { unfold stamp. destruct (GoTime.IsZero (Timestamp userContext)); munfold.
    - eexists _, _. split; [reflexivity|]. split; [done|].
      apply (timeOnly_tick w w), timeOnly_refl.
    - eexists _, _. split; [reflexivity|]. split; [done|].
      apply timeOnly_refl. }
  destruct Htime as (Hcm0 & Hd0 & Hcl0 & Hx0 & Hr0).
  unfold mbind, M_bind, bind. rewrite Hstamp.
  destruct (foldM_total (checkCache e uc1)
    (λ pre acc w',
       acc.2 = [] ∧ disk w' = disk w ∧ exchanges w' = exchanges w ∧
       (reads w ≤ reads w')%nat ∧ items (mem w') = items (mem w) ∧
       (∀ k, k ∈ pre →
             ∃ item,
               items (mem w) !! generateCacheKey e k userContext = Some item ∧
               acc.1 !! k = Some (withCacheHit (value item))) ∧
       (∀ k, k ∉ pre → acc.1 !! k = None))
    E flagKeys) with (pre := @nil string)
                     (b := ((∅, []) : gmap string FlagResult * list string))
                     (w := w0)
    as ([results uncached] & w1 & Hrun & Hunc & Hd & Hx & Hr & Hit & Hin & Hout).
  - intros pre a [results uncached] w' Ha
      (Hunc & Hd & Hx & Hr & Hit & Hin & Hout).
    simpl in Hunc. subst uncached.
    destruct (checkCache_spec e uc1 (results, []) a E w')
      as (w2 & Hrun & Hcm2 & Hd2 & Hcl2 & Hx2 & Hr2).
    rewrite (generateCacheKey_UserID e a userContext uc1 Hu) in *.
    destruct (Hfresh a Ha) as (item & Hitem & Hlive).
    destruct (manager_Get_spec (cacheManager w')
                (generateCacheKey e a userContext) (clock E (reads w')))
      as (Hfound & Hgot & Hmem & _).
    assert (items (memoryOf (cacheManager w'))
            !! generateCacheKey e a userContext = Some item) as Hitem'.
    { unfold mem in Hit. by rewrite Hit. }
    assert (found (cache.Get (memoryOf (cacheManager w'))
                     (generateCacheKey e a userContext) (clock E (reads w')))
            = true ∧
            got (cache.Get (memoryOf (cacheManager w'))
                   (generateCacheKey e a userContext) (clock E (reads w')))
            = value item) as [Hf Hg].
    { unfold cache.Get, GoTime.After. rewrite Hitem'.
      by rewrite bool_decide_false by (specialize (Hlive (reads w') Hr); lia). }
    rewrite Hfound, Hf, Hgot, Hg in Hrun. simpl in Hrun.
    eexists _, w2. split; [exact Hrun|]. simpl.
    split_and!; [done | congruence | congruence | | | |].
    + rewrite Hr2. case_bool_decide; lia.
    + unfold mem. rewrite Hcm2, Hmem, Get_items. exact Hit.
    + intros k [Hk | ->%list_elem_of_singleton]%elem_of_app.
      * destruct (Hin k Hk) as (item' & Hitem'' & Hres).
        destruct (decide (k = a)) as [->|Hne].
        -- exists item. split; [done|]. apply lookup_insert_eq.
        -- exists item'. split; [done|]. by rewrite lookup_insert_ne.
      * exists item. split; [done|]. apply lookup_insert_eq.
    + intros k Hk. rewrite lookup_insert_ne.
      * apply Hout. intros ?. apply Hk, elem_of_app. by left.
      * intros ->. apply Hk, elem_of_app. right. by left.
  - simpl. unfold mem. rewrite Hcm0.
    split_and!; [done | done | done | lia | done | | ].
    + by intros k ?%elem_of_nil.
    + intros k _. apply lookup_empty.
  - simpl in *. subst uncached. rewrite Hrun. cbn.
    exists results, w1. split; [reflexivity|]. done.
Qed.

Lemma EvaluateFlags_all_cached_witness :
  ∃ results w',
    evaluator.EvaluateFlags scenario.theEvaluator ["f"] scenario.user1
      examples.stopped examples.cachedWorld
    = Returns results w' ∧
    exchanges w' = 0%nat ∧ results !! "g" = None.
Proof.
  destruct (EvaluateFlags_all_cached examples.stopped scenario.theEvaluator
              ["f"] scenario.user1 examples.cachedWorld)
    as (results & w' & Hrun & Hx & _ & _ & _ & Hout).
  - intros k Hk. apply list_elem_of_singleton in Hk. subst k.
    eexists. split; [vm_compute; reflexivity|].
    intros i _. vm_compute. discriminate.
  - exists results, w'. split; [exact Hrun|]. split; [exact Hx|].
    apply Hout. intros Hin. apply list_elem_of_singleton in Hin.
    discriminate.
Defined.

Lemma lookupFlag_collector e k uc E w x w1 :
  lookupFlag e k uc E w = Returns x w1 →
  collector w1 = RecordFlagEvaluation (collector w).
Proof.
  unfold lookupFlag, stamp. destruct (GoTime.IsZero (Timestamp uc)); munfold;
    cbn; by intros [= <- <-].
Qed.

(** X16.  Every evaluation is counted.  On a healthy cache, with a
    [retryAttempts] below the largest int, [EvaluateFlag] returns and the
    collector has one more flag evaluation.  On a cache hit it has one
    more cache hit and nothing else; otherwise it has one more cache miss,
    one more API call for each HTTP exchange made, and one more error for
    each failed exchange: all the exchanges when the result carries an
    error, all but the last when it does not.  The API calls and errors
    are compared as 64-bit integers. *)
Theorem EvaluateFlag_is_counted (E : Env) (e : Evaluator) (flagKey : string)
    (defaultValue : GoValue) (userContext : UserContext) (w : World) :
  cacheOK (cacheManager w) →
  retryAttempts (httpClient e) < GoInt.max_int64 →
  ∃ result w' made,
    evaluator.EvaluateFlag e flagKey defaultValue userContext E w
    = Returns result w' ∧
    exchanges w' = (exchanges w + made)%nat ∧
    flagsEvaluated (collector w')
    = GoInt.wrap64 (flagsEvaluated (collector w) + 1) ∧
    if CacheHit result then
      made = 0%nat ∧
      cacheHits (collector w') = GoInt.wrap64 (cacheHits (collector w) + 1) ∧
      cacheMisses (collector w') = cacheMisses (collector w) ∧
      apiCalls (collector w') = apiCalls (collector w) ∧
      errorCount (collector w') = errorCount (collector w)
    else
      cacheMisses (collector w')
      = GoInt.wrap64 (cacheMisses (collector w) + 1) ∧
      cacheHits (collector w') = cacheHits (collector w) ∧
      GoInt.wrap64 (apiCalls (collector w'))
      = GoInt.wrap64 (apiCalls (collector w) + Z.of_nat made) ∧
      GoInt.wrap64 (errorCount (collector w'))
      = GoInt.wrap64
          (errorCount (collector w) + Z.of_nat made
           - match Error result with
             | None => if bool_decide (made = 0%nat) then 0 else 1
             | Some _ => 0
             end).
Proof.
  intros Hok Hbound.
  destruct (lookupFlag_spec e flagKey userContext E w)
    as (uc1 & w1 & i & Hlook & Hu & Hcm1 & Hd1 & Hcl1 & Hx1 & _).
  pose proof (lookupFlag_collector _ _ _ _ _ _ _ Hlook) as Hcol1.
  unfold evaluator.EvaluateFlag. unfold mbind at 1. unfold M_bind, bind.
  rewrite Hlook. cbn [fst snd].
  destruct (found (manager.Get (cacheManager w) _ (clock E i))) eqn:Hfound.
  - munfold. cbn. eexists _, _, 0%nat. split; [reflexivity|]. cbn.
    rewrite Hcol1. split_and!; [lia | done..].
  - pose proof (manager_Get_miss_after _ _ _ Hfound) as Hafter.
    rewrite Hafter in Hcm1.
    unfold evaluateFlagFromAPI, httpclient.EvaluateFlag, makeRequest.
    unfold mbind, M_bind, bind, record.
    destruct (TransportLaws.attemptLoop_account (httpClient e) flagAPI
                "/api/v1/sdk/evaluate" (mkEvaluateFlagRequest flagKey uc1)
                zeroEvaluateFlagResponse E
                (Z.to_nat (retryAttempts (httpClient e) + 1)) 0 None
                (mkWorld (cacheManager w1) (disk w1)
                   (RecordCacheMiss (collector w1)) (closed w1) (reads w1)
                   (exchanges w1) (sleeps w1) (spawnedDeletes w1)))
      as (res & w2 & made & -> & Hx2 & _ & _ & _ & Hcm2 & _ & _ & _ & Hh &
          Hm & Hf & Hapi & Herr & _); [lia|].
    cbn in Hx2, Hcm2, Hh, Hm, Hf, Hapi, Herr. rewrite Hcol1 in *.
    destruct res as [err|response]; unfold now, mret, M_ret, ret; cbn.
    + eexists _, _, made. split; [reflexivity|]. cbn.
      split_and!; [lia | done | done | done | done | done].
    + unfold cacheSet. cbn.
      destruct (manager_Set_ok (cacheManager w2)
                  (generateCacheKey e flagKey uc1)
                  (mkFlagResult flagKey (VBool (Enabled response))
                     "api_evaluation" EmptyString EmptyString None
                     (clock E (reads w2)) false) 0 (clock E (S (reads w2)))
                  (disk w2)) as (cm' & d' & -> & _).
      { by rewrite Hcm2, Hcm1. }
      eexists _, _, made. split; [reflexivity|]. cbn.
      split_and!; [lia | done | done | done | done | done].
Qed.

Lemma EvaluateFlag_is_counted_witness :
  ∃ result w',
    evaluator.EvaluateFlag scenario.theEvaluator "f" (VString "fallback")
      scenario.user1 scenario.healthy scenario.world0
    = Returns result w' ∧
    flagsEvaluated (collector w') = 1.
Proof.
  destruct (EvaluateFlag_is_counted scenario.healthy scenario.theEvaluator
              "f" (VString "fallback") scenario.user1 scenario.world0
              world0_ok)
    as (result & w' & made & Hrun & _ & Hflags & _).
  - simpl. unfold GoInt.max_int64. lia.
  - exists result, w'. split; [exact Hrun | exact Hflags].
Defined.

(** X17.  A client with a negative [retryAttempts] sends nothing.  The
    loop of [makeRequest] does not run, so the HTTP call returns no error
    and leaves the response at its zero value.  On a healthy cache
    [EvaluateFlag] then makes no HTTP exchange and, unless the cache
    serves the flag, reports it as evaluated by the API: value [false],
    reason [api_evaluation], no error. *)
Theorem negative_retryAttempts_skip_the_network (E : Env) (e : Evaluator)
    (flagKey : string) (defaultValue : GoValue) (userContext : UserContext)
    (w : World) :
  retryAttempts (httpClient e) < 0 →
  cacheOK (cacheManager w) →
  httpclient.EvaluateFlag (httpClient e) flagKey userContext
    (Environment (evaluator.config e)) E w
  = Returns (inr zeroEvaluateFlagResponse) w ∧
  ∃ result w',
    evaluator.EvaluateFlag e flagKey defaultValue userContext E w
    = Returns result w' ∧
    exchanges w' = exchanges w ∧
    (CacheHit result = false →
     Key result = flagKey ∧ Value result = VBool false ∧
     Reason result = "api_evaluation" ∧ Error result = None).
Proof.
  intros Hneg Hok.
  assert (∀ uc w0,
            httpclient.EvaluateFlag (httpClient e) flagKey uc
              (Environment (evaluator.config e)) E w0
            = Returns (inr zeroEvaluateFlagResponse) w0) as Hfetch.
  { intros uc w0. unfold httpclient.EvaluateFlag, makeRequest.
    by replace (Z.to_nat (retryAttempts (httpClient e) + 1)) with 0%nat
      by lia. }
  split; [apply Hfetch|].
  destruct (lookupFlag_spec e flagKey userContext E w)
    as (uc1 & w1 & i & Hlook & Hu & Hcm1 & Hd1 & Hcl1 & Hx1 & _).
  unfold evaluator.EvaluateFlag. unfold mbind at 1. unfold M_bind, bind.
  rewrite Hlook. cbn [fst snd].
  destruct (found (manager.Get (cacheManager w) _ (clock E i))) eqn:Hfound.
  - munfold. cbn. eexists _, _. split; [reflexivity|]. cbn.
    split; [done|]. done.
  - pose proof (manager_Get_miss_after _ _ _ Hfound) as Hafter.
    rewrite Hafter in Hcm1.
    unfold evaluateFlagFromAPI. unfold mbind, M_bind, bind, record.
    rewrite Hfetch. unfold now, mret, M_ret, ret, cacheSet. cbn.
    destruct (manager_Set_ok (cacheManager w1)
                (generateCacheKey e flagKey uc1)
                (mkFlagResult flagKey (VBool false)
                   "api_evaluation" EmptyString EmptyString None
                   (clock E (reads w1)) false) 0 (clock E (S (reads w1)))
                (disk w1)) as (cm' & d' & -> & _).
    { by rewrite Hcm1. }
    eexists _, _. split; [reflexivity|]. cbn. done.
Qed.

Lemma negative_retryAttempts_skip_the_network_witness :
  ∃ result w',
    evaluator.EvaluateFlag examples.hasty "f" (VString "fallback")
      scenario.user1 scenario.failing scenario.world0
    = Returns result w' ∧
    exchanges w' = 0%nat ∧
    (CacheHit result = false →
     Value result = VBool false ∧ Error result = None).
Proof.
  destruct (negative_retryAttempts_skip_the_network scenario.failing
              examples.hasty "f" (VString "fallback") scenario.user1
              scenario.world0)
    as (_ & result & w' & Hrun & Hx & Hfresh).
  - simpl. lia.
  - exact world0_ok.
  - exists result, w'. split; [exact Hrun|]. split; [exact Hx|].
    intros Hmiss. destruct (Hfresh Hmiss) as (_ & Hvalue & _ & Herror).
    split; [exact Hvalue | exact Herror].
Defined.

End EvaluationLaws.

(** ** The life of a client *)

Module LifecycleLaws.
Import errors types metrics wire runtime httpclient evaluator.
Import cache persistent manager predicates.
Import EvaluatorFacts.

(** X18.  [RefreshCache] and [ClearCache] on an open client do the
    same: they return nil and leave the cache empty, with its capacity,
    without an HTTP exchange.  An [EvaluateFlag] that follows and returns
    is not a cache hit, and has made at least one HTTP exchange when
    [retryAttempts] is not negative. *)
Theorem RefreshCache_forces_fresh_evaluation (E : Env)
    (c : variably.VariablyClient) (w : World) :
  closed w = false →
  ∃ w',
    lifecycle.RefreshCache c E w = Returns None w' ∧
    lifecycle.ClearCache c E w = Returns None w' ∧
    items (mem w') = ∅ ∧ lruList (mem w') = [] ∧
    maxSize (mem w') = maxSize (mem w) ∧
    exchanges w' = exchanges w ∧ closed w' = false ∧
    ∀ flagKey defaultValue userContext result w'',
      variably.EvaluateFlag c flagKey defaultValue userContext E w'
      = Returns result w'' →
      CacheHit result = false ∧
      (0 ≤ retryAttempts (httpClient (variably.evaluator c)) →
       (exchanges w' < exchanges w'')%nat).
Proof.
  intros Hopen.
  unfold lifecycle.ClearCache, lifecycle.eval.ClearCache,
    lifecycle.RefreshCache, lifecycle.eval.RefreshCache,
    variably.ensureNotClosed, lifecycle.cacheClear.
  unfold mbind, M_bind, bind, mret, M_ret, ret. rewrite Hopen.
  eexists. split; [reflexivity|]. split; [reflexivity|].
  set (w' := mkWorld _ _ _ _ _ _ _ _).
  assert (items (mem w') = ∅ ∧ lruList (mem w') = [] ∧
          maxSize (mem w') = maxSize (mem w)) as (Hitems & Hlist & Hmax).
  { unfold w', mem, memoryOf, manager.Clear.
    by destruct (cacheManager w) as [[mc|[mc fp]] cfg]. }
  assert (closed w' = false ∧ exchanges w' = exchanges w) as [Hopen' Hx'].
  { unfold w', manager.Clear.
    by destruct (cacheManager w) as [[mc|[mc fp]] cfg]. }
  split_and!; [done..|].
  clearbody w'.
  intros flagKey dv uc result w''.
  unfold variably.EvaluateFlag, variably.ensureNotClosed.
  unfold mbind at 1. unfold M_bind, bind. rewrite Hopen'.
  destruct (lookupFlag_spec (variably.evaluator c) flagKey uc E w')
    as (uc1 & w1 & i & Hlook & Hu & Hcm1 & Hd1 & Hcl1 & Hx1 & _).
  assert (found (manager.Get (cacheManager w')
                   (generateCacheKey (variably.evaluator c) flagKey uc)
                   (clock E i)) = false) as Hmiss.
  { destruct (manager_Get_spec (cacheManager w')
                (generateCacheKey (variably.evaluator c) flagKey uc)
                (clock E i)) as (-> & _).
    unfold cache.Get. unfold mem in Hitems. by rewrite Hitems, lookup_empty. }
  rewrite Hmiss in Hlook.
  destruct (fetch_quiet (httpClient (variably.evaluator c)) flagKey uc1
              (Environment (evaluator.config (variably.evaluator c))) E
              (mkWorld (cacheManager w1) (disk w1)
                 (RecordCacheMiss (collector w1)) (closed w1) (reads w1)
                 (exchanges w1) (sleeps w1) (spawnedDeletes w1)))
    as (res & w2 & Hrun & _ & _ & _ & _ & _ & Hstrict).
  cbn in Hstrict.
  rewrite (EvaluateFlag_after_miss _ _ dv _ _ _ _ _ _ res w2 Hlook);
    [|by munfold].
  destruct res as [err|response].
  - intros [= <- <-]. split; [done|]. intros Hn. specialize (Hstrict Hn).
    simpl. lia.
  - unfold mbind, M_bind, bind.
    destruct (cacheSet _ _ _ E (tick w2)) as [u w6| |] eqn:Hset; [|done..].
    apply cacheSet_exchanges in Hset. unfold mret, M_ret, ret.
    intros [= <- <-]. split; [done|]. intros Hn. specialize (Hstrict Hn).
    simpl in *. lia.
Qed.

Lemma RefreshCache_forces_fresh_evaluation_witness :
  ∃ w',
    lifecycle.RefreshCache scenario.theClient scenario.healthy scenario.world0
    = Returns None w' ∧ items (mem w') = ∅.
Proof.
  destruct (RefreshCache_forces_fresh_evaluation scenario.healthy
              scenario.theClient scenario.world0 eq_refl)
    as (w' & Hrun & _ & Hitems & _).
  exists w'. split; [exact Hrun | exact Hitems].
Defined.

(** X19.  [Close] returns nil, marks the client closed and touches
    neither the cache nor the disk; a second [Close] returns nil and
    changes nothing.  On the closed client every call that starts with
    [ensureNotClosed] panics with the message of that function before it
    does anything else: the flag calls and the typed accessors, the gate
    calls, the batch calls, [Track] and [TrackBatch], [Subscribe] and
    [Unsubscribe], [RefreshCache] and [ClearCache]. *)
Theorem closed_client_panics (E : Env) (c : variably.VariablyClient)
    (w : World) :
  ∃ w',
    lifecycle.Close c E w = Returns None w' ∧ closed w' = true ∧
    cacheManager w' = cacheManager w ∧ disk w' = disk w ∧
    exchanges w' = exchanges w ∧
    lifecycle.Close c E w' = Returns None w' ∧
    (∀ flagKey defaultValue userContext,
       variably.EvaluateFlag c flagKey defaultValue userContext E w'
       = Panics "Variably client has been closed" ∧
       variably.EvaluateFlagJSON c flagKey defaultValue userContext E w'
       = Panics "Variably client has been closed") ∧
    (∀ flagKey defaultValue userContext,
       variably.EvaluateFlagBool c flagKey defaultValue userContext E w'
       = Panics "Variably client has been closed") ∧
    (∀ flagKey defaultValue userContext,
       variably.EvaluateFlagString c flagKey defaultValue userContext E w'
       = Panics "Variably client has been closed") ∧
    (∀ flagKey defaultValue userContext,
       variably.EvaluateFlagInt c flagKey defaultValue userContext E w'
       = Panics "Variably client has been closed") ∧
    (∀ flagKey defaultValue userContext,
       variably.EvaluateFlagFloat c flagKey defaultValue userContext E w'
       = Panics "Variably client has been closed") ∧
    (∀ flagKeys userContext,
       variably.EvaluateFlags c flagKeys userContext E w'
       = Panics "Variably client has been closed") ∧
    (∀ svc gateKey gateKeys userContext n,
       gates.api.EvaluateGate c svc gateKey userContext n E w'
       = Panics "Variably client has been closed" ∧
       gates.api.EvaluateGates c svc gateKeys userContext n E w'
       = Panics "Variably client has been closed") ∧
    (∀ analytics svc event events n,
       tracking.api.Track c analytics svc event n E w'
       = Panics "Variably client has been closed" ∧
       tracking.api.TrackBatch c analytics svc events n E w'
       = Panics "Variably client has been closed") ∧
    (∀ (CB : Type) sync flagKeys (callback : CB) subscriptions,
       lifecycle.Subscribe c sync flagKeys callback subscriptions E w'
       = Panics "Variably client has been closed" ∧
       lifecycle.Unsubscribe c flagKeys subscriptions E w'
       = Panics "Variably client has been closed") ∧
    lifecycle.RefreshCache c E w' = Panics "Variably client has been closed" ∧
    lifecycle.ClearCache c E w' = Panics "Variably client has been closed".
Proof.
  assert (∃ w', lifecycle.Close c E w = Returns None w' ∧ closed w' = true ∧
                cacheManager w' = cacheManager w ∧ disk w' = disk w ∧
                exchanges w' = exchanges w)
    as (w' & Hclose & Hclosed & Hcm & Hd & Hx).
  { unfold lifecycle.Close. destruct (closed w) eqn:Hc.
    - by exists w.
    - eexists. split; [reflexivity|]. done. }
  exists w'. split_and!; try done.
  - unfold lifecycle.Close. by rewrite Hclosed.
  - intros k dv uc.
    unfold variably.EvaluateFlagJSON, variably.EvaluateFlag,
      variably.ensureNotClosed, mbind, M_bind, bind. by rewrite Hclosed.
  - intros k dv uc.
    unfold variably.EvaluateFlagBool, variably.EvaluateFlag,
      variably.ensureNotClosed, mbind, M_bind, bind. by rewrite Hclosed.
  - intros k dv uc.
    unfold variably.EvaluateFlagString, variably.EvaluateFlag,
      variably.ensureNotClosed, mbind, M_bind, bind. by rewrite Hclosed.
  - intros k dv uc.
    unfold variably.EvaluateFlagInt, variably.EvaluateFlag,
      variably.ensureNotClosed, mbind, M_bind, bind. by rewrite Hclosed.
  - intros k dv uc.
    unfold variably.EvaluateFlagFloat, variably.EvaluateFlag,
      variably.ensureNotClosed, mbind, M_bind, bind. by rewrite Hclosed.
  - intros ks uc.
    unfold variably.EvaluateFlags, variably.ensureNotClosed, mbind, M_bind,
      bind. by rewrite Hclosed.
  - intros svc k ks uc n.
    unfold gates.api.EvaluateGate, gates.api.EvaluateGates,
      variably.ensureNotClosed, mbind, M_bind, bind. by rewrite Hclosed.
  - intros analytics svc ev evs n.
    unfold tracking.api.Track, tracking.api.TrackBatch,
      variably.ensureNotClosed, mbind, M_bind, bind. by rewrite Hclosed.
  - intros CB sync ks cb subs.
    unfold lifecycle.Subscribe, lifecycle.Unsubscribe,
      variably.ensureNotClosed, mbind, M_bind, bind. by rewrite Hclosed.
  - unfold lifecycle.RefreshCache, variably.ensureNotClosed, mbind, M_bind,
      bind. by rewrite Hclosed.
  - unfold lifecycle.ClearCache, variably.ensureNotClosed, mbind, M_bind,
      bind. by rewrite Hclosed.
Qed.

Lemma subscribe_loop {CB : Type} (callback : CB) (flagKeys : list string) :
  ∀ (subs : gmap string (list CB)) k,
    foldl (λ subs flagKey,
             <[flagKey := (default [] (subs !! flagKey) ++ [callback])%list]>
               subs)
          subs flagKeys !! k
    = if bool_decide (k ∈ flagKeys)
      then Some (default [] (subs !! k)
                 ++ replicate (length (filter (λ x, x = k) flagKeys))
                      callback)%list
      else subs !! k.
Proof.
  induction flagKeys as [|x flagKeys IH]; intros subs k; cbn [foldl].
  - by rewrite bool_decide_false by apply not_elem_of_nil.
  - rewrite IH. destruct (decide (x = k)) as [->|Hne].
    + rewrite filter_cons_True by done. cbn [length replicate].
      rewrite lookup_insert_eq.
      rewrite (bool_decide_true (k ∈ k :: flagKeys)) by (by left).
      destruct (decide (k ∈ flagKeys)) as [Hin|Hin].
      * rewrite bool_decide_true by done. f_equal. simpl.
        by rewrite <- app_assoc.
      * rewrite bool_decide_false by done.
        assert (filter (λ x, x = k) flagKeys = []) as ->.
        { destruct (filter (λ x, x = k) flagKeys) as [|y ys] eqn:Hf; [done|].
          assert (y ∈ filter (λ x, x = k) flagKeys) as Hy
            by (rewrite Hf; by left).
          apply list_elem_of_filter in Hy as [-> ?]. done. }
        done.
    + rewrite filter_cons_False by done. rewrite lookup_insert_ne by done.
      destruct (decide (k ∈ flagKeys)) as [Hin|Hin].
      * rewrite !bool_decide_true; [done | by right | done].
      * rewrite !bool_decide_false; [done | | done].
        by intros [?|?]%elem_of_cons.
Qed.

Lemma unsubscribe_loop {CB : Type} (flagKeys : list string) :
  ∀ (subs : gmap string (list CB)) k,
    foldl (λ subs flagKey, delete flagKey subs) subs flagKeys !! k
    = if bool_decide (k ∈ flagKeys) then None else subs !! k.
Proof.
  induction flagKeys as [|x flagKeys IH]; intros subs k; cbn [foldl].
  - by rewrite bool_decide_false by apply not_elem_of_nil.
  - rewrite IH. destruct (decide (k ∈ flagKeys)) as [Hin|Hin].
    + rewrite !bool_decide_true; [done | by right | done].
    + rewrite (bool_decide_false (k ∈ flagKeys)) by done.
      destruct (decide (k = x)) as [->|Hne].
      * rewrite bool_decide_true by (by left). apply lookup_delete_eq.
      * rewrite bool_decide_false by (by intros [?|?]%elem_of_cons).
        by apply lookup_delete_ne.
Qed.

(** X20.  Subscriptions, on an open client.  With real-time sync
    disabled [Subscribe] returns a configuration error and registers
    nothing.  With it enabled [Subscribe] appends the callback to the
    callbacks of every flag key of the list, once for each occurrence of
    the key, and leaves the other keys alone.  [Unsubscribe] of the same
    keys then removes all the callbacks of those keys, those that were
    registered before included, and leaves the other keys alone. *)
Theorem Unsubscribe_removes_every_callback {CB : Type} (E : Env)
    (c : variably.VariablyClient) (w : World) (flagKeys : list string)
    (callback : CB) (subscriptions : gmap string (list CB)) :
  closed w = false →
  lifecycle.Subscribe c false flagKeys callback subscriptions E w
  = Returns (Some (NewConfigError "Real-time sync is disabled"
                     "EnableRealTimeSync" None), subscriptions) w ∧
  ∃ subscribed unsubscribed,
    lifecycle.Subscribe c true flagKeys callback subscriptions E w
    = Returns (None, subscribed) w ∧
    (∀ k, subscribed !! k
          = if bool_decide (k ∈ flagKeys)
            then Some (default [] (subscriptions !! k)
                       ++ replicate (length (filter (λ x, x = k) flagKeys))
                            callback)%list
            else subscriptions !! k) ∧
    lifecycle.Unsubscribe c flagKeys subscribed E w
    = Returns (None, unsubscribed) w ∧
    (∀ k, unsubscribed !! k
          = if bool_decide (k ∈ flagKeys) then None else subscriptions !! k).
Proof.
  intros Hopen.
  unfold lifecycle.Subscribe, lifecycle.Unsubscribe, variably.ensureNotClosed.
  unfold mbind, M_bind, bind, mret, M_ret, ret. rewrite Hopen. cbn [negb].
  split; [done|]. eexists _, _. split; [reflexivity|].
  split; [apply subscribe_loop|]. split; [reflexivity|].
  intros k. rewrite unsubscribe_loop, subscribe_loop.
  by case_bool_decide.
Qed.

Lemma Unsubscribe_removes_every_callback_witness :
  ∃ subscribed unsubscribed,
    lifecycle.Subscribe scenario.theClient true ["a"; "b"] 7%nat
      (<["a" := [1%nat]]> ∅) scenario.healthy scenario.world0
    = Returns (None, subscribed) scenario.world0 ∧
    subscribed !! "a" = Some [1%nat; 7%nat] ∧
    lifecycle.Unsubscribe scenario.theClient ["a"; "b"] subscribed
      scenario.healthy scenario.world0
    = Returns (None, unsubscribed) scenario.world0 ∧
    unsubscribed !! "a" = None.
Proof.
  destruct (proj2 (Unsubscribe_removes_every_callback scenario.healthy
                     scenario.theClient scenario.world0 ["a"; "b"] 7%nat
                     (<["a" := [1%nat]]> ∅) eq_refl))
    as (subscribed & unsubscribed & Hsub & Hsubs & Hunsub & Hunsubs).
  exists subscribed, unsubscribed.
  split; [exact Hsub|]. split; [exact (Hsubs "a")|].
  split; [exact Hunsub | exact (Hunsubs "a")].
Defined.

End LifecycleLaws.

(** ** Configuration *)

Module ConfigLaws.
Import errors types cache persistent manager predicates.
Import runtime httpclient evaluator config.

(** A configuration [Validate] accepts has retry attempts that are not
    negative and a cache with room. *)
Lemma Validate_accepted (c valid : Config) :
  Validate c = (None, valid) →
  0 ≤ RetryAttempts valid ∧ 0 < MaxSize (cacheConfig valid).
Proof.
  unfold Validate.
  destruct (String.eqb (APIKey c) EmptyString); [done|].
  destruct (String.eqb (BaseURL c) EmptyString); [done|].
  destruct (String.eqb (Environment c) EmptyString); [done|].
  case_bool_decide as Htimeout; [done|].
  case_bool_decide as Hretry; [done|].
  intros [= <-]. cbn. split; [lia|]. case_bool_decide; lia.
Qed.

(** X21.  [Validate] rejects a configuration and leaves it as it was,
    or accepts it and settles it: afterwards API key, base URL and
    environment are not empty, timeout, cache TTL and cache size are
    positive, the retry attempts are not negative, and eviction policy,
    log level and log format are among the valid ones.  The fields it
    checks, the persistence settings, and a cache TTL and a cache size
    that were positive are kept, and the settled configuration validates
    again, unchanged. *)
Theorem Validate_settles_the_configuration (c : Config) :
  match Validate c with
  | (Some err, c') => c' = c
  | (None, c') =>
      APIKey c' ≠ EmptyString ∧ BaseURL c' ≠ EmptyString ∧
      Environment c' ≠ EmptyString ∧
      0 < Timeout c' ∧ 0 ≤ RetryAttempts c' ∧
      0 < TTL (cacheConfig c') ∧ 0 < MaxSize (cacheConfig c') ∧
      validEvictionPolicies (EvictionPolicy (cacheConfig c')) = true ∧
      validLogLevels (Level (logConfig c')) = true ∧
      validLogFormats (Format (logConfig c')) = true ∧
      APIKey c' = APIKey c ∧ BaseURL c' = BaseURL c ∧
      Environment c' = Environment c ∧ Timeout c' = Timeout c ∧
      RetryAttempts c' = RetryAttempts c ∧
      (0 < TTL (cacheConfig c) → TTL (cacheConfig c') = TTL (cacheConfig c)) ∧
      (0 < MaxSize (cacheConfig c) →
       MaxSize (cacheConfig c') = MaxSize (cacheConfig c)) ∧
      EnablePersistence (cacheConfig c') = EnablePersistence (cacheConfig c) ∧
      PersistencePath (cacheConfig c') = PersistencePath (cacheConfig c) ∧
      Validate c' = (None, c')
  end.
Proof.
  destruct c as [key url env timeout retry maxCache analytics offline sync
                 [ttl maxSize persist path policy] polling [level format out]].
  unfold Validate. cbn.
  destruct (String.eqb key EmptyString) eqn:Hkey; [done|].
  destruct (String.eqb url EmptyString) eqn:Hurl; [done|].
  destruct (String.eqb env EmptyString) eqn:Henv; [done|].
  destruct (decide (timeout ≤ 0)) as [Htimeout|Htimeout];
    [by rewrite bool_decide_true | rewrite (bool_decide_false (timeout ≤ 0))
                                     by done].
  destruct (decide (retry < 0)) as [Hretry|Hretry];
    [by rewrite bool_decide_true | rewrite (bool_decide_false (retry < 0))
                                     by done].
  cbn. rewrite Hkey, Hurl, Henv.
  rewrite (bool_decide_false (timeout ≤ 0)) by done.
  rewrite (bool_decide_false (retry < 0)) by done.
  remember (if bool_decide (ttl ≤ 0) then 5 * GoTime.minute else ttl)
    as ttl' eqn:Httl'.
  remember (if bool_decide (maxSize ≤ 0) then 1000 else maxSize)
    as maxSize' eqn:HmaxSize'.
  remember (if validEvictionPolicies policy then policy else "LRU")
    as policy' eqn:Hpolicy'.
  remember (if validLogLevels level then level else "info")
    as level' eqn:Hlevel'.
  remember (if validLogFormats format then format else "text")
    as format' eqn:Hformat'.
  assert (0 < ttl') as Hpos.
  { subst ttl'. clear. unfold GoTime.minute, GoTime.second.
    case_bool_decide; lia. }
  assert (0 < maxSize') as Hroom.
  { subst maxSize'. clear. case_bool_decide; lia. }
  assert (validEvictionPolicies policy' = true) as Hpol.
  { subst policy'. by destruct (validEvictionPolicies policy) eqn:H. }
  assert (validLogLevels level' = true) as Hlev.
  { subst level'. by destruct (validLogLevels level) eqn:H. }
  assert (validLogFormats format' = true) as Hfmt.
  { subst format'. by destruct (validLogFormats format) eqn:H. }
  rewrite Hpol, Hlev, Hfmt.
  rewrite (bool_decide_false (ttl' ≤ 0)) by (clear -Hpos; lia).
  rewrite (bool_decide_false (maxSize' ≤ 0)) by (clear -Hroom; lia).
  split_and!; try done.
  - by intros ->.
  - by intros ->.
  - by intros ->.
  - clear -Htimeout. lia.
  - clear -Hretry. lia.
  - intros ?. subst ttl'. by rewrite bool_decide_false by lia.
  - intros ?. subst maxSize'. by rewrite bool_decide_false by lia.
Qed.

(** A load into a healthy cache returns, and leaves a healthy cache. *)
Lemma loadItems_ok clk entries : ∀ mc,
  wf mc → 0 ≤ maxSize mc → cache.Size mc ≤ maxSize mc →
  ∃ mc', loadItems clk entries mc = Some mc' ∧ wf mc' ∧
         maxSize mc' = maxSize mc ∧ cache.Size mc' ≤ maxSize mc'.
Proof.
  induction entries as [|[k it] entries IH]; intros mc Hwf Hcap Hsz.
  - by exists mc.
  - cbn [loadItems]. destruct (GoTime.Before _ _); [|by apply IH].
    destruct (CacheFacts.step_wf mc
                (history.OpSet k (item_Value it)
                   (GoTime.Until (until_now clk k) (item_Expiration it))
                   (set_now clk k)) Hwf Hcap Hsz)
      as (mc1 & Hstep & Hwf1 & Hmax1 & Hsz1).
    simpl in Hstep. rewrite Hstep.
    destruct (IH mc1 Hwf1 ltac:(lia) Hsz1) as (mc' & Hrun & Hwf' & Hmax' & Hsz').
    exists mc'. split_and!; [done | done | congruence | done].
Qed.

(** X22.  [NewClient] validates first.  For a configuration (the
    default one when nil is passed) that [Validate] rejects it returns a
    configuration error that carries the text of the rejection.  For one
    that [Validate] accepts it returns an open client that has made no
    exchange, with base URL, API key, retry attempts (not negative) and
    environment of the validated configuration, fresh metrics, and a
    healthy cache of the validated size, which is at least 1.
    [NewClient(nil)] always fails: the default configuration has no API
    key. *)
Theorem NewClient_starts_from_a_valid_configuration (cfg : option Config)
    (ord : GoMap.KeyOrder) (clk : LoadClock) (d : Disk) :
  match Validate (default DefaultConfig cfg) with
  | (Some err, _) =>
      lifecycle.NewClient cfg ord clk d
      = Some (inl (NewConfigError "Invalid configuration" EmptyString
                     (Some (errtext.Error_ err))))
  | (None, valid) =>
      ∃ cm,
        lifecycle.NewClient cfg ord clk d
        = Some (inr (variably.mkVariablyClient
                       (mkEvaluator
                          (mkHTTPClient (BaseURL valid) (APIKey valid)
                             (RetryAttempts valid))
                          (evaluator.mkConfig (Environment valid))),
                     mkWorld cm d metrics.NewMetricsCollector false 0 0 []
                       [])) ∧
        cacheOK cm ∧ maxSize (memoryOf cm) = MaxSize (cacheConfig valid) ∧
        1 ≤ maxSize (memoryOf cm) ∧ 0 ≤ RetryAttempts valid ∧
        manager.config cm = cacheConfig valid
  end ∧
  lifecycle.NewClient None ord clk d
  = Some (inl (NewConfigError "Invalid configuration" EmptyString
                 (Some "API key is required"))).
Proof.
  split; [|done].
  unfold lifecycle.NewClient.
  destruct (Validate (default DefaultConfig cfg)) as [[err|] valid] eqn:Hvalid;
    [done|].
  destruct (Validate_accepted _ _ Hvalid) as [Hretry Hmax].
  unfold NewCacheManager, NewPersistentCache, loadFromFile. simpl.
  assert (cacheOK
            (mkCacheManager
               (OfMemoryCache
                  (NewMemoryCache (MaxSize (cacheConfig valid))
                     (TTL (cacheConfig valid))))
               (cacheConfig valid))) as Hok0.
  { split_and!; [apply CacheFacts.wf_new | simpl; lia |].
    unfold cache.Size. simpl. rewrite map_size_empty. simpl. lia. }
  destruct (EnablePersistence (cacheConfig valid)
            && negb (String.eqb (PersistencePath (cacheConfig valid))
                       EmptyString)).
  2:{ eexists. split; [reflexivity|]. split_and!; [done | done | | done | done].
      simpl. lia. }
  assert (cacheOK
            (mkCacheManager
               (OfPersistentCache
                  (mkPersistentCache
                     (NewMemoryCache (MaxSize (cacheConfig valid))
                        (TTL (cacheConfig valid)))
                     (PersistencePath (cacheConfig valid))))
               (cacheConfig valid))) as Hok1 by exact Hok0.
  destruct (files d !! PersistencePath (cacheConfig valid)) as [data|].
  2:{ eexists. split; [reflexivity|]. split_and!; [done | done | | done | done].
      simpl. lia. }
  destruct (jsonUnmarshal data) as [cacheData|].
  2:{ eexists. split; [reflexivity|]. split_and!; [done | done | | done | done].
      simpl. lia. }
  destruct Hok0 as (Hwf & Hcap & Hsz). cbn [memoryOf manager.cache] in *.
  destruct (loadItems_ok clk (GoMap.range ord (Items cacheData))
              (NewMemoryCache (MaxSize (cacheConfig valid))
                 (TTL (cacheConfig valid))) Hwf Hcap Hsz)
    as (mc' & -> & Hwf' & Hmax' & Hsz').
  eexists. split; [reflexivity|]. cbn in Hmax'. unfold cacheOK, memoryOf.
  cbn. rewrite Hmax' in *. split_and!; try done; lia.
Qed.

(** X23.  A client from the environment.  Without [VARIABLY_API_KEY],
    [NewClientFromEnv] fails with the rejection [API key is required];
    with the key and a timeout that is not positive, with [timeout must be
    greater than 0]; with the key and a positive timeout it returns an
    open client with 3 retry attempts and an empty memory cache of
    capacity 1000, never a persistent one, whose TTL is positive and is
    the TTL that was loaded when that is positive.  Base URL and
    environment are never empty, and a [VARIABLY_TIMEOUT] that does not
    parse leaves the timeout at 5 seconds. *)
Theorem NewClientFromEnv_needs_the_API_key (getenv : string → string)
    (ParseDuration : string → option Z) (ord : GoMap.KeyOrder)
    (clk : LoadClock) (d : Disk) :
  let cfg := LoadConfigFromEnv getenv ParseDuration in
  (getenv "VARIABLY_API_KEY" = EmptyString →
   lifecycle.NewClientFromEnv getenv ParseDuration ord clk d
   = Some (inl (NewConfigError "Invalid configuration" EmptyString
                  (Some "API key is required")))) ∧
  (getenv "VARIABLY_API_KEY" ≠ EmptyString → Timeout cfg ≤ 0 →
   lifecycle.NewClientFromEnv getenv ParseDuration ord clk d
   = Some (inl (NewConfigError "Invalid configuration" EmptyString
                  (Some "timeout must be greater than 0")))) ∧
  (getenv "VARIABLY_API_KEY" ≠ EmptyString → 0 < Timeout cfg →
   ∃ ttl,
     lifecycle.NewClientFromEnv getenv ParseDuration ord clk d
     = Some (inr (variably.mkVariablyClient
                    (mkEvaluator
                       (mkHTTPClient (BaseURL cfg)
                          (getenv "VARIABLY_API_KEY") 3)
                       (evaluator.mkConfig (Environment cfg))),
                  mkWorld
                    (mkCacheManager
                       (OfMemoryCache (NewMemoryCache 1000 ttl))
                       (mkCacheConfig ttl 1000 false EmptyString "LRU"))
                    d metrics.NewMetricsCollector false 0 0 [] [])) ∧
     0 < ttl ∧ (0 < TTL (cacheConfig cfg) → ttl = TTL (cacheConfig cfg))) ∧
  BaseURL cfg ≠ EmptyString ∧ Environment cfg ≠ EmptyString ∧
  (ParseDuration (getenv "VARIABLY_TIMEOUT") = None →
   Timeout cfg = 5 * GoTime.second).
Proof.
  intros cfg.
  assert (BaseURL cfg ≠ EmptyString) as Hurl.
  { unfold cfg, LoadConfigFromEnv. cbn.
    destruct (String.eqb (getenv "VARIABLY_BASE_URL") EmptyString) eqn:Hb;
      [done | by apply String.eqb_neq]. }
  assert (Environment cfg ≠ EmptyString) as Henv.
  { unfold cfg, LoadConfigFromEnv. cbn.
    destruct (String.eqb (getenv "VARIABLY_ENVIRONMENT") EmptyString) eqn:Hb;
      [done | by apply String.eqb_neq]. }
  assert (∀ key, getenv "VARIABLY_API_KEY" = key → APIKey cfg = key) as Hkey.
  { intros key <-. unfold cfg, LoadConfigFromEnv. cbn.
    destruct (String.eqb (getenv "VARIABLY_API_KEY") EmptyString) eqn:Hb;
      [by apply String.eqb_eq in Hb | done]. }
  assert (RetryAttempts cfg = 3) as Hretry by done.
  assert (MaxSize (cacheConfig cfg) = 1000) as Hmax by done.
  assert (EnablePersistence (cacheConfig cfg) = false) as Hpers by done.
  assert (PersistencePath (cacheConfig cfg) = EmptyString) as Hpath by done.
  assert (EvictionPolicy (cacheConfig cfg) = "LRU") as Hpol by done.
  unfold lifecycle.NewClientFromEnv, lifecycle.NewClient. fold cfg.
  cbv zeta. change (default DefaultConfig (Some cfg)) with cfg.
  unfold Validate. cbv zeta.
  rewrite <- (String.eqb_neq (BaseURL cfg)) in Hurl.
  rewrite <- (String.eqb_neq (Environment cfg)) in Henv.
  rewrite Hurl, Henv, Hretry, Hmax, Hpers, Hpath, Hpol.
  rewrite (bool_decide_false (3 < 0)) by lia.
  rewrite (bool_decide_false (1000 ≤ 0)) by lia.
  split_and!.
  - intros Hnone. rewrite (Hkey _ Hnone). done.
  - intros Hsome Hneg. rewrite (Hkey _ eq_refl).
    apply String.eqb_neq in Hsome. rewrite Hsome.
    by rewrite bool_decide_true.
  - intros Hsome Hpos. rewrite (Hkey _ eq_refl).
    apply String.eqb_neq in Hsome. rewrite Hsome.
    rewrite (bool_decide_false (Timeout cfg ≤ 0)) by lia.
    cbn. eexists. split; [reflexivity|].
    case_bool_decide; split; try lia; done.
  - by apply String.eqb_neq.
  - by apply String.eqb_neq.
  - intros Hparse. unfold cfg, LoadConfigFromEnv. cbn. rewrite Hparse.
    by destruct (String.eqb (getenv "VARIABLY_TIMEOUT") EmptyString).
Qed.

End ConfigLaws.

(** ** Feature gates *)

Module GateLaws.
Import errors types metrics wire runtime httpclient evaluator.
Import cache persistent manager predicates.
Import EvaluatorFacts.
Import gates gates.eval.

Lemma generateGateCacheKey_UserID e k uc uc' :
  UserID uc' = UserID uc →
  generateGateCacheKey e k uc' = generateGateCacheKey e k uc.
Proof. unfold generateGateCacheKey. by intros ->. Qed.

(** [stamp] reads the clock at most once and changes nothing else. *)
Lemma stamp_spec uc E w :
  ∃ uc1 w0, stamp uc E w = Returns uc1 w0 ∧ UserID uc1 = UserID uc ∧
            cacheManager w0 = cacheManager w ∧ disk w0 = disk w ∧
            closed w0 = closed w ∧ exchanges w0 = exchanges w ∧
            collector w0 = collector w ∧ sleeps w0 = sleeps w ∧
            (reads w ≤ reads w0 ≤ S (reads w))%nat.
Proof.
  unfold stamp. destruct (GoTime.IsZero (Timestamp uc)); munfold.
  - eexists _, _. split; [reflexivity|]. cbn. split_and!; [done..|lia|lia].
  - eexists _, _. split; [reflexivity|]. split_and!; [done..|lia|lia].
Qed.

(** X24.  Gates fail closed.  When the gate is not in the cache and
    every HTTP exchange fails (with a [retryAttempts] that is not negative
    and below the largest int), [EvaluateGate] returns [false], leaves
    cache and disk as they were, so that nothing is cached for the gate,
    and counts one gate evaluation and one cache miss. *)
Theorem EvaluateGate_fails_closed (E : Env) (e : Evaluator) (svc : GateService)
    (gateKey : string) (userContext : UserContext) (gatesEvaluated : Z)
    (w : World) :
  0 ≤ retryAttempts (httpClient e) < GoInt.max_int64 →
  items (mem w) !! generateGateCacheKey e gateKey userContext = None →
  (∀ i body,
     ∃ err, failsWith (httpClient e) (λ _, gateAPI svc)
              "/api/v1/sdk/feature-gates/evaluate" body E i err) →
  ∃ w',
    eval.EvaluateGate e svc gateKey userContext gatesEvaluated E w
    = Returns (false, GoInt.wrap64 (gatesEvaluated + 1)) w' ∧
    cacheManager w' = cacheManager w ∧ disk w' = disk w ∧
    cacheMisses (collector w')
    = GoInt.wrap64 (cacheMisses (collector w) + 1).
Proof.
  intros Hretry Hnone Hfail. unfold eval.EvaluateGate.
  destruct (stamp_spec userContext E w)
    as (uc1 & w0 & Hstamp & Hu & Hcm0 & Hd0 & Hcl0 & Hx0 & Hcol0 & _).
  unfold mbind at 1. unfold M_bind, bind. rewrite Hstamp.
  rewrite (generateGateCacheKey_UserID e gateKey userContext uc1 Hu).
  unfold mbind at 1. unfold M_bind, bind, cacheGet.
  destruct (manager_Get_spec (cacheManager w0)
              (generateGateCacheKey e gateKey userContext)
              (clock E (reads w0))) as (Hfound & Hgot & Hmem & Hsp).
  assert (cache.Get (memoryOf (cacheManager w0))
            (generateGateCacheKey e gateKey userContext) (clock E (reads w0))
          = mkGetResult zeroFlagResult false (memoryOf (cacheManager w0)) None)
    as Hget.
  { unfold cache.Get. unfold mem in Hnone. by rewrite Hcm0, Hnone. }
  rewrite Hget in Hfound, Hgot, Hmem, Hsp. cbn in Hfound, Hgot, Hmem, Hsp.
  rewrite Hfound, Hgot, Hsp. cbn.
  pose proof (manager_Get_miss_after _ _ _ Hfound) as Hafter. rewrite Hafter.
  unfold mbind, M_bind, bind, mret, M_ret, ret, record.
  unfold http.EvaluateGate, makeRequest.
  edestruct (TransportLaws.attemptLoop_fails (httpClient e) (λ _, gateAPI svc)
               "/api/v1/sdk/feature-gates/evaluate"
               (mkEvaluateGateRequest gateKey uc1) zeroEvaluateGateResponse E
               (Z.to_nat (retryAttempts (httpClient e) + 1)) 0 None)
    as (err & w' & -> & Hcm' & Hd' & _ & _ & _ & Hmiss'); [by eauto | lia |].
  exists w'. split; [reflexivity|]. cbn in Hcm', Hd', Hmiss'.
  split_and!; congruence.
Qed.

(** A lookup that finds a fresh boolean entry: [EvaluateGate] returns it
    and goes nowhere near the network. *)
Lemma EvaluateGate_fails_closed_witness :
  ∃ w',
    eval.EvaluateGate scenario.theEvaluator examples.failingGates "g"
      scenario.user1 0 scenario.healthy scenario.world0
    = Returns (false, 1) w' ∧
    cacheManager w' = cacheManager scenario.world0.
Proof.
  destruct (EvaluateGate_fails_closed scenario.healthy scenario.theEvaluator
              examples.failingGates "g" scenario.user1 0 scenario.world0)
    as (w' & Hrun & Hcm & _).
  - simpl. unfold GoInt.max_int64. lia.
  - vm_compute. reflexivity.
  - intros i body. eexists. vm_compute. reflexivity.
  - exists w'. split; [exact Hrun | exact Hcm].
Defined.




(** X26.  Gates and flags share the cache and do not collide.  The
    cache key of a gate is never the cache key of a flag, whatever the
    keys, users and environments; for one user and one environment two
    gates with the same cache key are the same gate; and after an
    [EvaluateGate] that returns, the entry under the cache key of any flag
    is what it was, or is gone. *)
Theorem gate_keys_are_apart_from_flag_keys (e e' : Evaluator)
    (gateKey flagKey : string) (userContext userContext' : UserContext) :
  generateGateCacheKey e gateKey userContext
  ≠ generateCacheKey e' flagKey userContext' ∧
  (∀ gateKey',
     generateGateCacheKey e gateKey userContext
     = generateGateCacheKey e gateKey' userContext → gateKey = gateKey') ∧
  ∀ (svc : GateService) gatesEvaluated E w result w',
    eval.EvaluateGate e svc gateKey userContext gatesEvaluated E w
    = Returns result w' →
    items (mem w') !! generateCacheKey e' flagKey userContext'
    = items (mem w) !! generateCacheKey e' flagKey userContext' ∨
    items (mem w') !! generateCacheKey e' flagKey userContext' = None.
Proof.
  assert (∀ uc, generateGateCacheKey e gateKey uc
                ≠ generateCacheKey e' flagKey userContext') as Hapart.
  { intros uc. unfold generateGateCacheKey, generateCacheKey. simpl.
    intros [=]. }
  split; [apply Hapart|]. split.
  { unfold generateGateCacheKey. intros gateKey' Heq.
    apply (inj (String.app _)) in Heq.
    by apply StringFacts.app_inj_r in Heq. }
  intros svc n E w result w'. unfold eval.EvaluateGate.
  destruct (stamp_spec userContext E w)
    as (uc1 & w0 & Hstamp & Hu & Hcm0 & Hd0 & Hcl0 & Hx0 & Hcol0 & _).
  unfold mbind at 1. unfold M_bind, bind. rewrite Hstamp.
  unfold mbind at 1. unfold M_bind, bind, cacheGet.
  destruct (manager_Get_spec (cacheManager w0)
              (generateGateCacheKey e gateKey uc1) (clock E (reads w0)))
    as (_ & _ & Hmem & _).
  set (r := manager.Get (cacheManager w0) _ _) in *.
  assert (items (memoryOf (after r)) = items (mem w)) as Hitems.
  { rewrite Hmem, Get_items. unfold mem. by rewrite Hcm0. }
  clearbody r. cbn.
  set (w1 := mkWorld (after r) _ _ _ _ _ _ _).
  assert (items (mem w1) = items (mem w)) as Hitems1 by exact Hitems.
  clearbody w1. clear Hitems Hmem.
  assert (∀ served w2,
    (if found r then record RecordCacheHit;; mret (asBool (Value (got r)))
     else mret None) E w1 = Returns served w2 →
    items (mem w2) = items (mem w)) as Hserved.
  { intros served w2. destruct (found r); munfold; intros [= _ <-]; done. }
  unfold mbind at 1. unfold M_bind, bind.
  destruct ((if found r
             then record RecordCacheHit;; mret (asBool (Value (got r)))
             else mret None) E w1) as [served w2| |] eqn:Hs; [|done..].
  clear Hs. pose proof (Hserved served w2 eq_refl) as Hs.
  destruct served as [value|].
  { unfold mret, M_ret, ret. intros [= _ <-]. left. by rewrite Hs. }
  unfold mbind at 1. unfold M_bind, bind, record.
  unfold mbind at 1. unfold M_bind, bind, http.EvaluateGate, makeRequest.
  edestruct (TransportLaws.attemptLoop_account (httpClient e)
               (λ _, gateAPI svc) "/api/v1/sdk/feature-gates/evaluate"
               (mkEvaluateGateRequest gateKey uc1) zeroEvaluateGateResponse E
               (Z.to_nat (retryAttempts (httpClient e) + 1)) 0 None)
    as (res & w3 & made & -> & _ & _ & _ & _ & Hcm3 & _); [lia|].
  cbn in Hcm3.
  destruct res as [err|response].
  { unfold mret, M_ret, ret. intros [= _ <-]. left.
    unfold mem in *. by rewrite Hcm3, Hs. }
  unfold mbind, M_bind, bind, now, cacheSet, mret, M_ret, ret. cbn.
  destruct (manager.Set_ _ _ _ _ _ _) as [[cm d']|] eqn:Hset; [|done].
  intros [= _ <-]. unfold mem in *. cbn.
  destruct (manager_Set_other_keys _ _ _ _ _ _ _ _
              (generateCacheKey e' flagKey userContext') Hset) as [Heq|Hgone].
  - intros Hbad. by apply (Hapart uc1).
  - left. rewrite Heq, Hcm3. by rewrite Hs.
  - by right.
Qed.

Lemma default_every_gate (gateKeys : list string) :
  ∀ (results : gmap string bool) k,
    foldl (λ results gateKey, <[gateKey := false]> results) results gateKeys
    !! k
    = if bool_decide (k ∈ gateKeys) then Some false else results !! k.
Proof.
  induction gateKeys as [|x gateKeys IH]; intros results k; cbn [foldl].
  - by rewrite bool_decide_false by apply not_elem_of_nil.
  - rewrite IH. destruct (decide (k ∈ gateKeys)) as [Hin|Hin].
    + rewrite !bool_decide_true; [done | by right | done].
    + rewrite (bool_decide_false (k ∈ gateKeys)) by done.
      destruct (decide (k = x)) as [->|Hne].
      * rewrite bool_decide_true by (by left). apply lookup_insert_eq.
      * rewrite bool_decide_false by (by intros [?|?]%elem_of_cons).
        by apply lookup_insert_ne.
Qed.

(** The loop "Check cache for each gate" over gates none of which is in
    the cache: every gate is reported as not cached, and counted. *)
Lemma checkGateCache_all_miss E e uc gateKeys n : ∀ w,
  (∀ k, k ∈ gateKeys →
        items (mem w) !! generateGateCacheKey e k uc = None) →
  ∃ n' w',
    foldM (checkGateCache e uc) (∅, [], n) gateKeys E w
    = Returns (∅, gateKeys, n') w' ∧
    GoInt.wrap64 n' = GoInt.wrap64 (n + Z.of_nat (length gateKeys)) ∧
    cacheManager w' = cacheManager w ∧ disk w' = disk w ∧
    exchanges w' = exchanges w ∧ closed w' = closed w ∧ reads w' = reads w.
Proof.
  intros w Hnone.
  destruct (foldM_total (checkGateCache e uc)
    (λ pre acc w',
       acc.1.1 = ∅ ∧ acc.1.2 = pre ∧
       GoInt.wrap64 acc.2 = GoInt.wrap64 (n + Z.of_nat (length pre)) ∧
       cacheManager w' = cacheManager w ∧ disk w' = disk w ∧
       exchanges w' = exchanges w ∧ closed w' = closed w ∧
       reads w' = reads w)
    E gateKeys) with (pre := @nil string)
                     (b := ((∅, [], n) : gmap string bool * list string * Z))
                     (w := w)
    as ([[results uncached] n'] & w' & Hrun & Hres & Hunc & Hn & Hrest).
  - intros pre a [[results uncached] m] w1 Ha
      (Hres & Hunc & Hm & Hcm & Hd & Hx & Hcl & Hr).
    simpl in Hres, Hunc, Hm. subst results uncached.
    unfold checkGateCache. unfold mbind at 1. unfold M_bind, bind, cacheGet.
    destruct (manager_Get_spec (cacheManager w1)
                (generateGateCacheKey e a uc) (clock E (reads w1)))
      as (Hfound & Hgot & Hmem & Hsp).
    assert (cache.Get (memoryOf (cacheManager w1))
              (generateGateCacheKey e a uc) (clock E (reads w1))
            = mkGetResult zeroFlagResult false (memoryOf (cacheManager w1))
                None) as Hget.
    { unfold cache.Get. specialize (Hnone a Ha). unfold mem in Hnone.
      by rewrite Hcm, Hnone. }
    rewrite Hget in Hfound, Hgot, Hmem, Hsp.
    cbn in Hfound, Hgot, Hmem, Hsp.
    rewrite Hfound, Hgot, Hsp. cbn.
    pose proof (manager_Get_miss_after _ _ _ Hfound) as Hafter.
    rewrite Hafter. munfold. cbn.
    eexists _, _. split; [reflexivity|]. cbn.
    rewrite bool_decide_false.
    2:{ specialize (Hnone a Ha). unfold mem in Hnone. rewrite Hcm, Hnone.
        by intros [? ?]. }
    split_and!; try done.
    unfold collector.RecordGateEvaluation.
    rewrite TransportFacts.wrap64_idem, length_app. cbn [length].
    rewrite <- (TransportLaws.wrap64_add_l m 1), Hm,
      TransportLaws.wrap64_add_l. f_equal. lia.
  - cbn. split_and!; try done. f_equal. lia.
  - simpl in *. subst. exists n', w'.
    destruct Hrest as (? & ? & ? & ? & ?). by split_and!.
Qed.

(** The loop "Process batch results and cache them" on a healthy cache,
    visiting all of the response. *)
Lemma storeGate_loop E e uc (listed : gmap string EvaluateGateResponse)
    entries :
  (∀ k x, (k, x) ∈ entries ↔ listed !! k = Some x) →
  ∀ results0 w, cacheOK (cacheManager w) →
    ∃ results w',
      foldM (storeGate e uc) results0 entries E w = Returns results w' ∧
      cacheOK (cacheManager w') ∧ exchanges w' = exchanges w ∧
      ∀ k, results !! k = match listed !! k with
                          | Some x => Some (gate_Enabled x)
                          | None => results0 !! k
                          end.
Proof.
  intros Hentries results0 w Hok.
  destruct (foldM_total (storeGate e uc)
    (λ (pre : list (string * EvaluateGateResponse)) results w',
       cacheOK (cacheManager w') ∧ exchanges w' = exchanges w ∧
       (∀ y, y ∈ pre → y ∈ entries) ∧
       ∀ k, (∀ x, (k, x) ∈ pre → results !! k = Some (gate_Enabled x)) ∧
            ((∀ x, (k, x) ∉ pre) → results !! k = results0 !! k))
    E entries) with (pre := @nil (string * EvaluateGateResponse))
                    (b := results0) (w := w)
    as (results & w' & Hrun & Hok' & Hx' & _ & Hres).
  - intros pre [k x] b w1 Hin (Hok1 & Hx1 & Hsub & Hb).
    unfold storeGate. munfold. cbn.
    destruct (manager_Set_ok (cacheManager w1) (generateGateCacheKey e k uc)
                (gateResult k (gate_Enabled x) (clock E (reads w1))) 0
                (clock E (S (reads w1))) (disk w1) Hok1)
      as (cm & d & -> & Hok2).
    eexists _, _. split; [reflexivity|]. cbn.
    split; [done|]. split; [done|]. split.
    { intros y [?| ->%list_elem_of_singleton]%elem_of_app;
        [by apply Hsub | done]. }
    intros k'. destruct (Hb k') as [Hin' Hout']. split.
    + intros x' [Hpre | [= -> ->]%list_elem_of_singleton]%elem_of_app.
      * rewrite lookup_insert. case_decide as Hk; [|by apply Hin'].
        subst k'. do 2 f_equal.
        assert (listed !! k = Some x) as H1 by (by apply Hentries).
        assert (listed !! k = Some x') as H2.
        { apply Hentries. by apply Hsub. }
        congruence.
      * apply lookup_insert_eq.
    + intros Hnot. rewrite lookup_insert_ne.
      * apply Hout'. intros x' Hx'. apply (Hnot x').
        apply elem_of_app. by left.
      * intros ->. apply (Hnot x). apply elem_of_app. right. by left.
  - split; [done|]. split; [done|]. split; [by intros y ?%elem_of_nil|].
    intros k. split; [by intros x ?%elem_of_nil | done].
  - simpl in Hres. exists results, w'. split; [done|]. split; [done|].
    split; [done|].
    intros k. destruct (Hres k) as [Hin Hout].
    destruct (listed !! k) as [x|] eqn:Hk.
    + apply Hin. by apply Hentries.
    + apply Hout. intros x Hx. apply Hentries in Hx. congruence.
Qed.

(** X27.  A batch of gates none of which is in the cache (a list that
    is not empty, a healthy cache, a fair map iteration, a [retryAttempts]
    that is not negative and below the largest int).  When every HTTP
    exchange fails, [EvaluateGates] returns [false] for every gate of the
    list and nothing for any other key, and leaves the cache as it was.
    When the first exchange returns a response, it returns after that one
    exchange with exactly the gates the response lists, each with its
    [Enabled]: a gate of the list that the response omits is absent from
    the result, not [false]; and every gate of the list has been counted
    as one gate evaluation. *)
Theorem EvaluateGates_by_outcome (E : Env) (e : Evaluator)
    (svc : GateService) (gateKeys : list string) (userContext : UserContext)
    (gatesEvaluated : Z) (w : World) :
  GoMap.fair_order (mapOrder E) →
  cacheOK (cacheManager w) →
  0 ≤ retryAttempts (httpClient e) < GoInt.max_int64 →
  gateKeys ≠ [] →
  (∀ k, k ∈ gateKeys →
        items (mem w) !! generateGateCacheKey e k userContext = None) →
  ((∀ i body,
      ∃ err, failsWith (httpClient e) (λ _, batchGateAPI svc)
               "/api/v1/sdk/feature-gates/evaluate/batch" body E i err) →
   ∃ results n' w',
     eval.EvaluateGates e svc gateKeys userContext gatesEvaluated E w
     = Returns (results, n') w' ∧
     cacheManager w' = cacheManager w ∧
     ∀ k, results !! k
          = if bool_decide (k ∈ gateKeys) then Some false else None) ∧
  (∀ response,
     (∀ body,
        settle (baseURL (httpClient e)
                +:+ "/api/v1/sdk/feature-gates/evaluate/batch")
          (batchGateAPI svc (exchanges w) body) = inr response) →
     ∃ results n' w',
       eval.EvaluateGates e svc gateKeys userContext gatesEvaluated E w
       = Returns (results, n') w' ∧
       GoInt.wrap64 n'
       = GoInt.wrap64 (gatesEvaluated + Z.of_nat (length gateKeys)) ∧
       exchanges w' = S (exchanges w) ∧
       ∀ k, results !! k = gate_Enabled <$> gate_Results response !! k).
Proof.
  intros Hfair Hok Hretry Hsome Hnone.
  destruct (stamp_spec userContext E w)
    as (uc1 & w0 & Hstamp & Hu & Hcm0 & Hd0 & Hcl0 & Hx0 & Hcol0 & _).
  destruct (checkGateCache_all_miss E e uc1 gateKeys gatesEvaluated w0)
    as (n' & w1 & Hcheck & Hn' & Hcm1 & Hd1 & Hx1 & Hcl1 & Hr1).
  { intros k Hk. rewrite (generateGateCacheKey_UserID e k userContext uc1 Hu).
    unfold mem. rewrite Hcm0. by apply Hnone. }
  assert (∀ k : M (gmap string bool * Z),
    eval.EvaluateGates e svc gateKeys userContext gatesEvaluated E w
    = (res ← http.EvaluateGates (httpClient e) svc gateKeys uc1
               (Environment (evaluator.config e));
       match res with
       | inl err =>
           mret (foldl (λ results gateKey, <[gateKey := false]> results)
                   ∅ gateKeys, n')
       | inr response =>
           entries ← rangeMap (gate_Results response);
           results ← foldM (storeGate e uc1) ∅ entries;
           mret (results, n')
       end) E w1) as Hunfold.
  { intros _. unfold eval.EvaluateGates.
    unfold mbind at 1 2. unfold M_bind, bind. rewrite Hstamp, Hcheck. cbn.
    rewrite bool_decide_false by (by destruct gateKeys). done. }
  rewrite (Hunfold (mret (∅, 0))). clear Hunfold. split.
  - intros Hfail. unfold http.EvaluateGates, makeRequest.
    unfold mbind, M_bind, bind.
    edestruct (TransportLaws.attemptLoop_fails (httpClient e) (λ _, batchGateAPI svc)
                 "/api/v1/sdk/feature-gates/evaluate/batch"
                 (mkBatchEvaluateGatesRequest gateKeys (UserID uc1)
                    (Environment (evaluator.config e)) uc1)
                 zeroBatchEvaluateGatesResponse E
                 (Z.to_nat (retryAttempts (httpClient e) + 1)) 0 None)
      as (err & w' & -> & Hcm' & _); [by eauto | lia |].
    eexists _, n', w'. split; [reflexivity|]. split; [congruence|].
    intros k. rewrite default_every_gate. by rewrite lookup_empty.
  - intros response Hanswer. unfold http.EvaluateGates, makeRequest.
    replace (Z.to_nat (retryAttempts (httpClient e) + 1))
      with (S (Z.to_nat (retryAttempts (httpClient e)))) by lia.
    unfold mbind at 1. unfold M_bind, bind.
    edestruct (TransportLaws.attemptLoop_decisive (httpClient e)
                 (λ _, batchGateAPI svc)
                 "/api/v1/sdk/feature-gates/evaluate/batch"
                 (mkBatchEvaluateGatesRequest gateKeys (UserID uc1)
                    (Environment (evaluator.config e)) uc1)
                 zeroBatchEvaluateGatesResponse E
                 (Z.to_nat (retryAttempts (httpClient e))) 0 None)
      as (w2 & -> & Hx2 & Hcm2 & Hd2 & _); [lia | |].
    { cbn. rewrite Hx1, Hx0, Hanswer. done. }
    cbn. rewrite Hx1, Hx0, Hanswer.
    unfold mbind at 1. unfold M_bind, bind, rangeMap.
    destruct (storeGate_loop E e uc1 (gate_Results response)
                (GoMap.range (mapOrder E) (gate_Results response))
                ltac:(intros k x; split;
                        [apply range_sound | by apply range_complete])
                ∅ w2 ltac:(by rewrite Hcm2, Hcm1, Hcm0))
      as (results & w' & Hloop & _ & Hx' & Hres).
    unfold mbind, M_bind, bind. rewrite Hloop.
    eexists results, n', w'. split; [reflexivity|]. split; [done|].
    split; [lia|].
    intros k. rewrite Hres. destruct (gate_Results response !! k); [done|].
    apply lookup_empty.
Qed.

Lemma EvaluateGates_by_outcome_witness :
  (∃ results n' w',
     eval.EvaluateGates scenario.theEvaluator examples.failingGates
       ["g"; "h"] scenario.user1 0 scenario.healthy scenario.world0
     = Returns (results, n') w' ∧
     results !! "g" = Some false ∧ results !! "h" = Some false) ∧
  (∃ results n' w',
     eval.EvaluateGates scenario.theEvaluator examples.openGates
       ["g"; "h"] scenario.user1 0 scenario.healthy scenario.world0
     = Returns (results, n') w' ∧
     results !! "g" = Some true ∧ results !! "h" = None).
Proof.
  assert (∀ k, k ∈ ["g"; "h"] →
               items (mem scenario.world0)
               !! generateGateCacheKey scenario.theEvaluator k scenario.user1
               = None) as Hnone.
  { intros k _. apply lookup_empty. }
  split.
  - destruct (proj1 (EvaluateGates_by_outcome scenario.healthy
                       scenario.theEvaluator examples.failingGates
                       ["g"; "h"] scenario.user1 0 scenario.world0
                       (λ l, reflexivity l) world0_ok
                       ltac:(simpl; unfold GoInt.max_int64; lia)
                       ltac:(discriminate) Hnone))
      as (results & n' & w' & Hrun & _ & Hres).
    + intros i body. eexists. vm_compute. reflexivity.
    + exists results, n', w'. split; [exact Hrun|].
      split; [exact (Hres "g") | exact (Hres "h")].
  - destruct (proj2 (EvaluateGates_by_outcome scenario.healthy
                       scenario.theEvaluator examples.openGates
                       ["g"; "h"] scenario.user1 0 scenario.world0
                       (λ l, reflexivity l) world0_ok
                       ltac:(simpl; unfold GoInt.max_int64; lia)
                       ltac:(discriminate) Hnone)
                (mkBatchEvaluateGatesResponse {["g" := examples.gateOn]}))
      as (results & n' & w' & Hrun & _ & _ & Hres).
    + intros body. vm_compute. reflexivity.
    + exists results, n', w'. split; [exact Hrun|].
      split; [rewrite (Hres "g") | rewrite (Hres "h")];
        vm_compute; reflexivity.
Defined.

End GateLaws.

(** ** Event tracking *)

Module TrackingLaws.
Import errors types metrics wire runtime httpclient evaluator variably.
Import predicates.
Import events tracking tracking.api.

(** "Ensure event has timestamp" reads the clock at most once and changes
    nothing else. *)
Lemma stampEvent_spec event E w :
  ∃ w0,
    stampEvent event E w
    = Returns (if GoTime.IsZero (ev_Timestamp event)
               then withTimestamp event (clock E (reads w))
               else event) w0 ∧
    cacheManager w0 = cacheManager w ∧ disk w0 = disk w ∧
    closed w0 = closed w ∧ exchanges w0 = exchanges w ∧
    collector w0 = collector w ∧ sleeps w0 = sleeps w.
Proof.
  unfold stampEvent. destruct (GoTime.IsZero (ev_Timestamp event)).
  - unfold mbind, M_bind, bind, now, mret, M_ret, ret. cbn.
    eexists. split; [reflexivity|]. by cbn.
  - exists w. by split_and!.
Qed.

(** X28.  [Track] on an open client (with a [retryAttempts] that is not
    negative and below the largest int).  With analytics disabled, [Track]
    and [TrackBatch] return nil and do nothing.  With analytics enabled,
    [Track] returns after at least one HTTP exchange, has counted the
    event as tracked whether or not it was delivered, and leaves cache and
    disk alone.  [TrackEvent] passes no result to [makeRequest], so a
    response with a status below 400 is a success whatever its body
    holds: [Track] then returns nil after that one exchange.  When every
    exchange fails [Track] returns an error. *)
Theorem Track_counts_the_event_before_sending (E : Env) (c : VariablyClient)
    (svc : EventService) (event : Event) (eventsTracked : Z) (w : World) :
  closed w = false →
  0 ≤ retryAttempts (httpClient (evaluator c)) < GoInt.max_int64 →
  Track c false svc event eventsTracked E w
  = Returns (None, eventsTracked) w ∧
  (∀ events,
     TrackBatch c false svc events eventsTracked E w
     = Returns (None, events, eventsTracked) w) ∧
  ∃ err w',
    Track c true svc event eventsTracked E w
    = Returns (err, GoInt.wrap64 (eventsTracked + 1)) w' ∧
    (exchanges w < exchanges w')%nat ∧
    cacheManager w' = cacheManager w ∧ disk w' = disk w ∧
    (∀ status respBody,
       status < 400 →
       (∀ req, eventAPI svc (exchanges w) req = Response status respBody) →
       err = None ∧ exchanges w' = S (exchanges w)) ∧
    ((∀ i req,
        ∃ e, failsWith (httpClient (evaluator c))
               (λ _ n req, unread (eventAPI svc n req))
               "/api/v1/sdk/events" req E i e) →
     is_Some err).
Proof.
  intros Hopen Hretry. unfold Track, TrackBatch, ensureNotClosed. split.
  { unfold mbind, M_bind, bind. by rewrite Hopen. }
  split.
  { intros events. unfold mbind, M_bind, bind. by rewrite Hopen. }
  destruct (stampEvent_spec event E w)
    as (w0 & Hstamp & Hcm0 & Hd0 & Hcl0 & Hx0 & Hcol0 & Hsl0).
  unfold mbind at 1. unfold M_bind, bind. rewrite Hopen. cbn [negb].
  unfold mbind at 1. unfold M_bind, bind. rewrite Hstamp.
  set (stamped := if GoTime.IsZero (ev_Timestamp event)
                  then withTimestamp event (clock E (reads w)) else event).
  unfold http.TrackEvent, makeRequest.
  destruct (TransportLaws.attemptLoop_account (httpClient (evaluator c))
              (λ _ n req, unread (eventAPI svc n req)) "/api/v1/sdk/events"
              (toRequest stamped) tt E
              (Z.to_nat (retryAttempts (httpClient (evaluator c)) + 1)) 0 None
              w0 ltac:(lia))
    as (res & w' & made & Hrun & Hx' & _ & _ & _ & Hcm' & Hd' & _ & _ & _ & _
        & _ & _ & _ & _ & Hmade).
  unfold mbind, M_bind, bind, mret, M_ret, ret. rewrite Hrun.
  exists (asError res), w'. split; [done|].
  assert (made ≠ 0%nat) as Hpos by (apply Hmade; lia).
  split; [lia|]. split; [congruence|]. split; [congruence|]. split.
  - intros status respBody Hstatus Hanswer.
    replace (Z.to_nat (retryAttempts (httpClient (evaluator c)) + 1))
      with (S (Z.to_nat (retryAttempts (httpClient (evaluator c)))))
      in Hrun by lia.
    destruct (TransportLaws.attemptLoop_decisive (httpClient (evaluator c))
                (λ _ n req, unread (eventAPI svc n req)) "/api/v1/sdk/events"
                (toRequest stamped) tt E
                (Z.to_nat (retryAttempts (httpClient (evaluator c)))) 0 None
                w0 ltac:(lia))
      as (w2 & Hrun2 & Hx2 & _).
    { cbn. rewrite Hx0, Hanswer. cbn.
      rewrite bool_decide_false by lia. done. }
    rewrite Hrun in Hrun2. injection Hrun2 as Hres Hw.
    revert Hres. cbn. rewrite Hx0, Hanswer. cbn.
    rewrite bool_decide_false by lia. intros ->. subst w2.
    split; [done | congruence].
  - intros Hfail.
    destruct (TransportLaws.attemptLoop_fails (httpClient (evaluator c))
                (λ _ n req, unread (eventAPI svc n req)) "/api/v1/sdk/events"
                (toRequest stamped) tt E
                (Z.to_nat (retryAttempts (httpClient (evaluator c)) + 1)) 0
                None w0 ltac:(by eauto) ltac:(lia))
      as (e & w2 & Hrun2 & _).
    rewrite Hrun in Hrun2. injection Hrun2 as -> _. by eexists.
Qed.

Lemma Track_counts_the_event_before_sending_witness :
  ∃ w',
    Track scenario.theClient true examples.acceptingEvents examples.signup 0
      scenario.healthy scenario.world0
    = Returns (None, 1) w' ∧
    exchanges w' = 1%nat.
Proof.
  destruct (proj2 (proj2 (Track_counts_the_event_before_sending
                            scenario.healthy scenario.theClient
                            examples.acceptingEvents examples.signup 0
                            scenario.world0 eq_refl
                            ltac:(simpl; unfold GoInt.max_int64; lia))))
    as (err & w' & Hrun & _ & _ & _ & Hok & _).
  destruct (Hok 202 scenario.noBody ltac:(lia) (λ _, eq_refl)) as [-> Hx].
  exists w'. split; [exact Hrun | exact Hx].
Defined.

End TrackingLaws.

(** ** The metrics collector *)

Module CollectorLaws.
Import metrics collector tally.

Lemma count_cons p r rs :
  count p (r :: rs) = (if p r then 1 else 0) + count p rs.
Proof.
  unfold count. cbn [List.filter]. destruct (p r); cbn [length]; lia.
Qed.

Lemma count_bounds p rs : 0 ≤ count p rs ≤ Z.of_nat (length rs).
Proof.
  unfold count. pose proof (List.filter_length_le p rs). lia.
Qed.

Lemma count_failures_le rs : count isFailure rs ≤ count isAPICall rs.
Proof.
  induction rs as [|r rs IH]; [done|]. rewrite !count_cons.
  destruct r as [l [|]| | | | |]; simpl; lia.
Qed.

(** Counters that cannot overflow within the history count it. *)
Lemma after_counts rs : ∀ m,
  0 ≤ apiCalls (counters m) → 0 ≤ errorCount (counters m) →
  0 ≤ cacheHits (counters m) → 0 ≤ cacheMisses (counters m) →
  0 ≤ flagsEvaluated (counters m) → 0 ≤ gatesEvaluated m →
  0 ≤ eventsTracked m →
  apiCalls (counters m) + Z.of_nat (length rs) ≤ GoInt.max_int64 →
  errorCount (counters m) + Z.of_nat (length rs) ≤ GoInt.max_int64 →
  cacheHits (counters m) + Z.of_nat (length rs) ≤ GoInt.max_int64 →
  cacheMisses (counters m) + Z.of_nat (length rs) ≤ GoInt.max_int64 →
  flagsEvaluated (counters m) + Z.of_nat (length rs) ≤ GoInt.max_int64 →
  gatesEvaluated m + Z.of_nat (length rs) ≤ GoInt.max_int64 →
  eventsTracked m + Z.of_nat (length rs) ≤ GoInt.max_int64 →
  apiCalls (counters (after m rs))
  = apiCalls (counters m) + count isAPICall rs ∧
  errorCount (counters (after m rs))
  = errorCount (counters m) + count isFailure rs ∧
  cacheHits (counters (after m rs))
  = cacheHits (counters m) + count isCacheHit rs ∧
  cacheMisses (counters (after m rs))
  = cacheMisses (counters m) + count isCacheMiss rs ∧
  flagsEvaluated (counters (after m rs))
  = flagsEvaluated (counters m) + count isFlagEvaluation rs ∧
  gatesEvaluated (after m rs) = gatesEvaluated m + count isGateEvaluation rs ∧
  eventsTracked (after m rs) = eventsTracked m + count isEventTracked rs ∧
  startTime (after m rs) = startTime m ∧
  lastErrorRate (after m rs) = lastErrorRate m ∧
  lastCacheHitRate (after m rs) = lastCacheHitRate m.
Proof.
  induction rs as [|r rs IH]; intros m H1 H2 H3 H4 H5 H6 H7 B1 B2 B3 B4 B5 B6 B7.
  - unfold count. cbn. split_and!; try done; lia.
  - cbn [length] in *. unfold after. cbn [foldl]. fold (after (record m r) rs).
    rewrite !count_cons.
    assert (∀ x, 0 ≤ x → x + Z.of_nat (S (length rs)) ≤ GoInt.max_int64 →
                 GoInt.wrap64 (x + 1) = x + 1) as Hsmall.
    { intros x Hx Hb. apply GoIntFacts.wrap64_small.
      unfold GoInt.min_int64, GoInt.max_int64 in *. lia. }
    assert (apiCalls (counters (record m r))
            = apiCalls (counters m) + (if isAPICall r then 1 else 0) ∧
            errorCount (counters (record m r))
            = errorCount (counters m) + (if isFailure r then 1 else 0) ∧
            cacheHits (counters (record m r))
            = cacheHits (counters m) + (if isCacheHit r then 1 else 0) ∧
            cacheMisses (counters (record m r))
            = cacheMisses (counters m) + (if isCacheMiss r then 1 else 0) ∧
            flagsEvaluated (counters (record m r))
            = flagsEvaluated (counters m)
              + (if isFlagEvaluation r then 1 else 0) ∧
            gatesEvaluated (record m r)
            = gatesEvaluated m + (if isGateEvaluation r then 1 else 0) ∧
            eventsTracked (record m r)
            = eventsTracked m + (if isEventTracked r then 1 else 0) ∧
            startTime (record m r) = startTime m ∧
            lastErrorRate (record m r) = lastErrorRate m ∧
            lastCacheHitRate (record m r) = lastCacheHitRate m)
      as (S1 & S2 & S3 & S4 & S5 & S6 & S7 & S8 & S9 & S10).
    { destruct r as [latency [|]| | | | |]; cbn;
        unfold RecordGateEvaluation, RecordEventTracked;
        rewrite ?Hsmall by done; split_and!; try done; lia. }
    destruct (IH (record m r))
      as (E1 & E2 & E3 & E4 & E5 & E6 & E7 & E8 & E9 & E10);
      try (rewrite ?S1, ?S2, ?S3, ?S4, ?S5, ?S6, ?S7;
           destruct r as [latency [|]| | | | |]; cbn; lia).
    rewrite E1, E2, E3, E4, E5, E6, E7, E8, E9, E10.
    rewrite S1, S2, S3, S4, S5, S6, S7, S8, S9, S10.
    split_and!; try done; lia.
Qed.

Lemma count_cache_le rs :
  count isCacheHit rs + count isCacheMiss rs ≤ Z.of_nat (length rs).
Proof.
  induction rs as [|r rs IH]; [done|]. rewrite !count_cons. cbn [length].
  destruct r as [l [|]| | | | |]; simpl; lia.
Qed.

(** X29.  The collector counts what it was told.  After a history of
    recordings on a fresh collector, short enough for no counter to
    overflow, [GetMetrics] reports for every counter the number of
    recordings of its kind; the error count is the number of failed API
    calls, so at most the number of API calls.  Start time and time of the
    snapshot are those of the two clock readings.  Without API calls the
    average latency and the error rate are zero, without cache operations
    so is the cache hit rate.  [GetErrorRate] and [GetCacheHitRate] report
    the rates of the last [GetMetrics]: zero before the first one, however
    many errors were recorded, and the old rates still after a [Reset],
    which clears the counters and restarts the start time. *)
Theorem GetMetrics_counts_what_was_recorded (start now later : Z)
    (rs : list Record_) :
  Z.of_nat (length rs) ≤ GoInt.max_int64 →
  let m := after (NewMetricsCollector start) rs in
  let snapshot := (GetMetrics m now).1 in
  let m' := (GetMetrics m now).2 in
  APICalls snapshot = count isAPICall rs ∧
  ErrorCount snapshot = count isFailure rs ∧
  ErrorCount snapshot ≤ APICalls snapshot ∧
  CacheHits snapshot = count isCacheHit rs ∧
  CacheMisses snapshot = count isCacheMiss rs ∧
  FlagsEvaluated snapshot = count isFlagEvaluation rs ∧
  GatesEvaluated snapshot = count isGateEvaluation rs ∧
  EventsTracked snapshot = count isEventTracked rs ∧
  StartTime snapshot = start ∧ LastUpdated snapshot = now ∧
  (count isAPICall rs = 0 →
   AverageLatency snapshot = 0 ∧ ErrorRate snapshot = float64_zero) ∧
  (count isCacheHit rs + count isCacheMiss rs = 0 →
   CacheHitRate snapshot = float64_zero) ∧
  GetErrorRate m = float64_zero ∧ GetCacheHitRate m = float64_zero ∧
  GetErrorRate m' = ErrorRate snapshot ∧
  GetCacheHitRate m' = CacheHitRate snapshot ∧
  GetErrorRate (Reset m' later) = ErrorRate snapshot ∧
  GetCacheHitRate (Reset m' later) = CacheHitRate snapshot ∧
  (GetMetrics (Reset m' later) now).1
  = mkMetrics 0 0 0 0 0 0 float64_zero float64_zero now later 0 0 0.
Proof.
  intros Hlen m snapshot m'.
  destruct (after_counts rs (NewMetricsCollector start))
    as (E1 & E2 & E3 & E4 & E5 & E6 & E7 & E8 & E9 & E10);
    try (cbn; unfold GoInt.max_int64 in *; lia).
  fold m in E1, E2, E3, E4, E5, E6, E7, E8, E9, E10.
  cbn in E1, E2, E3, E4, E5, E6, E7, E8, E9, E10.
  pose proof (count_failures_le rs) as Hle.
  pose proof (count_cache_le rs) as Hcache.
  pose proof (count_bounds isCacheHit rs) as Hhit.
  pose proof (count_bounds isCacheMiss rs) as Hmiss.
  unfold snapshot, m', GetMetrics, GetErrorRate, GetCacheHitRate, Reset.
  cbn [fst snd APICalls ErrorCount CacheHits CacheMisses FlagsEvaluated
         GatesEvaluated EventsTracked StartTime LastUpdated AverageLatency
         ErrorRate CacheHitRate lastErrorRate lastCacheHitRate counters
         gatesEvaluated eventsTracked startTime apiCalls cacheHits cacheMisses
         errorCount totalLatency flagsEvaluated].
  rewrite E1, E2, E3, E4, E5, E6, E7, E8, E9, E10.
  split_and!; try done; try lia.
  - intros ->. by rewrite bool_decide_false by lia.
  - intros Hzero. rewrite GoIntFacts.wrap64_small
      by (unfold GoInt.min_int64, GoInt.max_int64 in *; lia).
    by rewrite bool_decide_false by lia.
Qed.

Lemma GetMetrics_counts_what_was_recorded_witness :
  APICalls (GetMetrics
              (after (NewMetricsCollector 0)
                 [APICall 5 true; CacheMiss; APICall 7 false; CacheHit])
              9).1 = 2 ∧
  ErrorCount (GetMetrics
                (after (NewMetricsCollector 0)
                   [APICall 5 true; CacheMiss; APICall 7 false; CacheHit])
                9).1 = 1.
Proof.
  pose proof (GetMetrics_counts_what_was_recorded 0 9 9
                [APICall 5 true; CacheMiss; APICall 7 false; CacheHit]
                ltac:(simpl; unfold GoInt.max_int64; lia)) as Hcounts.
  cbv zeta in Hcounts. destruct Hcounts as (Hcalls & Herrors & _).
  split; [exact Hcalls | exact Herrors].
Defined.

End CollectorLaws.

(** ** The mock client *)

Module MockLaws.
Import types collector events mock.

(** The loop of [TrackBatch], from the [i]-th reading of the clock on. *)
Lemma trackEach_spec (clock : nat → Z) (events : list Event) : ∀ m i,
  trackedEvents (trackEach m clock i events)
  = (trackedEvents m
     ++ imap (λ j event,
                if GoTime.IsZero (ev_Timestamp event)
                then withTimestamp event (clock (i + j)%nat)
                else event) events)%list ∧
  flagValues (trackEach m clock i events) = flagValues m ∧
  gateValues (trackEach m clock i events) = gateValues m.
Proof.
  induction events as [|event events IH]; intros m i.
  - cbn. by rewrite app_nil_r.
  - cbn [trackEach imap]. destruct (IH (Track m (clock i) event) (S i))
      as (-> & -> & ->).
    unfold Track. cbn [trackedEvents flagValues gateValues].
    rewrite <- app_assoc. cbn [app]. rewrite Nat.add_0_r.
    split_and!; [|done..]. do 2 f_equal. apply imap_ext.
    intros j ev _. cbn. by rewrite Nat.add_succ_r.
Qed.

(** X30.  The mock client replays what a test has set up.  A flag set
    with [SetFlagValue] evaluates to that value with reason [mock_rule],
    and the other flags evaluate as before; a flag that was not set, or
    that was set before a [Reset], evaluates to the caller's default with
    reason [default].  A gate set with [SetGateValue] evaluates to that
    value, a gate that was not set to [false].  [TrackBatch] appends the
    events to the tracked events in their order, an event whose timestamp
    is zero with the time of its own clock reading and any other event
    unchanged; it changes neither flags nor gates; and
    [ClearTrackedEvents] forgets the events. *)
Theorem MockClient_replays_its_setup (m : MockClient) (now later : Z)
    (clock : nat → Z) (flagKey gateKey : string)
    (value defaultValue : GoValue) (enabled : bool) (events : list Event) :
  (EvaluateFlag (SetFlagValue m flagKey value) now flagKey defaultValue).1
  = mkFlagResult flagKey value "mock_rule" EmptyString EmptyString None now
      false ∧
  (flagValues m !! flagKey = None →
   (EvaluateFlag m now flagKey defaultValue).1
   = mkFlagResult flagKey defaultValue "default" EmptyString EmptyString None
       now false) ∧
  (EvaluateFlag (Reset (SetFlagValue m flagKey value) later) now flagKey
     defaultValue).1
  = mkFlagResult flagKey defaultValue "default" EmptyString EmptyString None
      now false ∧
  (∀ other, other ≠ flagKey →
     (EvaluateFlag (SetFlagValue m flagKey value) now other defaultValue).1
     = (EvaluateFlag m now other defaultValue).1) ∧
  (EvaluateGate (SetGateValue m gateKey enabled) gateKey).1 = enabled ∧
  (gateValues m !! gateKey = None → (EvaluateGate m gateKey).1 = false) ∧
  GetTrackedEvents (TrackBatch m clock events)
  = (GetTrackedEvents m
     ++ imap (λ i event,
                if GoTime.IsZero (ev_Timestamp event)
                then withTimestamp event (clock i)
                else event) events)%list ∧
  GetTrackedEvents (ClearTrackedEvents (TrackBatch m clock events)) = [] ∧
  flagValues (TrackBatch m clock events) = flagValues m ∧
  gateValues (TrackBatch m clock events) = gateValues m.
Proof.
  destruct (trackEach_spec clock events m 0) as (Htracked & Hflags & Hgates).
  split_and!.
  - unfold EvaluateFlag, SetFlagValue. cbn. by rewrite lookup_insert_eq.
  - intros Hnone. unfold EvaluateFlag. by rewrite Hnone.
  - unfold EvaluateFlag, Reset. cbn. by rewrite lookup_empty.
  - intros other Hother. unfold EvaluateFlag, SetFlagValue. cbn.
    rewrite lookup_insert_ne by done. by destruct (flagValues m !! other).
  - unfold EvaluateGate, SetGateValue. cbn. by rewrite lookup_insert_eq.
  - intros Hnone. unfold EvaluateGate. by rewrite Hnone.
  - exact Htracked.
  - done.
  - exact Hflags.
  - exact Hgates.
Qed.

End MockLaws.
